(** * accountRelatedRecords: the dual-mode data coordination engine

    A shallow embedding of
    [force-app/main/default/lwc/accountRelatedRecords/accountRelatedRecords.js].

    The component is an event-driven controller.  Every handler runs to
    its next [await]; what is left of it is kept as a pending task and
    resumed when the awaited promise settles.  The embedding follows that
    shape: a state record for the component's fields, one function per
    handler prefix, one resumption function per [await], and a [step]
    function that dispatches events.

    The source writes every handler twice, once for contacts and once for
    opportunities; the two copies differ only in the fields and the Apex
    method they name.  Here each pair is written once, indexed by [Kind],
    and the source names are kept as instances
    ([handleContactSearch := handleSearch Contact], ...). *)

From Stdlib Require Import Ascii QArith Qcanon.
From stdpp Require Import gmap strings list fin_maps pretty sorting.

Local Open Scope string_scope.
Local Open Scope list_scope.
Local Open Scope Z_scope.

(** * JavaScript values *)

(** The values a record field can hold once the Apex response has been
    deserialised: the columns read scalar fields.  Numbers are the finite
    ones, given by their exact value as a rational in lowest terms. *)
Inductive JsVal :=
| VUndefined
| VNull
| VBool (b : bool)
| VNumber (q : Qc)
| VString (s : string).

(** A row is a JavaScript object used as a map from property names to
    values. *)
Abbreviation Row := (gmap string JsVal).

(** [a[fieldName]]: a missing property reads as [undefined]. *)
Definition prop (a : Row) (fieldName : string) : JsVal :=
  default VUndefined (a !! fieldName).

(** The result of [ToNumber]. *)
Inductive JsNumber :=
| NaN
| Num (q : Qc)
| Infinity (negative : bool).

(** [ToBoolean]: [undefined], [null], [false], [0] and the empty string are
    falsy. *)
Definition ToBoolean (v : JsVal) : bool :=
  match v with
  | VUndefined | VNull => false
  | VBool b => b
  | VNumber q => negb (Qeq_bool q 0)
  | VString s => negb (String.eqb s "")
  end.

(** [a || b] *)
Definition js_or (a b : JsVal) : JsVal := if ToBoolean a then a else b.

(** ** Strings

    A string is the sequence of its code units; the embedding covers the
    code units below 256. *)

Definition code (c : ascii) : nat := nat_of_ascii c.

(** [String.prototype.toLowerCase] on one code unit: A-Z, and the
    upper-case letters of the Latin-1 supplement. *)
Definition lower_unit (c : ascii) : ascii :=
  let n := code c in
  if ((65 <=? n) && (n <=? 90) || (192 <=? n) && (n <=? 214)
      || (216 <=? n) && (n <=? 222))%nat
  then ascii_of_nat (n + 32) else c.

Fixpoint toLowerCase (s : string) : string :=
  match s with
  | EmptyString => EmptyString
  | String c s' => String (lower_unit c) (toLowerCase s')
  end.

(** White space and line terminators, as [String.prototype.trim] strips
    them: TAB, LF, VT, FF, CR, SP and NBSP. *)
Definition is_space (c : ascii) : bool :=
  let n := code c in
  ((9 <=? n) && (n <=? 13) || (n =? 32) || (n =? 160))%nat.

Fixpoint trimStart (s : string) : string :=
  match s with
  | EmptyString => EmptyString
  | String c s' => if is_space c then trimStart s' else s
  end.

Fixpoint trimEnd (s : string) : string :=
  match s with
  | EmptyString => EmptyString
  | String c s' =>
      let t := trimEnd s' in
      if is_space c && String.eqb t "" then EmptyString else String c t
  end.

Definition trim (s : string) : string := trimEnd (trimStart s).

(** * [Array.prototype.sort]

    ECMAScript leaves the sequence of comparator calls of [sort] to the
    engine, and fixes what every engine does: the result is the array's
    elements rearranged; the sort of an array of rows throws only what a
    call of the comparator throws; and for a consistent comparator the
    result is the sorted arrangement, stable since ECMAScript 2019.  The
    component runs in the browser's engine, whichever it is, so the
    embedding takes the sort as an interface with these three properties.
    [V8], further down, is the instance that the concrete runs use. *)

(** The order of the elements that a key and an order of the keys give. *)
Definition by_key {A K} (key : A -> K) (kle : relation K) : relation A :=
  fun x y => kle (key x) (key y).

(** A consistent comparator, on the elements that satisfy [P]: it never
    throws there and orders by the key, its result being at most 0
    exactly when the first key is at most the second, and at least 0
    exactly when the second key is at most the first. *)
Definition orders_by_key {A K} (comparefn : A -> A -> option Z)
    (key : A -> K) (kle : relation K) (P : A -> Prop) : Prop :=
  forall x y, P x -> P y ->
    exists c, comparefn x y = Some c /\
      (c <= 0 <-> kle (key x) (key y)) /\ (0 <= c <-> kle (key y) (key x)).

Class SortEngine := {
  (* [array.sort(comparefn)]; [None] when the sort throws *)
  Array_sort : forall {A : Type}, (A -> A -> option Z) -> list A -> option (list A);
  Array_sort_permutes :
    forall (A : Type) (comparefn : A -> A -> option Z) l l',
      Array_sort comparefn l = Some l' -> l' ≡ₚ l;
  Array_sort_throws :
    forall (A : Type) (comparefn : A -> A -> option Z) l,
      Array_sort comparefn l = None ->
      exists x y, x ∈ l /\ y ∈ l /\ comparefn x y = None;
  Array_sort_orders :
    forall (A K : Type) (EqK : EqDecision K) (comparefn : A -> A -> option Z)
           (key : A -> K) (kle : relation K) (P : A -> Prop),
      PreOrder kle -> Total kle ->
      orders_by_key comparefn key kle P ->
      forall l, Forall P l ->
        exists l', Array_sort comparefn l = Some l' /\
          StronglySorted (by_key key kle) l' /\
          forall k, filter (fun y => key y = k) l' = filter (fun y => key y = k) l
}.

(** ** The sort of V8

    V8 sorts with TimSort (third_party/v8/builtins/array-sort.tq).  An
    array of fewer than 64 elements is one run: [CountAndMakeRun] finds
    the ascending or strictly descending run the array starts with and
    reverses a descending one, and [BinaryInsertionSort] inserts the
    elements behind it one by one.  An array of fewer than 2 elements is
    returned without a comparator call.  From 64 elements on V8 cuts the
    array into several runs and merges them; the definition below keeps
    inserting, which gives the same result for a consistent comparator
    and is V8's sequence of comparator calls below 64 elements only. *)

Section TimSort.

Context {A : Type} (comparefn : A -> A -> option Z).

(** The inner loop of [BinaryInsertionSort]: [sorted] is the part of the
    sorted prefix between [left] and [right], [mid] its middle element,
    [left + ((right - left) >> 1)]; [order < 0] goes on below [mid],
    anything else above it.  The part halves at every turn, so
    [length sorted] turns are enough. *)
Fixpoint binary_insert (fuel : nat) (pivot : A) (sorted : list A)
  : option (list A) :=
  match fuel, drop (length sorted / 2) sorted with
  | S fuel', mid :: above =>
      order ← comparefn pivot mid;
      if order <? 0
      then (fun below => below ++ mid :: above)
             <$> binary_insert fuel' pivot (take (length sorted / 2) sorted)
      else (fun above' => take (length sorted / 2) sorted ++ mid :: above')
             <$> binary_insert fuel' pivot above
  | _, _ => Some (sorted ++ [pivot])
  end.

Fixpoint BinaryInsertionSort (sorted rest : list A) : option (list A) :=
  match rest with
  | [] => Some sorted
  | pivot :: rest' =>
      sorted' ← binary_insert (length sorted) pivot sorted;
      BinaryInsertionSort sorted' rest'
  end.

(** The loop of [CountAndMakeRun]: how many of [rest] go on with the run
    that ends in [previousElement]. *)
Fixpoint run_length (isDescending : bool) (previousElement : A) (rest : list A)
  : option nat :=
  match rest with
  | [] => Some 0%nat
  | currentElement :: rest' =>
      order ← comparefn currentElement previousElement;
      if (if isDescending then 0 <=? order else order <? 0) then Some 0%nat
      else S <$> run_length isDescending currentElement rest'
  end.

(** The run, ascending, and what is behind it. *)
Definition CountAndMakeRun (workArray : list A) : option (list A * list A) :=
  match workArray with
  | elementHigh :: elementLow :: rest =>
      order ← comparefn elementLow elementHigh;
      let isDescending := order <? 0 in
      n ← run_length isDescending elementLow rest;
      let run := elementHigh :: elementLow :: take n rest in
      Some (if isDescending then reverse run else run, drop n rest)
  | _ => Some (workArray, [])
  end.

Definition ArrayTimSort (workArray : list A) : option (list A) :=
  if (length workArray <? 2)%nat then Some workArray
  else '(run, rest) ← CountAndMakeRun workArray; BinaryInsertionSort run rest.

End TimSort.

(** * The runtime conversions, the sort comparator and [_addRecordUrls] *)

Section Runtime.

(** The two conversions of the JavaScript runtime that the component
    reaches through [+] and [>] are taken as they are. *)
Variable StringToNumber : string -> JsNumber.
Variable NumberToString : Qc -> string.

(** The sort of the engine. *)
Context {engine : SortEngine}.

Definition ToNumber (v : JsVal) : JsNumber :=
  match v with
  | VUndefined => NaN
  | VNull => Num 0%Qc
  | VBool b => Num (if b then 1%Qc else 0%Qc)
  | VNumber q => Num q
  | VString s => StringToNumber s
  end.

Definition ToString (v : JsVal) : string :=
  match v with
  | VUndefined => "undefined"
  | VNull => "null"
  | VBool b => if b then "true" else "false"
  | VNumber q => NumberToString q
  | VString s => s
  end.

(** [x < y] on numbers; [false] as soon as one side is [NaN]. *)
Definition num_lt (x y : JsNumber) : bool :=
  match x, y with
  | NaN, _ | _, NaN => false
  | Num p, Num q => match (p ?= q)%Qc with Lt => true | _ => false end
  | Num _, Infinity neg => negb neg
  | Infinity neg, Num _ => neg
  | Infinity n1, Infinity n2 => n1 && negb n2
  end.

(** [a < b]: two strings compare by code units, anything else by
    [ToNumber]. *)
Definition js_lt (a b : JsVal) : bool :=
  match a, b with
  | VString s1, VString s2 => String.ltb s1 s2
  | _, _ => num_lt (ToNumber a) (ToNumber b)
  end.

(** [a > b] *)
Definition js_gt (a b : JsVal) : bool := js_lt b a.

(** [v.toLowerCase()]: only strings have the method; on any other value
    the call raises a TypeError ([None]). *)
Definition call_toLowerCase (v : JsVal) : option JsVal :=
  match v with
  | VString s => Some (VString (toLowerCase s))
  | _ => None
  end.

(** The arrow function given to [data.sort] in [_sortData]. *)
Definition comparator (fieldName sortDirection : string) (a b : Row)
  : option Z :=
  let isReverse := if String.eqb sortDirection "desc" then -1 else 1 in
  let valueA := js_or (prop a fieldName) (VString "") in
  let valueB := js_or (prop b fieldName) (VString "") in
  vs ← match valueA with
       | VString sa =>
           vb ← call_toLowerCase (js_or valueB (VString ""));
           Some (VString (toLowerCase sa), vb)
       | _ => Some (valueA, valueB)
       end;
  let '(valueA, valueB) := vs in
  if js_gt valueA valueB then Some isReverse
  else if js_lt valueA valueB then Some (- isReverse)
  else Some 0.

Definition _sortData (data : list Row) (fieldName sortDirection : string)
  : option (list Row) :=
  Array_sort (comparator fieldName sortDirection) data.

(** [_addRecordUrls] *)
Definition _addRecordUrls (records : list Row) : list Row :=
  (fun record =>
     <["recordUrl" := VString ("/" +:+ ToString (prop record "Id"))]> record)
  <$> records.

End Runtime.

(** A runtime to run concrete traces with.  It is JavaScript's on the
    strings and numbers that the traces below hold, and not beyond them:
    [StringToNumber_decimal] reads the empty (or blank) string as 0 and
    an unsigned decimal integer literal as its value, and gives [NaN] for
    every other string, also for those that JavaScript converts (a sign,
    a fraction, an exponent, a hexadecimal literal, [Infinity]);
    [NumberToString_decimal] prints an integer in full digits, also from
    10^21 on, where JavaScript changes to the exponent notation, and
    gives ["NaN"] for a fraction.  The theorems are proved for every
    runtime. *)
Fixpoint digits_value (acc : option N) (s : string) : option N :=
  match s with
  | EmptyString => acc
  | String c s' =>
      let n := code c in
      if ((48 <=? n) && (n <=? 57))%nat
      then digits_value ((fun a => a * 10 + N.of_nat (n - 48))%N <$> acc) s'
      else None
  end.

Definition StringToNumber_decimal (s : string) : JsNumber :=
  match digits_value (Some 0%N) (trim s) with
  | Some n => Num (Qc_of_Z (Z.of_N n))
  | None => NaN
  end.

Definition NumberToString_decimal (q : Qc) : string :=
  if (Qden q =? 1)%positive then pretty (Qnum q) else "NaN".

(** * The component's state *)

Inductive Kind := Contact | Opportunity.

#[global] Instance Kind_eq_dec : EqDecision Kind.
Proof. solve_decision. Defined.

(** What a rejected promise carries; the handlers read [error.body?.message]. *)
Record JsError := { body_message : option string }.

(** The fields the class declares once per collection.  [draftValues]
    stands for the draft edits the datatable holds: the field is bound to
    its [draft-values], and assigning [[]] to it empties them. *)
Record Collection := {
  (* [_paginatedContacts], [_paginatedOpportunities] *)
  _paginated : list Row;
  (* [_searchContacts], [_searchOpportunities] *)
  _search : list Row;
  (* [totalContactCount], [totalOpportunityCount] *)
  totalCount : nat;
  (* [_contactOffset], [_opportunityOffset] *)
  _offset : nat;
  (* [enableContactInfiniteLoading], [enableOpportunityInfiniteLoading] *)
  enableInfiniteLoading : bool;
  (* [contactDraftValues], [opportunityDraftValues] *)
  draftValues : list Row;
  (* [contactError], [opportunityError] *)
  error : option JsError;
  (* [contactSearchTerm], [opportunitySearchTerm] *)
  searchTerm : string;
  (* [_isContactSearching], [_isOpportunitySearching] *)
  _isSearching : bool;
  (* [_contactDebounceTimer], [_opportunityDebounceTimer]: the [value] the
     armed timer will search for, [None] when no timer is armed *)
  _debounceTimer : option string;
  (* [contactSortBy], [opportunitySortBy] *)
  sortBy : option string;
  (* [contactSortDirection], [opportunitySortDirection] *)
  sortDirection : option string;
  (* [_contactsLoading], [_opportunitiesLoading] *)
  _loading : bool;
  (* [event.target.isLoading] of the collection's datatable *)
  datatable_isLoading : bool
}.

(** Field assignment. *)
Definition set__paginated (v : list Row) (c : Collection) : Collection :=
  {| _paginated := v; _search := _search c; totalCount := totalCount c;
     _offset := _offset c;
     enableInfiniteLoading := enableInfiniteLoading c;
     draftValues := draftValues c; error := error c;
     searchTerm := searchTerm c; _isSearching := _isSearching c;
     _debounceTimer := _debounceTimer c; sortBy := sortBy c;
     sortDirection := sortDirection c; _loading := _loading c;
     datatable_isLoading := datatable_isLoading c |}.
Definition set__search (v : list Row) (c : Collection) : Collection :=
  {| _paginated := _paginated c; _search := v; totalCount := totalCount c;
     _offset := _offset c;
     enableInfiniteLoading := enableInfiniteLoading c;
     draftValues := draftValues c; error := error c;
     searchTerm := searchTerm c; _isSearching := _isSearching c;
     _debounceTimer := _debounceTimer c; sortBy := sortBy c;
     sortDirection := sortDirection c; _loading := _loading c;
     datatable_isLoading := datatable_isLoading c |}.
Definition set_totalCount (v : nat) (c : Collection) : Collection :=
  {| _paginated := _paginated c; _search := _search c; totalCount := v;
     _offset := _offset c;
     enableInfiniteLoading := enableInfiniteLoading c;
     draftValues := draftValues c; error := error c;
     searchTerm := searchTerm c; _isSearching := _isSearching c;
     _debounceTimer := _debounceTimer c; sortBy := sortBy c;
     sortDirection := sortDirection c; _loading := _loading c;
     datatable_isLoading := datatable_isLoading c |}.
Definition set__offset (v : nat) (c : Collection) : Collection :=
  {| _paginated := _paginated c; _search := _search c;
     totalCount := totalCount c; _offset := v;
     enableInfiniteLoading := enableInfiniteLoading c;
     draftValues := draftValues c; error := error c;
     searchTerm := searchTerm c; _isSearching := _isSearching c;
     _debounceTimer := _debounceTimer c; sortBy := sortBy c;
     sortDirection := sortDirection c; _loading := _loading c;
     datatable_isLoading := datatable_isLoading c |}.
Definition set_enableInfiniteLoading (v : bool) (c : Collection) : Collection :=
  {| _paginated := _paginated c; _search := _search c;
     totalCount := totalCount c; _offset := _offset c;
     enableInfiniteLoading := v; draftValues := draftValues c;
     error := error c; searchTerm := searchTerm c;
     _isSearching := _isSearching c; _debounceTimer := _debounceTimer c;
     sortBy := sortBy c; sortDirection := sortDirection c;
     _loading := _loading c;
     datatable_isLoading := datatable_isLoading c |}.
Definition set_draftValues (v : list Row) (c : Collection) : Collection :=
  {| _paginated := _paginated c; _search := _search c;
     totalCount := totalCount c; _offset := _offset c;
     enableInfiniteLoading := enableInfiniteLoading c; draftValues := v;
     error := error c; searchTerm := searchTerm c;
     _isSearching := _isSearching c; _debounceTimer := _debounceTimer c;
     sortBy := sortBy c; sortDirection := sortDirection c;
     _loading := _loading c;
     datatable_isLoading := datatable_isLoading c |}.
Definition set_error (v : option JsError) (c : Collection) : Collection :=
  {| _paginated := _paginated c; _search := _search c;
     totalCount := totalCount c; _offset := _offset c;
     enableInfiniteLoading := enableInfiniteLoading c;
     draftValues := draftValues c; error := v; searchTerm := searchTerm c;
     _isSearching := _isSearching c; _debounceTimer := _debounceTimer c;
     sortBy := sortBy c; sortDirection := sortDirection c;
     _loading := _loading c;
     datatable_isLoading := datatable_isLoading c |}.
Definition set_searchTerm (v : string) (c : Collection) : Collection :=
  {| _paginated := _paginated c; _search := _search c;
     totalCount := totalCount c; _offset := _offset c;
     enableInfiniteLoading := enableInfiniteLoading c;
     draftValues := draftValues c; error := error c; searchTerm := v;
     _isSearching := _isSearching c; _debounceTimer := _debounceTimer c;
     sortBy := sortBy c; sortDirection := sortDirection c;
     _loading := _loading c;
     datatable_isLoading := datatable_isLoading c |}.
Definition set__isSearching (v : bool) (c : Collection) : Collection :=
  {| _paginated := _paginated c; _search := _search c;
     totalCount := totalCount c; _offset := _offset c;
     enableInfiniteLoading := enableInfiniteLoading c;
     draftValues := draftValues c; error := error c;
     searchTerm := searchTerm c; _isSearching := v;
     _debounceTimer := _debounceTimer c; sortBy := sortBy c;
     sortDirection := sortDirection c; _loading := _loading c;
     datatable_isLoading := datatable_isLoading c |}.
Definition set__debounceTimer (v : option string) (c : Collection) : Collection :=
  {| _paginated := _paginated c; _search := _search c;
     totalCount := totalCount c; _offset := _offset c;
     enableInfiniteLoading := enableInfiniteLoading c;
     draftValues := draftValues c; error := error c;
     searchTerm := searchTerm c; _isSearching := _isSearching c;
     _debounceTimer := v; sortBy := sortBy c;
     sortDirection := sortDirection c; _loading := _loading c;
     datatable_isLoading := datatable_isLoading c |}.
Definition set_sortBy (v : option string) (c : Collection) : Collection :=
  {| _paginated := _paginated c; _search := _search c;
     totalCount := totalCount c; _offset := _offset c;
     enableInfiniteLoading := enableInfiniteLoading c;
     draftValues := draftValues c; error := error c;
     searchTerm := searchTerm c; _isSearching := _isSearching c;
     _debounceTimer := _debounceTimer c; sortBy := v;
     sortDirection := sortDirection c; _loading := _loading c;
     datatable_isLoading := datatable_isLoading c |}.
Definition set_sortDirection (v : option string) (c : Collection) : Collection :=
  {| _paginated := _paginated c; _search := _search c;
     totalCount := totalCount c; _offset := _offset c;
     enableInfiniteLoading := enableInfiniteLoading c;
     draftValues := draftValues c; error := error c;
     searchTerm := searchTerm c; _isSearching := _isSearching c;
     _debounceTimer := _debounceTimer c; sortBy := sortBy c;
     sortDirection := v; _loading := _loading c;
     datatable_isLoading := datatable_isLoading c |}.
Definition set__loading (v : bool) (c : Collection) : Collection :=
  {| _paginated := _paginated c; _search := _search c;
     totalCount := totalCount c; _offset := _offset c;
     enableInfiniteLoading := enableInfiniteLoading c;
     draftValues := draftValues c; error := error c;
     searchTerm := searchTerm c; _isSearching := _isSearching c;
     _debounceTimer := _debounceTimer c; sortBy := sortBy c;
     sortDirection := sortDirection c; _loading := v;
     datatable_isLoading := datatable_isLoading c |}.
Definition set_datatable_isLoading (v : bool) (c : Collection) : Collection :=
  {| _paginated := _paginated c; _search := _search c;
     totalCount := totalCount c; _offset := _offset c;
     enableInfiniteLoading := enableInfiniteLoading c;
     draftValues := draftValues c; error := error c;
     searchTerm := searchTerm c; _isSearching := _isSearching c;
     _debounceTimer := _debounceTimer c; sortBy := sortBy c;
     sortDirection := sortDirection c; _loading := _loading c;
     datatable_isLoading := v |}.

(** * Promises

    A promise settles once, fulfilled with a value or rejected with a
    reason.  Where several promises are awaited together the time at which
    each settles matters: [Promise.all] rejects with the reason of the
    promise that rejects first. *)

Inductive Settled (A : Type) :=
| Fulfilled (a : A)
| Rejected (e : JsError).
Arguments Fulfilled {A} a.
Arguments Rejected {A} e.

(** A settled promise with the time at which it settled. *)
Abbreviation Timed A := (nat * Settled A)%type.

Definition settled_map {A B} (f : A -> B) (p : Timed A) : Timed B :=
  match p with
  | (t, Fulfilled a) => (t, Fulfilled (f a))
  | (t, Rejected e) => (t, Rejected e)
  end.

(** [Promise.all] of two promises: fulfilled when both are, rejected as
    soon as one is (the first in the array when both reject at once). *)
Definition settle_both {A B} (p : Timed A) (q : Timed B) : Timed (A * B) :=
  match p, q with
  | (t1, Fulfilled a), (t2, Fulfilled b) => (Nat.max t1 t2, Fulfilled (a, b))
  | (t1, Rejected e), (_, Fulfilled _) => (t1, Rejected e)
  | (_, Fulfilled _), (t2, Rejected e) => (t2, Rejected e)
  | (t1, Rejected e1), (t2, Rejected e2) =>
      if (t2 <? t1)%nat then (t2, Rejected e2) else (t1, Rejected e1)
  end.

Fixpoint settle_all {A} (ps : list (Timed A)) : Timed (list A) :=
  match ps with
  | [] => (0%nat, Fulfilled [])
  | p :: ps' => settled_map (fun '(a, l) => a :: l) (settle_both p (settle_all ps'))
  end.

(** [await Promise.all(ps)] *)
Definition Promise_all {A} (ps : list (Timed A)) : Settled (list A) :=
  (settle_all ps).2.

(** [await Promise.all([p, q])] *)
Definition Promise_all2 {A B} (p : Timed A) (q : Timed B) : Settled (A * B) :=
  (settle_both p q).2.

(** [await Promise.all([p1, p2, p3, p4])] *)
Definition Promise_all4 {A B C D} (p1 : Timed A) (p2 : Timed B)
    (p3 : Timed C) (p4 : Timed D) : Settled (A * B * C * D) :=
  (settled_map (fun '(a, (b, (c, d))) => (a, b, c, d))
     (settle_both p1 (settle_both p2 (settle_both p3 p4)))).2.

(** * Pending tasks, responses, effects *)

(** Who awaits [_reloadData]: a save handler or [_deleteRow]. *)
Inductive Caller := BySave | ByDelete.

(** Who called [_executeContactSearch] or [_executeOpportunitySearch]: the
    debounce timer, or a save or delete that re-runs the active search
    and goes on to [_reloadData]. *)
Inductive SearchCaller := ByDebounce | ByMutation (c : Caller).

(** A handler suspended at an [await], with the locals it still needs and
    the arguments of the request it issued. *)
Inductive Task :=
| AwaitInitialData (refreshing : bool)
    (* [_loadInitialData] at its [Promise.all]; [refreshing] when
       [handleRefresh] awaits it *)
| AwaitSearch (k : Kind) (term : string) (by_ : SearchCaller)
    (* [_executeContactSearch] at [searchContacts] *)
| AwaitLoadMore (k : Kind) (offsetVal : nat)
    (* [handleContactLoadMore] at [getRelatedContacts] *)
| AwaitDelete (k : Kind) (row : Row)
    (* [_deleteRow] at [deleteRecord] *)
| AwaitUpdates (k : Kind) (draftValues : list Row)
    (* [handleContactSave] at [Promise.all(updatePromises)] *)
| AwaitNotify (k : Kind) (draftValues : list Row)
    (* [handleContactSave] at [notifyRecordUpdateAvailable] *)
| AwaitReload (k : Kind) (currentCount : nat) (c : Caller).
    (* [_reloadData] at its [Promise.all] *)

(** What an awaited expression settles to. *)
Inductive Response :=
| OfInitialData (contactsResult opportunitiesResult : Timed (list Row))
    (contactCount oppCount : Timed nat)
| OfRows (r : Settled (list Row))
| OfReload (result : Timed (list Row)) (count : Timed nat)
| OfUpdates (rs : list (Timed unit))
| OfVoid (r : Settled unit).

(** What the component sends out. *)
Inductive Output :=
| ShowToast (title message variant : string)
| ConsoleError (message : string) (e : JsError)
| Navigate (recordId : JsVal)
| UncaughtTypeError.

Record State := {
  contact : Collection;
  opportunity : Collection;
  isLoading : bool;
  isSaving : bool;
  activeTab : string;
  pending : list Task;     (* the suspended handlers, oldest first *)
  outputs : list Output    (* toasts, console lines, navigation, in order *)
}.

Definition set_contact (v : Collection) (s : State) : State :=
  {| contact := v; opportunity := opportunity s; isLoading := isLoading s;
     isSaving := isSaving s; activeTab := activeTab s; pending := pending s;
     outputs := outputs s |}.
Definition set_opportunity (v : Collection) (s : State) : State :=
  {| contact := contact s; opportunity := v; isLoading := isLoading s;
     isSaving := isSaving s; activeTab := activeTab s; pending := pending s;
     outputs := outputs s |}.
Definition set_isLoading (v : bool) (s : State) : State :=
  {| contact := contact s; opportunity := opportunity s; isLoading := v;
     isSaving := isSaving s; activeTab := activeTab s; pending := pending s;
     outputs := outputs s |}.
Definition set_isSaving (v : bool) (s : State) : State :=
  {| contact := contact s; opportunity := opportunity s;
     isLoading := isLoading s; isSaving := v; activeTab := activeTab s;
     pending := pending s; outputs := outputs s |}.
Definition set_activeTab (v : string) (s : State) : State :=
  {| contact := contact s; opportunity := opportunity s;
     isLoading := isLoading s; isSaving := isSaving s; activeTab := v;
     pending := pending s; outputs := outputs s |}.
Definition set_pending (v : list Task) (s : State) : State :=
  {| contact := contact s; opportunity := opportunity s;
     isLoading := isLoading s; isSaving := isSaving s;
     activeTab := activeTab s; pending := v; outputs := outputs s |}.
Definition set_outputs (v : list Output) (s : State) : State :=
  {| contact := contact s; opportunity := opportunity s;
     isLoading := isLoading s; isSaving := isSaving s;
     activeTab := activeTab s; pending := pending s; outputs := v |}.

(** The fields of one collection. *)
Definition coll (k : Kind) (s : State) : Collection :=
  match k with Contact => contact s | Opportunity => opportunity s end.

(** [this.<field of k> = ...] *)
Definition upd (k : Kind) (f : Collection -> Collection) (s : State) : State :=
  match k with
  | Contact => set_contact (f (contact s)) s
  | Opportunity => set_opportunity (f (opportunity s)) s
  end.

(** Suspend at an [await]. *)
Definition await (t : Task) (s : State) : State :=
  set_pending (pending s ++ [t]) s.

Definition emit (o : Output) (s : State) : State :=
  set_outputs (outputs s ++ [o]) s.

(** Statements in sequence. *)
Notation "s |> f" := (f s) (at level 45, left associativity, only parsing).

(** The field initialisers of the class. *)
Definition new_Collection : Collection :=
  {| _paginated := []; _search := []; totalCount := 0; _offset := 0;
     enableInfiniteLoading := true; draftValues := []; error := None;
     searchTerm := ""; _isSearching := false; _debounceTimer := None;
     sortBy := None; sortDirection := None; _loading := false;
     datatable_isLoading := false |}.

Definition new_AccountRelatedRecords : State :=
  {| contact := new_Collection; opportunity := new_Collection;
     isLoading := true; isSaving := false; activeTab := "contacts";
     pending := []; outputs := [] |}.

(** * The handlers *)

Definition PAGE_SIZE : nat := 50.
Definition SEARCH_DEBOUNCE_MS : nat := 300.

(** [error.body?.message || fallback] *)
Definition message_or (e : JsError) (fallback : string) : string :=
  match body_message e with
  | Some m => if String.eqb m "" then fallback else m
  | None => fallback
  end.

(** [_isContactSearchActive], [_isOpportunitySearchActive]:
    [term && term.trim().length > 0]. *)
Definition _isSearchActive (k : Kind) (s : State) : bool :=
  let term := searchTerm (coll k s) in
  negb (String.eqb term "") && (0 <? String.length (trim term))%nat.

(** [displayedContacts], [displayedOpportunities] *)
Definition displayed (k : Kind) (s : State) : list Row :=
  if _isSearchActive k s then _search (coll k s) else _paginated (coll k s).

(** [contactInfiniteLoadingEnabled], [opportunityInfiniteLoadingEnabled] *)
Definition infiniteLoadingEnabled (k : Kind) (s : State) : bool :=
  if _isSearchActive k s then false else enableInfiniteLoading (coll k s).

Definition plural (k : Kind) : string :=
  match k with Contact => "contacts" | Opportunity => "opportunities" end.

Section Component.

Variable StringToNumber : string -> JsNumber.
Variable NumberToString : Qc -> string.
Context {engine : SortEngine}.

Abbreviation addUrls := (_addRecordUrls NumberToString).

(** ** Initial load *)

(** [_loadInitialData], up to its [await]: four requests go out together. *)
Definition _loadInitialData (refreshing : bool) (s : State) : State :=
  s |> set_isLoading true |> await (AwaitInitialData refreshing).

(** [_loadInitialData], from its [await] on. *)
Definition _loadInitialData_resume
    (r : Settled (list Row * list Row * nat * nat)) (s : State) : State :=
  (match r with
   | Fulfilled (contactsResult, opportunitiesResult, contactCount, oppCount) =>
       s |> upd Contact (set__paginated (addUrls contactsResult))
         |> upd Opportunity (set__paginated (addUrls opportunitiesResult))
         |> upd Contact (set_totalCount contactCount)
         |> upd Opportunity (set_totalCount oppCount)
         |> upd Contact (set__offset (length contactsResult))
         |> upd Opportunity (set__offset (length opportunitiesResult))
         |> upd Contact
              (set_enableInfiniteLoading (PAGE_SIZE <=? length contactsResult)%nat)
         |> upd Opportunity
              (set_enableInfiniteLoading
                 (PAGE_SIZE <=? length opportunitiesResult)%nat)
         |> upd Contact (set_error None)
         |> upd Opportunity (set_error None)
   | Rejected error =>
       s |> upd Contact (set_error (Some error))
         |> upd Opportunity (set_error (Some error))
   end)
  |> set_isLoading false.

Definition connectedCallback (s : State) : State := _loadInitialData false s.

Definition disconnectedCallback (s : State) : State :=
  s |> upd Contact (set__debounceTimer None)
    |> upd Opportunity (set__debounceTimer None).

(** ** Search *)

(** [_executeContactSearch], [_executeOpportunitySearch], up to the
    [await]. *)
Definition _executeSearch (k : Kind) (term : string) (by_ : SearchCaller)
    (s : State) : State :=
  s |> upd k (set__isSearching true) |> await (AwaitSearch k term by_).

(** [_executeContactSearch], [_executeOpportunitySearch], from the [await]
    on. *)
Definition _executeSearch_resume (k : Kind) (term : string)
    (r : Settled (list Row)) (s : State) : State :=
  (match r with
   | Fulfilled result =>
       if String.eqb (trim (searchTerm (coll k s))) term
       then s |> upd k (set__search (addUrls result))
       else s
   | Rejected error =>
       s |> emit (ConsoleError ("Error searching " +:+ plural k +:+ ":") error)
         |> upd k (set__search [])
   end)
  |> upd k (set__isSearching false).

(** [handleContactSearch], [handleOpportunitySearch] *)
Definition handleSearch (k : Kind) (value : string) (s : State) : State :=
  let s := s |> upd k (set_searchTerm value)
             |> upd k (set__debounceTimer None) in
  if String.eqb value "" || String.eqb (trim value) ""
  then s |> upd k (set__search []) |> upd k (set__isSearching false)
  else s |> upd k (set__debounceTimer (Some value)).

(** The callback given to [setTimeout], run when the timer fires. *)
Definition debounce_fires (k : Kind) (s : State) : State :=
  match _debounceTimer (coll k s) with
  | Some value =>
      s |> upd k (set__debounceTimer None)
        |> _executeSearch k (trim value) ByDebounce
  | None => s
  end.

(** ** Infinite loading *)

(** [handleContactLoadMore], [handleOpportunityLoadMore], up to the
    [await]. *)
Definition handleLoadMore (k : Kind) (s : State) : State :=
  if _isSearchActive k s || _loading (coll k s) then s
  else s |> upd k (set__loading true)
         |> upd k (set_datatable_isLoading true)
         |> await (AwaitLoadMore k (_offset (coll k s))).

(** [handleContactLoadMore], [handleOpportunityLoadMore], from the [await]
    on. *)
Definition handleLoadMore_resume (k : Kind) (r : Settled (list Row))
    (s : State) : State :=
  (match r with
   | Fulfilled result =>
       let newRecords := addUrls result in
       let s := s |> upd k (fun c => set__paginated (_paginated c ++ newRecords) c)
                  |> upd k (fun c => set__offset (_offset c + length result)%nat c) in
       if (length result <? PAGE_SIZE)%nat
       then s |> upd k (set_enableInfiniteLoading false)
       else s
   | Rejected error =>
       s |> emit (ConsoleError ("Error loading more " +:+ plural k +:+ ":") error)
         |> upd k (set_enableInfiniteLoading false)
   end)
  |> upd k (set_datatable_isLoading false)
  |> upd k (set__loading false).

(** ** Reload after a mutation *)

(** What the [catch] of the awaiting handler shows. *)
Definition error_title (k : Kind) (c : Caller) : string :=
  match c, k with
  | BySave, Contact => "Error Updating Contacts"
  | BySave, Opportunity => "Error Updating Opportunities"
  | ByDelete, _ => "Error Deleting Record"
  end.

(** The [catch] and [finally] of [handleContactSave],
    [handleOpportunitySave] and [_deleteRow]. *)
Definition mutation_failed (k : Kind) (c : Caller) (error : JsError)
    (s : State) : State :=
  s |> emit (ShowToast (error_title k c)
               (message_or error "An unexpected error occurred") "error")
    |> set_isSaving false.

(** [_reloadData], up to its [await]. *)
Definition _reloadData (k : Kind) (c : Caller) (s : State) : State :=
  let currentCount := _offset (coll k s) in
  s |> await (AwaitReload k currentCount c).

(** [_reloadData], from its [await] on, and the end of the handler that
    awaits it. *)
Definition _reloadData_resume (k : Kind) (currentCount : nat) (c : Caller)
    (r : Settled (list Row * nat)) (s : State) : State :=
  match r with
  | Fulfilled (result, count) =>
      s |> upd k (set__paginated (addUrls result))
        |> upd k (set_totalCount count)
        |> upd k (set__offset (length result))
        |> upd k (set_enableInfiniteLoading (currentCount <=? length result)%nat)
        |> set_isSaving false
  | Rejected error => mutation_failed k c error s
  end.

(** "Re-run search if active, and reload paginated data + count": the
    tail shared by the save handlers and [_deleteRow]. *)
Definition resync (k : Kind) (c : Caller) (s : State) : State :=
  if _isSearchActive k s
  then _executeSearch k (trim (searchTerm (coll k s))) (ByMutation c) s
  else _reloadData k c s.

(** ** Delete *)

Definition _deleteRow (k : Kind) (row : Row) (s : State) : State :=
  s |> set_isSaving true |> await (AwaitDelete k row).

Definition _deleteRow_resume (k : Kind) (row : Row) (r : Settled unit)
    (s : State) : State :=
  match r with
  | Fulfilled _ =>
      s |> emit (ShowToast "Deleted"
                   (ToString NumberToString
                      (js_or (prop row "Name") (VString "Record"))
                    +:+ " has been deleted") "success")
        |> resync k ByDelete
  | Rejected error => mutation_failed k ByDelete error s
  end.

(** [_handleRowAction] *)
Definition _handleRowAction (k : Kind) (actionName : string) (row : Row)
    (s : State) : State :=
  if String.eqb actionName "view" then s |> emit (Navigate (prop row "Id"))
  else if String.eqb actionName "delete" then _deleteRow k row s
  else s.

(** ** Save *)

(** [handleContactSave], [handleOpportunitySave], up to
    [await Promise.all(updatePromises)]: one [updateRecord] per draft. *)
Definition handleSave (k : Kind) (draftValues : list Row) (s : State) : State :=
  s |> set_isSaving true |> await (AwaitUpdates k draftValues).

(** ... from there to [await notifyRecordUpdateAvailable(recordIds)]. *)
Definition handleSave_updated (k : Kind) (draftValues : list Row)
    (r : Settled (list unit)) (s : State) : State :=
  match r with
  | Fulfilled _ => s |> await (AwaitNotify k draftValues)
  | Rejected error => mutation_failed k BySave error s
  end.

Definition updated_message (k : Kind) (n : nat) : string :=
  pretty n +:+
  match k with
  | Contact => " contact(s) updated successfully"
  | Opportunity => " opportunity(ies) updated successfully"
  end.

(** ... and from there on. *)
Definition handleSave_notified (k : Kind) (draftValues : list Row)
    (r : Settled unit) (s : State) : State :=
  match r with
  | Fulfilled _ =>
      s |> emit (ShowToast "Success"
                   (updated_message k (length draftValues)) "success")
        |> upd k (set_draftValues [])
        |> resync k BySave
  | Rejected error => mutation_failed k BySave error s
  end.

(** [handleContactCancel], [handleOpportunityCancel] *)
Definition handleCancel (k : Kind) (s : State) : State :=
  s |> upd k (set_draftValues []).

(** ** Sort *)

(** [handleContactSort], [handleOpportunitySort].  A TypeError raised by
    the comparator leaves the handler before the assignment. *)
Definition handleSort (k : Kind) (fieldName sortDirection : string)
    (s : State) : State :=
  let s := s |> upd k (set_sortBy (Some fieldName))
             |> upd k (set_sortDirection (Some sortDirection)) in
  let sortField := if String.eqb fieldName "recordUrl" then "Name" else fieldName in
  if _isSearchActive k s then
    match _sortData StringToNumber (_search (coll k s)) sortField sortDirection with
    | Some sorted => s |> upd k (set__search sorted)
    | None => s |> emit UncaughtTypeError
    end
  else
    match _sortData StringToNumber (_paginated (coll k s)) sortField sortDirection with
    | Some sorted => s |> upd k (set__paginated sorted)
    | None => s |> emit UncaughtTypeError
    end.

(** ** Refresh *)

(** [handleRefresh], up to [await this._loadInitialData()]. *)
Definition handleRefresh (s : State) : State :=
  s |> set_isLoading true
    |> upd Contact (set__paginated [])
    |> upd Opportunity (set__paginated [])
    |> upd Contact (set__search [])
    |> upd Opportunity (set__search [])
    |> upd Contact (set__offset 0)
    |> upd Opportunity (set__offset 0)
    |> upd Contact (set_enableInfiniteLoading true)
    |> upd Opportunity (set_enableInfiniteLoading true)
    |> upd Contact (set_searchTerm "")
    |> upd Opportunity (set_searchTerm "")
    |> _loadInitialData true.

(** [handleRefresh], from there on; [_loadInitialData] catches its own
    failures, so the [catch] of [handleRefresh] is never entered. *)
Definition handleRefresh_resume (s : State) : State :=
  s |> emit (ShowToast "Refreshed" "Data has been refreshed" "success")
    |> set_isLoading false.

Definition handleTabClick (tab : string) (s : State) : State :=
  s |> set_activeTab tab.

(** * Events and the step function *)

Inductive Event :=
| Connected                                   (* [connectedCallback] *)
| Disconnected                                (* [disconnectedCallback] *)
| SearchInput (k : Kind) (value : string)     (* a keystroke in the search box *)
| DebounceFires (k : Kind)                    (* the armed timer runs out *)
| LoadMore (k : Kind)                         (* the datatable's [loadmore] *)
| RowAction (k : Kind) (actionName : string) (row : Row)
| CellEdit (k : Kind) (draft : Row)           (* an inline edit in the datatable *)
| Save (k : Kind)                             (* the datatable's [save] *)
| Cancel (k : Kind)                           (* the datatable's [cancel] *)
| Sort (k : Kind) (fieldName sortDirection : string)
| Refresh
| TabClick (tab : string)
| Settles (i : nat) (r : Response).           (* the promise awaited by task [i] settles *)

(** Modelled from the spec: the datatable that holds the draft edits is
    not part of the component's source.  "DraftEdits: a transient ordered
    sequence of partial-row edits pending commit": an inline edit adds one
    draft, and [save] hands the pending drafts to the handler. *)
Definition cell_edited (k : Kind) (draft : Row) (s : State) : State :=
  s |> upd k (fun c => set_draftValues (draftValues c ++ [draft]) c).

(** Resume task [t] with the response [r]; [None] when [r] is not what
    [t] awaits. *)
Definition resume (t : Task) (r : Response) (s : State) : option State :=
  match t, r with
  | AwaitInitialData refreshing,
    OfInitialData contactsResult opportunitiesResult contactCount oppCount =>
      let s := _loadInitialData_resume
                 (Promise_all4 contactsResult opportunitiesResult
                    contactCount oppCount) s in
      Some (if refreshing then handleRefresh_resume s else s)
  | AwaitSearch k term by_, OfRows r =>
      let s := _executeSearch_resume k term r s in
      Some (match by_ with
            | ByDebounce => s
            | ByMutation c => _reloadData k c s
            end)
  | AwaitLoadMore k _, OfRows r => Some (handleLoadMore_resume k r s)
  | AwaitDelete k row, OfVoid r => Some (_deleteRow_resume k row r s)
  | AwaitUpdates k draftValues, OfUpdates rs =>
      if decide (length rs = length draftValues)
      then Some (handleSave_updated k draftValues (Promise_all rs) s)
      else None
  | AwaitNotify k draftValues, OfVoid r =>
      Some (handleSave_notified k draftValues r s)
  | AwaitReload k currentCount c, OfReload result count =>
      Some (_reloadData_resume k currentCount c (Promise_all2 result count) s)
  | _, _ => None
  end.

(** One turn of the event loop.  A handler runs from an event or a
    settled promise to its next [await] without interruption. *)
Definition step (s : State) (e : Event) : State :=
  match e with
  | Connected => connectedCallback s
  | Disconnected => disconnectedCallback s
  | SearchInput k value => handleSearch k value s
  | DebounceFires k => debounce_fires k s
  | LoadMore k => handleLoadMore k s
  | RowAction k actionName row => _handleRowAction k actionName row s
  | CellEdit k draft => cell_edited k draft s
  | Save k => handleSave k (draftValues (coll k s)) s
  | Cancel k => handleCancel k s
  | Sort k fieldName sortDirection => handleSort k fieldName sortDirection s
  | Refresh => handleRefresh s
  | TabClick tab => handleTabClick tab s
  | Settles i r =>
      match pending s !! i with
      | Some t => default s (resume t r (set_pending (delete i (pending s)) s))
      | None => s
      end
  end.

Definition run (s : State) (es : list Event) : State := foldl step s es.

(** The states the component can be in. *)
Definition reachable (s : State) : Prop :=
  exists es, s = run new_AccountRelatedRecords es.

(** The source's handler names. *)
Definition handleContactSearch := handleSearch Contact.
Definition handleOpportunitySearch := handleSearch Opportunity.
Definition _executeContactSearch := _executeSearch Contact.
Definition _executeOpportunitySearch := _executeSearch Opportunity.
Definition handleContactLoadMore := handleLoadMore Contact.
Definition handleOpportunityLoadMore := handleLoadMore Opportunity.
Definition handleContactSave := handleSave Contact.
Definition handleOpportunitySave := handleSave Opportunity.
Definition handleContactSort := handleSort Contact.
Definition handleOpportunitySort := handleSort Opportunity.
Definition handleContactRowAction := _handleRowAction Contact.
Definition handleOpportunityRowAction := _handleRowAction Opportunity.
Definition handleContactCancel := handleCancel Contact.
Definition handleOpportunityCancel := handleCancel Opportunity.
Definition displayedContacts := displayed Contact.
Definition displayedOpportunities := displayed Opportunity.


(** * The gateway *)

(** Modelled from the spec: the Apex controller behind [getRelatedContacts],
    [getRelatedOpportunities], [getContactCount] and [getOpportunityCount]
    is not part of the component's source.  "fetchPage(parentId, pageSize,
    offset) -> rows[], ordered by server-defined default sort; fewer than
    pageSize rows signals end-of-data" and "fetchCount(parentId) ->
    integer, exact total": a window of the server's ordered rows, and
    their number. *)
Definition fetchPage (table : list Row) (pageSize offsetVal : nat) : list Row :=
  take pageSize (drop offsetVal table).

Definition fetchCount (table : list Row) : nat := length table.

(** Modelled from the spec: the server side of the gateway, reduced to
    the rows it holds for the account, in its default order. *)
Record Gateway := { contacts : list Row; opportunities : list Row }.

Definition table (g : Gateway) (k : Kind) : list Row :=
  match k with Contact => contacts g | Opportunity => opportunities g end.

(** The gateway's answer to the requests of a fetching task, from the
    arguments the task sent. *)
Definition answer (g : Gateway) (t : Task) : option Response :=
  match t with
  | AwaitInitialData _ =>
      Some (OfInitialData
              (0%nat, Fulfilled (fetchPage (contacts g) PAGE_SIZE 0))
              (0%nat, Fulfilled (fetchPage (opportunities g) PAGE_SIZE 0))
              (0%nat, Fulfilled (fetchCount (contacts g)))
              (0%nat, Fulfilled (fetchCount (opportunities g))))
  | AwaitLoadMore k offsetVal =>
      Some (OfRows (Fulfilled (fetchPage (table g k) PAGE_SIZE offsetVal)))
  | AwaitReload k currentCount _ =>
      Some (OfReload (0%nat, Fulfilled (fetchPage (table g k) currentCount 0))
                     (0%nat, Fulfilled (fetchCount (table g k))))
  | _ => None
  end.

(** The gateway answers pending task [i]. *)
Definition answered (g : Gateway) (i : nat) (s : State) : State :=
  match pending s !! i ≫= answer g with
  | Some r => step s (Settles i r)
  | None => s
  end.

(** * What the properties speak of *)

(** The paginated side of a collection that the page shows: rows, total
    count, offset and the infinite-loading flag. *)
Definition pagination (c : Collection) : list Row * nat * nat * bool :=
  (_paginated c, totalCount c, _offset c, enableInfiniteLoading c).

(** The reason of a rejected promise. *)
Definition rejection {A} (p : Timed A) : option JsError :=
  match p.2 with Rejected e => Some e | Fulfilled _ => None end.

(** The offset is the number of paginated rows held. *)
Definition offset_counts_rows (s : State) : Prop :=
  forall k, _offset (coll k s) = length (_paginated (coll k s)).

(** The suspended load-more handlers of a collection. *)
Definition is_load_more (k : Kind) (t : Task) : bool :=
  match t with
  | AwaitLoadMore k' _ => bool_decide (k' = k)
  | _ => false
  end.

Definition loads_in_flight (k : Kind) (s : State) : nat :=
  length (filter (fun t => is_load_more k t = true) (pending s)).

(** The flag [_contactsLoading] (or [_opportunitiesLoading]) is set exactly
    while a load-more of the collection is suspended, and there is never
    more than one. *)
Definition flag_guards_load_more (s : State) : Prop :=
  forall k, loads_in_flight k s = if _loading (coll k s) then 1%nat else 0%nat.

(** The events of a search: keystrokes, the debounce timer, and the
    responses to the searches that the timer started. *)
Definition search_event (s : State) (e : Event) : bool :=
  match e with
  | SearchInput _ _ | DebounceFires _ => true
  | Settles i (OfRows _) =>
      match pending s !! i with
      | Some (AwaitSearch _ _ ByDebounce) => true
      | _ => false
      end
  | _ => false
  end.

Fixpoint search_events (s : State) (es : list Event) : bool :=
  match es with
  | [] => true
  | e :: es' => search_event s e && search_events (step s e) es'
  end.

(** The steps that re-derive the infinite-loading flag of collection [k]:
    a refresh, and the completion of an initial load or of the reload
    that follows a save or a delete. *)
Definition rederives_flag (k : Kind) (s : State) (e : Event) : bool :=
  match e with
  | Refresh => true
  | Settles i (OfInitialData _ _ _ _) =>
      match pending s !! i with
      | Some (AwaitInitialData _) => true
      | _ => false
      end
  | Settles i (OfReload _ _) =>
      match pending s !! i with
      | Some (AwaitReload k' _ _) => bool_decide (k' = k)
      | _ => false
      end
  | _ => false
  end.


(** * The order the comparator sorts by *)

(** What the comparator compares for a row: the field, with the empty
    string for a falsy value, in lower case when it is a string. *)
Inductive SortKey :=
| KText (s : string)
| KNumber (q : Qc).

#[global] Instance SortKey_eq_dec : EqDecision SortKey.
Proof. solve_decision. Defined.

Definition sort_key (fieldName : string) (a : Row) : SortKey :=
  match js_or (prop a fieldName) (VString "") with
  | VString s => KText (toLowerCase s)
  | VNumber q => KNumber q
  | VBool b => KNumber (if b then 1%Qc else 0%Qc)
  | VUndefined | VNull => KText ""
  end.

(** Strings by code units, numbers by value. *)
Definition key_le (k1 k2 : SortKey) : Prop :=
  match k1, k2 with
  | KText s1, KText s2 => String.leb s1 s2 = true
  | KNumber p, KNumber q => (p <= q)%Qc
  | KText _, KNumber _ => True
  | KNumber _, KText _ => False
  end.

(** A text field: a string, or missing, [null] or otherwise falsy. *)
Definition text_value (v : JsVal) : bool :=
  match js_or v (VString "") with VString _ => true | _ => false end.

(** A number other than 0. *)
Definition number_value (v : JsVal) : bool :=
  match v with VNumber _ => ToBoolean v | _ => false end.

(** The rows hold text in the field, or they all hold a non-zero number. *)
Definition sortable_column (fieldName : string) (rows : list Row) : bool :=
  forallb (fun a => text_value (prop a fieldName)) rows
  || forallb (fun a => number_value (prop a fieldName)) rows.

(** Rows with equal keys are in [sorted] in the order they have in [rows]. *)
Definition keeps_order (fieldName : string) (rows sorted : list Row) : Prop :=
  forall k,
    filter (fun a => sort_key fieldName a = k) sorted
    = filter (fun a => sort_key fieldName a = k) rows.

(** * The getters of the template *)

(** [contactCount], [opportunityCount]: [displayed?.length || 0]. *)
Definition recordCount (k : Kind) (s : State) : nat := length (displayed k s).

(** [hasContacts], [hasOpportunities] *)
Definition hasRecords (k : Kind) (s : State) : bool :=
  (0 <? length (displayed k s))%nat.

(** [hasContactError], [hasOpportunityError]: [!!this.contactError]. *)
Definition hasError (k : Kind) (s : State) : bool :=
  match error (coll k s) with Some _ => true | None => false end.

(** [showContactEmptyState], [showOpportunityEmptyState] *)
Definition showEmptyState (k : Kind) (s : State) : bool :=
  negb (hasRecords k s) && negb (hasError k s) && negb (_isSearching (coll k s)).

Definition unknown_error (k : Kind) : string :=
  "Unknown error loading " +:+ plural k.

(** [contactErrorMessage], [opportunityErrorMessage]:
    [this.contactError?.body?.message || "Unknown error loading contacts"]. *)
Definition errorMessage (k : Kind) (s : State) : string :=
  match error (coll k s) with
  | Some e => message_or e (unknown_error k)
  | None => unknown_error k
  end.

(** [contactBadge], [opportunityBadge] *)
Definition badge (k : Kind) (s : State) : string := pretty (totalCount (coll k s)).

(** [isContactsTab], [isOpportunitiesTab] *)
Definition isTab (k : Kind) (s : State) : bool := String.eqb (activeTab s) (plural k).

(** [contactTabClass], [opportunityTabClass] *)
Definition tabClass (k : Kind) (s : State) : string :=
  "tab-button " +:+ (if isTab k s then "active" else "").

(** * More of what the properties speak of *)

(** A value the search handler treats as cleared: [!value || !value.trim()]. *)
Definition blank (value : string) : bool :=
  String.eqb value "" || String.eqb (trim value) "".

(** Keystrokes in the search box of a collection, one after the other. *)
Definition keystrokes (k : Kind) (values : list string) : list Event :=
  SearchInput k <$> values.

(** The step completes an initial load. *)
Definition completes_initial_load (s : State) (e : Event) : bool :=
  match e with
  | Settles i (OfInitialData _ _ _ _) =>
      match pending s !! i with
      | Some (AwaitInitialData _) => true
      | _ => false
      end
  | _ => false
  end.

(** The step completes the reload of collection [k]. *)
Definition completes_reload (k : Kind) (s : State) (e : Event) : bool :=
  match e with
  | Settles i (OfReload _ _) =>
      match pending s !! i with
      | Some (AwaitReload k' _ _) => bool_decide (k' = k)
      | _ => false
      end
  | _ => false
  end.

(** The collection a task works for; the initial load works for both. *)
Definition task_kind (t : Task) : option Kind :=
  match t with
  | AwaitInitialData _ => None
  | AwaitSearch k _ _ | AwaitLoadMore k _ | AwaitDelete k _
  | AwaitUpdates k _ | AwaitNotify k _ | AwaitReload k _ _ => Some k
  end.

(** The collection an event belongs to, when it belongs to one. *)
Definition event_kind (s : State) (e : Event) : option Kind :=
  match e with
  | SearchInput k _ | DebounceFires k | LoadMore k | RowAction k _ _
  | CellEdit k _ | Save k | Cancel k | Sort k _ _ => Some k
  | Settles i _ => pending s !! i ≫= task_kind
  | Connected | Disconnected | Refresh | TabClick _ => None
  end.

(** The tasks of a save or a delete. *)
Definition is_mutation_task (t : Task) : bool :=
  match t with
  | AwaitDelete _ _ | AwaitUpdates _ _ | AwaitNotify _ _ | AwaitReload _ _ _
  | AwaitSearch _ _ (ByMutation _) => true
  | _ => false
  end.

(** The searches of collection [k]. *)
Definition is_search (k : Kind) (t : Task) : bool :=
  match t with
  | AwaitSearch k' _ _ => bool_decide (k' = k)
  | _ => false
  end.

(** The row carries the link that [_addRecordUrls] derives from its Id. *)
Definition linked (a : Row) : Prop :=
  a !! "recordUrl" = Some (VString ("/" +:+ ToString NumberToString (prop a "Id"))).

(** Every row held, paginated or searched, is linked. *)
Definition rows_linked (s : State) : Prop :=
  forall k, Forall linked (_paginated (coll k s)) /\ Forall linked (_search (coll k s)).

(** The searches in flight are for terms that are trimmed and not empty,
    and so is what an armed timer will search for. *)
Definition searches_are_for_terms (s : State) : Prop :=
  (forall k term by_,
      AwaitSearch k term by_ ∈ pending s -> term <> "" /\ trim term = term) /\
  (forall k value, _debounceTimer (coll k s) = Some value -> trim value <> "").

(** No search rows are held for a blank search box. *)
Definition blank_holds_no_rows (s : State) : Prop :=
  forall k, trim (searchTerm (coll k s)) = "" -> _search (coll k s) = [].

(** The component connects and loads the first page from the gateway,
    then asks for [m] more pages of collection [k], each answered before
    the next is asked for. *)
Definition paged (g : Gateway) (k : Kind) (m : nat) : State :=
  Nat.iter m (fun s => answered g 0 (step s (LoadMore k)))
    (answered g 0 (step new_AccountRelatedRecords Connected)).

(** * Sample data *)

Definition record (id name : string) : Row :=
  <["Id" := VString id]> (<["Name" := VString name]> ∅).

(** [n] records, numbered from [from]. *)
Definition records (from n : nat) : list Row :=
  (fun i => record (pretty i) ("Contact " +:+ pretty i)) <$> seq from n.

Definition network_error : JsError := {| body_message := Some "Network error" |}.

(** An initial load that brings a full page of contacts and three
    opportunities. *)
Definition first_pages : Response :=
  OfInitialData (0%nat, Fulfilled (records 0 50)) (1%nat, Fulfilled (records 500 3))
                (2%nat, Fulfilled 120%nat) (3%nat, Fulfilled 3%nat).

(** "a" is typed and searched for, then "ab"; the answer to "ab" comes
    first. *)
Definition a_then_ab : list Event :=
  [SearchInput Contact "a"; DebounceFires Contact;
   SearchInput Contact "ab"; DebounceFires Contact;
   Settles 1 (OfRows (Fulfilled [record "003B" "Abby"]))].

(** A load-more that fails after the first page. *)
Definition load_more_fails : list Event :=
  [Connected; Settles 0 first_pages;
   LoadMore Contact; Settles 0 (OfRows (Rejected network_error))].

(** A row is then deleted, and the reload brings a full window again.
    There is no refresh among these events. *)
Definition delete_and_reload : list Event :=
  [RowAction Contact "delete" (record "7" "Contact 7");
   Settles 0 (OfVoid (Fulfilled ()));
   Settles 0 (OfReload (0%nat, Fulfilled (records 0 7 ++ records 8 43))
                       (0%nat, Fulfilled 119%nat))].

Definition is_refresh (e : Event) : bool :=
  match e with Refresh => true | _ => false end.

(** Two contacts of the same name. *)
Definition two_anns : list Row := [record "1" "Ann"; record "2" "Ann"].

(** Contacts whose names differ in case, repeat, or are missing. *)
Definition mixed_names : list Row :=
  [record "1" "bob"; record "2" "Al"; record "3" "al";
   <["Id" := VString "4"]> ∅; record "5" "Cy"].

(** Opportunities by amount: none, 0, and 100. *)
Definition no_amount : Row := <["Id" := VString "006A"]> ∅.
Definition amount (z : Z) : Row :=
  <["Id" := VString "006B"]> (<["Amount" := VNumber (Qc_of_Z z)]> ∅).

(** * Properties *)

(** ** [Array.prototype.sort] *)

Section SortFacts.

Context {A : Type} (comparefn : A -> A -> option Z).

Lemma Array_sort_Permutation l l' :
  Array_sort comparefn l = Some l' -> l' ≡ₚ l.
Proof. apply Array_sort_permutes. Qed.

Lemma Array_sort_length l l' :
  Array_sort comparefn l = Some l' -> length l' = length l.
Proof. intros H. by rewrite (Array_sort_Permutation _ _ H). Qed.

(** The comparator orders the elements that satisfy [P] by a key. *)
Context {K : Type} `{!EqDecision K} (key : A -> K) (kle : relation K).
Context `{!PreOrder kle, !Total kle}.
Context (P : A -> Prop).

Hypothesis Hcmp : orders_by_key comparefn key kle P.

Local Abbreviation by_key := (by_key key kle).

Lemma Array_sort_sorted l :
  Forall P l ->
  exists l', Array_sort comparefn l = Some l' /\
    l' ≡ₚ l /\ StronglySorted by_key l' /\
    forall k, filter (fun y => key y = k) l' = filter (fun y => key y = k) l.
Proof.
  intros Hl.
  destruct (Array_sort_orders A K _ comparefn key kle P _ _ Hcmp l Hl)
    as (l' & E & Hs & Hst).
  exists l'. split; [done|]. split; [|done].
  by apply Array_sort_Permutation.
Qed.

End SortFacts.

Lemma fmap_eq_Permutation_eq {A B} (f : A -> B) (l1 l2 : list A) :
  l1 ≡ₚ l2 -> f <$> l1 = f <$> l2 -> NoDup (f <$> l1) -> l1 = l2.
Proof.
  revert l2. induction l1 as [|x l1 IH]; intros [|y l2] Hp Hf Hn;
    simplify_eq/=; [done|].
  apply NoDup_cons in Hn as [Hx Hn].
  assert (y = x) as ->.
  { assert (y ∈ x :: l1) as Hy by (rewrite Hp; left).
    apply elem_of_cons in Hy as [?|Hy]; [done|].
    destruct Hx. replace (f x) with (f y) by done.
    by apply list_elem_of_fmap_2. }
  f_equal. apply IH; [|done..]. by apply (inj (x ::.)).
Qed.

Section Mirror.

Context {A K : Type} `{!EqDecision K} (asc desc : A -> A -> option Z).
Context (key : A -> K) (kle : relation K).
Context `{!PreOrder kle, !Total kle, !AntiSymm (=) kle}.
Context (P : A -> Prop).

Hypothesis Hasc : orders_by_key asc key kle P.
Hypothesis Hdesc : orders_by_key desc key (flip kle) P.

Local Instance flip_total : Total (flip kle).
Proof. intros x y. destruct (total kle x y); [by right|by left]. Qed.

Local Instance flip_antisymm : AntiSymm (=) (flip kle).
Proof. intros x y ??. by apply (anti_symm kle). Qed.

Lemma Array_sort_asc_desc l :
  Forall P l ->
  exists la ld,
    Array_sort asc l = Some la /\ Array_sort desc la = Some ld /\
    la ≡ₚ l /\ ld ≡ₚ l /\
    StronglySorted (by_key key kle) la /\
    StronglySorted (by_key key (flip kle)) ld /\
    (forall k, filter (fun y => key y = k) la = filter (fun y => key y = k) l) /\
    (forall k, filter (fun y => key y = k) ld = filter (fun y => key y = k) l) /\
    key <$> ld = reverse (key <$> la) /\
    (NoDup (key <$> l) -> ld = reverse la).
Proof.
  intros Hl.
  destruct (Array_sort_sorted asc key kle P Hasc l Hl)
    as (la & Ea & Hpa & Hsa & Hsta).
  assert (Forall P la) as Hla by (by rewrite Hpa).
  destruct (Array_sort_sorted desc key (flip kle) P Hdesc la Hla)
    as (ld & Ed & Hpd & Hsd & Hstd).
  assert (key <$> ld = reverse (key <$> la)) as Hkeys.
  { apply (Sorted_unique (flip kle)).
    - apply StronglySorted_Sorted.
      by apply (StronglySorted_fmap key (by_key key (flip kle))).
    - apply Sorted_reverse, StronglySorted_Sorted.
      by apply (StronglySorted_fmap key (by_key key kle)).
    - by rewrite reverse_Permutation, Hpd. }
  exists la, ld. repeat split; try done.
  - by rewrite Hpd.
  - intros k. by rewrite Hstd.
  - intros Hn. apply (fmap_eq_Permutation_eq key).
    + by rewrite reverse_Permutation.
    + by rewrite fmap_reverse.
    + by rewrite Hpd, Hpa.
Qed.

End Mirror.

(** ** The key order *)

Lemma ascii_compare_refl c : Ascii.compare c c = Eq.
Proof. unfold Ascii.compare. apply N.compare_refl. Qed.

Lemma ascii_compare_Lt_trans a b c :
  Ascii.compare a b = Lt -> Ascii.compare b c = Lt -> Ascii.compare a c = Lt.
Proof. unfold Ascii.compare. rewrite !N.compare_lt_iff. lia. Qed.

Lemma string_compare_refl s : String.compare s s = Eq.
Proof. induction s; simpl; [done|]. by rewrite ascii_compare_refl. Qed.

Lemma string_compare_Lt_trans s1 s2 s3 :
  String.compare s1 s2 = Lt -> String.compare s2 s3 = Lt ->
  String.compare s1 s3 = Lt.
Proof.
  revert s2 s3. induction s1 as [|a s1 IH]; intros [|b s2] [|c s3]; simpl;
    try done.
  destruct (Ascii.compare a b) eqn:Eab; [|intros _|done].
  - apply Ascii.compare_eq_iff in Eab as ->.
    destruct (Ascii.compare b c); [apply IH|done|done].
  - destruct (Ascii.compare b c) eqn:Ebc; [|intros _|done].
    + apply Ascii.compare_eq_iff in Ebc as <-. by rewrite Eab.
    + by rewrite (ascii_compare_Lt_trans _ _ _ Eab Ebc).
Qed.

Lemma string_leb_refl s : String.leb s s = true.
Proof. unfold String.leb. by rewrite string_compare_refl. Qed.

Lemma string_leb_trans s1 s2 s3 :
  String.leb s1 s2 = true -> String.leb s2 s3 = true -> String.leb s1 s3 = true.
Proof.
  unfold String.leb.
  destruct (String.compare s1 s2) eqn:E12; [|intros _|done].
  - by apply String.compare_eq_iff in E12 as ->.
  - destruct (String.compare s2 s3) eqn:E23; [|intros _|done].
    + apply String.compare_eq_iff in E23 as <-. by rewrite E12.
    + by rewrite (string_compare_Lt_trans _ _ _ E12 E23).
Qed.

Lemma string_ltb_leb s1 s2 : String.ltb s1 s2 = negb (String.leb s2 s1).
Proof.
  unfold String.ltb, String.leb. rewrite (String.compare_antisym s2 s1).
  by destruct (String.compare s1 s2).
Qed.

#[global] Instance key_le_preorder : PreOrder key_le.
Proof.
  split.
  - intros [s|q]; simpl; [apply string_leb_refl|apply Qcle_refl].
  - intros [s1|q1] [s2|q2] [s3|q3]; simpl; try done.
    + apply string_leb_trans.
    + apply Qcle_trans.
Qed.

#[global] Instance key_le_total : Total key_le.
Proof.
  intros [s1|q1] [s2|q2]; simpl; auto.
  - apply String.leb_total.
  - apply (total Qcle).
Qed.

#[global] Instance key_le_antisymm : AntiSymm (=) key_le.
Proof.
  intros [s1|q1] [s2|q2]; simpl; try done.
  - intros ??. f_equal. by apply String.leb_antisym.
  - intros ??. f_equal. by apply Qcle_antisym.
Qed.

(** ** The comparator *)

Lemma text_value_sort_key f a :
  text_value (prop a f) = true ->
  exists s, js_or (prop a f) (VString "") = VString s /\
            sort_key f a = KText (toLowerCase s).
Proof.
  unfold text_value, sort_key.
  destruct (js_or (prop a f) (VString "")); try done. eauto.
Qed.

Lemma js_or_string_empty s :
  js_or (VString s) (VString "") = VString s.
Proof.
  unfold js_or; simpl. destruct (String.eqb_spec s ""); by subst.
Qed.

(** On text the comparator is the order of the lower-cased strings. *)
Lemma comparator_text f dir a b sa sb :
  js_or (prop a f) (VString "") = VString sa ->
  js_or (prop b f) (VString "") = VString sb ->
  comparator StringToNumber f dir a b =
    Some (let isReverse := if String.eqb dir "desc" then -1 else 1 in
          if String.ltb (toLowerCase sb) (toLowerCase sa) then isReverse
          else if String.ltb (toLowerCase sa) (toLowerCase sb) then - isReverse
          else 0).
Proof.
  intros Ha Hb. unfold comparator. rewrite Ha, Hb, js_or_string_empty. simpl.
  unfold js_gt, js_lt.
  by repeat case_match.
Qed.

Lemma number_value_inv v :
  number_value v = true -> exists q, v = VNumber q /\ js_or v (VString "") = v.
Proof.
  destruct v; try done. intros H. eexists; split; [done|].
  unfold js_or. unfold number_value in H. by rewrite H.
Qed.

(** On non-zero numbers it is the order of the numbers. *)
Lemma comparator_number f dir a b p q :
  js_or (prop a f) (VString "") = VNumber p ->
  js_or (prop b f) (VString "") = VNumber q ->
  comparator StringToNumber f dir a b =
    Some (let isReverse := if String.eqb dir "desc" then -1 else 1 in
          match (p ?= q)%Qc with
          | Gt => isReverse
          | Lt => - isReverse
          | Eq => 0
          end).
Proof.
  intros Ha Hb. unfold comparator. rewrite Ha, Hb. simpl.
  unfold js_gt, js_lt; simpl.
  unfold Qccompare. rewrite <-(Qcompare_antisym p q).
  by destruct (p ?= q)%Q.
Qed.

Lemma comparator_orders_text f :
  orders_by_key (comparator StringToNumber f "asc") (sort_key f) key_le
    (fun a => text_value (prop a f) = true) /\
  orders_by_key (comparator StringToNumber f "desc") (sort_key f) (flip key_le)
    (fun a => text_value (prop a f) = true).
Proof.
  split; intros a b Ha Hb;
    destruct (text_value_sort_key _ _ Ha) as (sa & Ea & ->);
    destruct (text_value_sort_key _ _ Hb) as (sb & Eb & ->);
    rewrite (comparator_text _ _ _ _ _ _ Ea Eb); eexists; (split; [done|]);
    simpl; rewrite !string_ltb_leb;
    unfold flip;
    destruct (String.leb_total (toLowerCase sa) (toLowerCase sb)) as [H|H];
    destruct (String.leb (toLowerCase sa) (toLowerCase sb)) eqn:H1;
    destruct (String.leb (toLowerCase sb) (toLowerCase sa)) eqn:H2;
    simpl; split; intros; done || lia.
Qed.

Lemma comparator_orders_number f :
  orders_by_key (comparator StringToNumber f "asc") (sort_key f) key_le
    (fun a => number_value (prop a f) = true) /\
  orders_by_key (comparator StringToNumber f "desc") (sort_key f) (flip key_le)
    (fun a => number_value (prop a f) = true).
Proof.
  split; intros a b Ha Hb;
    destruct (number_value_inv _ Ha) as (p & Ea & Ea');
    destruct (number_value_inv _ Hb) as (q & Eb & Eb');
    rewrite Ea in Ea'; rewrite Eb in Eb'; rewrite <-Ea in Ea' at 1;
    rewrite <-Eb in Eb' at 1;
    rewrite (comparator_number _ _ _ _ _ _ Ea' Eb'); eexists; (split; [done|]);
    unfold sort_key; rewrite Ea', Eb'; simpl; unfold flip; simpl;
    rewrite !Qcle_alt; unfold Qccompare;
    rewrite <-!(Qcompare_antisym p q);
    destruct (p ?= q)%Q; simpl; (split; split; intros; done || lia).
Qed.

(** ** Sorting ascending, then descending *)

Lemma sortData_asc_desc f rows :
  sortable_column f rows = true ->
  exists asc desc,
    _sortData StringToNumber rows f "asc" = Some asc /\
    _sortData StringToNumber asc f "desc" = Some desc /\
    asc ≡ₚ rows /\ desc ≡ₚ rows /\
    StronglySorted (by_key (sort_key f) key_le) asc /\
    StronglySorted (by_key (sort_key f) (flip key_le)) desc /\
    keeps_order f rows asc /\ keeps_order f rows desc /\
    sort_key f <$> desc = reverse (sort_key f <$> asc) /\
    (NoDup (sort_key f <$> rows) -> desc = reverse asc).
Proof.
  unfold sortable_column, _sortData, keeps_order. intros H.
  apply orb_true_iff in H as [H|H]; apply Is_true_true, forallb_True in H;
    (eapply Forall_impl in H; [|intros a Ha; apply Is_true_true in Ha; exact Ha]).
  - destruct (comparator_orders_text f) as [Ha Hd].
    apply (Array_sort_asc_desc _ _ (sort_key f) key_le _ Ha Hd rows H).
  - destruct (comparator_orders_number f) as [Ha Hd].
    apply (Array_sort_asc_desc _ _ (sort_key f) key_le _ Ha Hd rows H).
Qed.

(** Strings that differ in letter case only compare equal. *)
Lemma comparator_case_insensitive f dir a b sa sb :
  prop a f = VString sa -> prop b f = VString sb ->
  toLowerCase sa = toLowerCase sb ->
  comparator StringToNumber f dir a b = Some 0.
Proof.
  intros Ha Hb E.
  rewrite (comparator_text f dir a b sa sb)
    by (by rewrite ?Ha, ?Hb, js_or_string_empty).
  simpl. rewrite E, !string_ltb_leb, string_leb_refl. done.
Qed.

Lemma isSearchActive_upd k k' f s :
  searchTerm (f (coll k' s)) = searchTerm (coll k' s) ->
  _isSearchActive k (upd k' f s) = _isSearchActive k s.
Proof. unfold _isSearchActive. destruct k, k'; simpl; intros E; by rewrite ?E. Qed.

Lemma handleSort_displayed k f dir s sorted :
  _sortData StringToNumber (displayed k s)
    (if String.eqb f "recordUrl" then "Name" else f) dir = Some sorted ->
  displayed k (handleSort k f dir s) = sorted.
Proof.
  unfold handleSort, displayed.
  rewrite !isSearchActive_upd by (by destruct k).
  destruct (_isSearchActive k s) eqn:E; unfold _isSearchActive in *;
    destruct k; simpl in *; intros ->; simpl; by rewrite E.
Qed.

(** ** [Promise.all] *)

Lemma Promise_all4_fulfilled {A B C D} (p1 : Timed A) (p2 : Timed B)
    (p3 : Timed C) (p4 : Timed D) t1 t2 t3 t4 a b c d :
  p1 = (t1, Fulfilled a) -> p2 = (t2, Fulfilled b) ->
  p3 = (t3, Fulfilled c) -> p4 = (t4, Fulfilled d) ->
  Promise_all4 p1 p2 p3 p4 = Fulfilled (a, b, c, d).
Proof. by intros -> -> -> ->. Qed.

(** As soon as one of the four rejects, [Promise.all] rejects, with the
    reason of one of those that reject. *)
Lemma Promise_all4_rejected {A B C D} (p1 : Timed A) (p2 : Timed B)
    (p3 : Timed C) (p4 : Timed D) :
  is_Some (rejection p1) \/ is_Some (rejection p2) \/
  is_Some (rejection p3) \/ is_Some (rejection p4) ->
  exists e, Promise_all4 p1 p2 p3 p4 = Rejected e /\
    (rejection p1 = Some e \/ rejection p2 = Some e \/
     rejection p3 = Some e \/ rejection p4 = Some e).
Proof.
  unfold Promise_all4, rejection.
  destruct p1 as [t1 [a|e1]], p2 as [t2 [b|e2]], p3 as [t3 [c|e3]],
    p4 as [t4 [d|e4]]; simpl;
    intros H; try (by exfalso; destruct H as [[? ?]|[[? ?]|[[? ?]|[? ?]]]]);
    repeat case_match; simplify_eq/=; eauto 10.
Qed.

Lemma Promise_all2_rejected {A B} (p1 : Timed A) (p2 : Timed B) :
  is_Some (rejection p1) \/ is_Some (rejection p2) ->
  exists e, Promise_all2 p1 p2 = Rejected e /\
    (rejection p1 = Some e \/ rejection p2 = Some e).
Proof.
  unfold Promise_all2, rejection.
  destruct p1 as [t1 [a|e1]], p2 as [t2 [b|e2]]; simpl;
    intros H; try (by exfalso; destruct H as [[? ?]|[? ?]]);
    repeat case_match; simplify_eq/=; eauto 10.
Qed.



(** ** The step function *)

Lemma step_Settles s i r t :
  pending s !! i = Some t ->
  step s (Settles i r) = default s (resume t r (set_pending (delete i (pending s)) s)).
Proof. intros H. simpl. by rewrite H. Qed.

Lemma run_app s es1 es2 : run (run s es1) es2 = run s (es1 ++ es2).
Proof. unfold run. by rewrite foldl_app. Qed.

Lemma run_snoc s es e : run s (es ++ [e]) = step (run s es) e.
Proof. unfold run. by rewrite foldl_app. Qed.

Lemma reachable_step s e : reachable s -> reachable (step s e).
Proof. intros [es ->]. exists (es ++ [e]). by rewrite run_snoc. Qed.

(** An invariant of the steps holds in every reachable state. *)
Lemma reachable_ind (I : State -> Prop) :
  I new_AccountRelatedRecords ->
  (forall s e, I s -> I (step s e)) ->
  forall s, reachable s -> I s.
Proof.
  intros H0 Hstep s [es ->].
  induction es as [|e es IH] using rev_ind; [done|].
  rewrite run_snoc. by apply Hstep.
Qed.

Lemma length_addRecordUrls records :
  length (_addRecordUrls NumberToString records) = length records.
Proof. unfold _addRecordUrls. by rewrite length_fmap. Qed.

(** ** Initial load *)

(** C2. [initialLoad] is all or nothing: when one of its four fetches
    fails, the paginated rows, total counts, offsets and infinite-loading
    flags of both collections are what they were, and both error flags
    hold the reason of a failed fetch.  This holds at the step that
    completes the load, whatever happened since the call, and so also
    for a call followed at once by its completion. *)
Theorem initial_load_failure_is_atomic :
  (forall s i refreshing contactsResult opportunitiesResult contactCount oppCount,
      pending s !! i = Some (AwaitInitialData refreshing) ->
      is_Some (rejection contactsResult) \/ is_Some (rejection opportunitiesResult) \/
      is_Some (rejection contactCount) \/ is_Some (rejection oppCount) ->
      let s' := step s (Settles i (OfInitialData contactsResult opportunitiesResult
                                     contactCount oppCount)) in
      (forall k, pagination (coll k s') = pagination (coll k s)) /\
      exists e,
        (rejection contactsResult = Some e \/ rejection opportunitiesResult = Some e \/
         rejection contactCount = Some e \/ rejection oppCount = Some e) /\
        forall k, error (coll k s') = Some e) /\
  (forall s refreshing contactsResult opportunitiesResult contactCount oppCount,
      is_Some (rejection contactsResult) \/ is_Some (rejection opportunitiesResult) \/
      is_Some (rejection contactCount) \/ is_Some (rejection oppCount) ->
      let s' := step (_loadInitialData refreshing s)
                  (Settles (length (pending s))
                     (OfInitialData contactsResult opportunitiesResult
                        contactCount oppCount)) in
      (forall k, pagination (coll k s') = pagination (coll k s)) /\
      exists e, forall k, error (coll k s') = Some e).
Proof.
  assert (forall s i refreshing contactsResult opportunitiesResult contactCount oppCount,
      pending s !! i = Some (AwaitInitialData refreshing) ->
      is_Some (rejection contactsResult) \/ is_Some (rejection opportunitiesResult) \/
      is_Some (rejection contactCount) \/ is_Some (rejection oppCount) ->
      let s' := step s (Settles i (OfInitialData contactsResult opportunitiesResult
                                     contactCount oppCount)) in
      (forall k, pagination (coll k s') = pagination (coll k s)) /\
      exists e,
        (rejection contactsResult = Some e \/ rejection opportunitiesResult = Some e \/
         rejection contactCount = Some e \/ rejection oppCount = Some e) /\
        forall k, error (coll k s') = Some e) as Hstep.
  { intros s i refreshing c o cc oc Hi Hrej s'. subst s'.
    rewrite (step_Settles _ _ _ _ Hi). simpl.
    destruct (Promise_all4_rejected c o cc oc Hrej) as (e & -> & He).
    split.
    - intros k. by destruct refreshing, k.
    - exists e. split; [done|]. intros k. by destruct refreshing, k. }
  split; [exact Hstep|].
  intros s refreshing c o cc oc Hrej s'.
  destruct (Hstep (_loadInitialData refreshing s) (length (pending s))
              refreshing c o cc oc) as (Hp & e & _ & He); [|done|].
  { simpl. by rewrite lookup_app_r, Nat.sub_diag. }
  split; [|by exists e].
  intros k. subst s'. rewrite Hp. by destruct k.
Qed.

(** ** The offset *)

Lemma sortData_length data f dir sorted :
  _sortData StringToNumber data f dir = Some sorted ->
  length sorted = length data.
Proof. apply Array_sort_length. Qed.

Lemma step_offset_counts_rows s e :
  offset_counts_rows s -> offset_counts_rows (step s e).
Proof.
  intros H k.
  pose proof (H Contact) as HC. pose proof (H Opportunity) as HO.
  simpl in HC, HO.
  destruct e as [| |k' v|k'|k'|k' a row|k' d|k'|k'|k' f dir| |tab|i r]; simpl.
  - by destruct k.
  - by destruct k.
  - unfold handleSearch. case_match; by destruct k, k'.
  - unfold debounce_fires. case_match; by destruct k, k'.
  - unfold handleLoadMore. case_match; by destruct k, k'.
  - unfold _handleRowAction. repeat case_match; by destruct k, k'.
  - by destruct k, k'.
  - by destruct k, k'.
  - by destruct k, k'.
  - unfold handleSort.
    repeat case_match; try (by destruct k, k');
      match goal with
      | E : _sortData _ _ _ _ = Some _ |- _ => apply sortData_length in E
      end;
      destruct k, k'; simpl in *; congruence.
  - by destruct k.
  - by destruct k.
  - destruct (pending s !! i) as [t|]; [|by destruct k].
    destruct t as [rf|k' term by_|k' off|k' row|k' dv|k' dv|k' cc c], r; simpl;
      try (by destruct k).
    + destruct (Promise_all4 _ _ _ _) as [[[[cs os] n1] n2]|err];
        destruct rf, k; simpl; by rewrite ?length_addRecordUrls.
    + unfold _executeSearch_resume. destruct r, by_;
        repeat case_match; by destruct k, k'.
    + unfold handleLoadMore_resume. destruct r;
        repeat case_match; destruct k, k'; simpl; try done;
        rewrite length_app, length_addRecordUrls; congruence.
    + unfold _deleteRow_resume, resync. destruct r;
        repeat case_match; by destruct k, k'.
    + case_decide; [|by destruct k]. simpl. unfold handleSave_updated.
      destruct (Promise_all rs); by destruct k.
    + unfold handleSave_notified, resync. destruct r;
        repeat case_match; by destruct k, k'.
    + unfold _reloadData_resume.
      destruct (Promise_all2 _ _) as [[rows n]|err];
        destruct k, k'; simpl; by rewrite ?length_addRecordUrls.
Qed.

(** C4. The offset of each collection is the number of paginated rows it
    holds: at the start, after every event and every completion (initial
    load, load-more, reload after save or delete, refresh, sort, search),
    and therefore in every state the component reaches. *)
Theorem offset_equals_rows_held :
  offset_counts_rows new_AccountRelatedRecords /\
  (forall s e, offset_counts_rows s -> offset_counts_rows (step s e)) /\
  (forall s, reachable s -> offset_counts_rows s).
Proof.
  assert (offset_counts_rows new_AccountRelatedRecords) as H0 by (by intros []).
  split; [done|]. split; [apply step_offset_counts_rows|].
  apply reachable_ind; [done|apply step_offset_counts_rows].
Qed.

(** ** Load-more *)

Lemma filter_delete_length {A} (P : A -> Prop) `{!forall x, Decision (P x)}
    (l : list A) i t :
  l !! i = Some t ->
  length (filter P l)
  = (length (filter P (delete i l)) + (if decide (P t) then 1 else 0))%nat.
Proof.
  intros Hl. rewrite delete_take_drop.
  rewrite <-(take_drop_middle l i t Hl) at 1.
  rewrite !filter_app, filter_cons, !length_app.
  case_decide; simpl; lia.
Qed.

Lemma loads_in_flight_await k t s :
  loads_in_flight k (await t s)
  = (loads_in_flight k s + (if is_load_more k t then 1 else 0))%nat.
Proof.
  unfold loads_in_flight, await. simpl.
  rewrite filter_app, length_app, filter_cons.
  destruct (is_load_more k t); case_decide; simpl; (done || lia).
Qed.

Lemma loads_in_flight_pending k s s' :
  pending s' = pending s -> loads_in_flight k s' = loads_in_flight k s.
Proof. unfold loads_in_flight. by intros ->. Qed.

Lemma flag_guard_kept k base s' :
  (loads_in_flight k base = if _loading (coll k base) then 1%nat else 0%nat) ->
  pending s' = pending base ->
  _loading (coll k s') = _loading (coll k base) ->
  loads_in_flight k s' = if _loading (coll k s') then 1%nat else 0%nat.
Proof. intros Hb Hp Hl. by rewrite (loads_in_flight_pending _ _ _ Hp), Hl. Qed.

Lemma flag_guard_kept_await k base s' t :
  (loads_in_flight k base = if _loading (coll k base) then 1%nat else 0%nat) ->
  is_load_more k t = false ->
  pending s' = pending base ->
  _loading (coll k s') = _loading (coll k base) ->
  loads_in_flight k (await t s')
  = if _loading (coll k (await t s')) then 1%nat else 0%nat.
Proof.
  intros Hb Ht Hp Hl. rewrite loads_in_flight_await, Ht, Nat.add_0_r.
  rewrite (flag_guard_kept k base s' Hb Hp Hl). by destruct k.
Qed.

Lemma step_flag_guards_load_more s e :
  flag_guards_load_more s -> flag_guards_load_more (step s e).
Proof.
  intros H k. pose proof (H k) as Hk.
  pose proof (fun s' => flag_guard_kept k s s' Hk) as Hsame.
  pose proof (fun s' t => flag_guard_kept_await k s s' t Hk) as Hawait.
  destruct e as [| |k' v|k'|k'|k' a row|k' d|k'|k'|k' f dir| |tab|i r]; simpl.
  - by apply Hawait.
  - apply Hsame; by destruct k.
  - apply Hsame; unfold handleSearch;
      destruct (String.eqb v "" || String.eqb (trim v) ""); by destruct k, k'.
  - unfold debounce_fires, _executeSearch.
    destruct (_debounceTimer (coll k' s)); [|done].
    apply Hawait; by destruct k, k'.
  - unfold handleLoadMore.
    destruct (_isSearchActive k' s || _loading (coll k' s)) eqn:E; [done|].
    apply orb_false_iff in E as [_ E].
    rewrite loads_in_flight_await; simpl.
    rewrite (loads_in_flight_pending k s) by (by destruct k').
    rewrite Hk.
    destruct k, k'; simpl in *; rewrite ?E; done.
  - unfold _handleRowAction, _deleteRow.
    destruct (String.eqb a "view"); [apply Hsame; by destruct k|].
    destruct (String.eqb a "delete"); [|done].
    apply Hawait; by destruct k.
  - apply Hsame; by destruct k, k'.
  - apply Hawait; by destruct k.
  - apply Hsame; by destruct k, k'.
  - apply Hsame; unfold handleSort;
      destruct (_isSearchActive k' _); destruct (_sortData _ _ _ _);
      by destruct k, k'.
  - apply Hawait; by destruct k.
  - apply Hsame; by destruct k.
  - destruct (pending s !! i) as [t|] eqn:Hi; [|done].
    pose proof (filter_delete_length (fun t => is_load_more k t = true) _ _ _ Hi) as Hd.
    fold (loads_in_flight k s) in Hd.
    set (s0 := set_pending (delete i (pending s)) s) in *.
    change (length (filter _ (delete i (pending s)))) with (loads_in_flight k s0) in Hd.
    assert (forall k, coll k s0 = coll k s) as Hc by (by intros []).
    clear Hsame Hawait.
    destruct (is_load_more k t) eqn:Ht.
    + destruct t as [rf|k' term by_|k' off|k' row|k' dv|k' dv|k' cc c]; try done.
      simpl in Ht. apply bool_decide_eq_true in Ht as ->.
      rewrite decide_True in Hd by (simpl; by rewrite bool_decide_eq_true).
      rewrite Hk in Hd. destruct (_loading (coll k s)) eqn:El; [|lia].
      assert (loads_in_flight k s0 = 0%nat) as H0 by lia.
      destruct r; simpl; try done.
      rewrite (loads_in_flight_pending k s0).
      * rewrite H0. unfold handleLoadMore_resume. destruct r;
          repeat case_match; by destruct k.
      * unfold handleLoadMore_resume. destruct r; repeat case_match; by destruct k.
    + rewrite decide_False in Hd by (simpl; by rewrite Ht).
      rewrite Nat.add_0_r in Hd.
      assert (loads_in_flight k s0
              = if _loading (coll k s0) then 1%nat else 0%nat) as H0
        by (by rewrite Hc, <-Hd).
      pose proof (fun s' => flag_guard_kept k s0 s' H0) as Hsame.
      pose proof (fun s' t => flag_guard_kept_await k s0 s' t H0) as Hawait.
      clear Hd H0 Hi.
      destruct t as [rf|k' term by_|k' off|k' row|k' dv|k' dv|k' cc c], r;
        simpl; try done.
      * apply Hsame; destruct (Promise_all4 _ _ _ _) as [[[[??]?]?]|?];
          by destruct rf, k.
      * unfold _executeSearch_resume, _reloadData.
        destruct by_; [apply Hsame|apply Hawait; [done|..]];
          destruct r; try destruct (String.eqb _ term); by destruct k, k'.
      * apply Hsame; unfold handleLoadMore_resume;
          destruct r; try destruct (_ <? _)%nat;
          destruct k, k'; done.
      * unfold _deleteRow_resume, resync, _executeSearch, _reloadData, mutation_failed.
        destruct r; [destruct (_isSearchActive _ _); apply Hawait; [done|..]
                    |apply Hsame]; by destruct k, k'.
      * case_decide; [|done]. simpl. unfold handleSave_updated, mutation_failed.
        destruct (Promise_all rs); [apply Hawait; [done|..]|apply Hsame];
          by destruct k.
      * unfold handleSave_notified, resync, _executeSearch, _reloadData, mutation_failed.
        destruct r; [destruct (_isSearchActive _ _); apply Hawait; [done|..]
                    |apply Hsame]; by destruct k, k'.
      * apply Hsame; unfold _reloadData_resume, mutation_failed;
          destruct (Promise_all2 _ _) as [[??]|?]; by destruct k, k'.
Qed.

Lemma flag_guards_load_more_reachable s :
  reachable s -> flag_guards_load_more s.
Proof.
  apply reachable_ind; [by intros []|apply step_flag_guards_load_more].
Qed.

(** C5, as the code has it.  A load-more that succeeds puts the returned
    rows, with their record URLs, after the rows already held, which
    stay as they are, and advances the offset by the number of rows
    returned.  A load-more requested while the collection is in search
    mode, or while its loading flag is set, changes nothing and sends
    nothing; and in every state the component reaches the flag is set
    whenever a load-more of the collection is in flight.  The flag guards
    against a second load-more and against nothing else: out of search
    mode and with the flag clear, the next page is asked for at the
    current offset whatever else is in flight, an initial load or a
    reload included. *)
Theorem load_more_appends :
  (forall s i k offsetVal result,
      pending s !! i = Some (AwaitLoadMore k offsetVal) ->
      let s' := step s (Settles i (OfRows (Fulfilled result))) in
      _paginated (coll k s')
      = _paginated (coll k s) ++ _addRecordUrls NumberToString result /\
      _offset (coll k s') = (_offset (coll k s) + length result)%nat /\
      length (_paginated (coll k s'))
      = (length (_paginated (coll k s)) + length result)%nat) /\
  (forall s k,
      _isSearchActive k s = true \/ _loading (coll k s) = true ->
      step s (LoadMore k) = s) /\
  (forall s k offsetVal,
      reachable s -> AwaitLoadMore k offsetVal ∈ pending s ->
      _loading (coll k s) = true /\ step s (LoadMore k) = s) /\
  (forall s k,
      _isSearchActive k s = false -> _loading (coll k s) = false ->
      pending (step s (LoadMore k))
      = pending s ++ [AwaitLoadMore k (_offset (coll k s))] /\
      _loading (coll k (step s (LoadMore k))) = true).
Proof.
  assert (forall s k,
      _isSearchActive k s = true \/ _loading (coll k s) = true ->
      step s (LoadMore k) = s) as Hnoop.
  { intros s k H. simpl. unfold handleLoadMore.
    by destruct H as [-> | ->]; rewrite ?orb_true_r. }
  split; [|split; [exact Hnoop|split]]; cycle 2.
  { intros s k Hs Hl. simpl. unfold handleLoadMore. rewrite Hs, Hl. simpl.
    by destruct k. }
  - intros s i k off result Hi s'. subst s'.
    rewrite (step_Settles _ _ _ _ Hi). simpl. unfold handleLoadMore_resume.
    repeat split.
    + destruct k; simpl; by destruct (_ <? _)%nat.
    + destruct k; simpl; by destruct (_ <? _)%nat.
    + destruct k; simpl; destruct (_ <? _)%nat; simpl;
        by rewrite length_app, length_addRecordUrls.
  - intros s k off Hr Hin.
    assert (_loading (coll k s) = true) as Hl.
    { pose proof (flag_guards_load_more_reachable s Hr k) as Hg.
      destruct (_loading (coll k s)); [done|]. exfalso.
      unfold loads_in_flight in Hg. apply length_zero_iff_nil in Hg.
      assert (AwaitLoadMore k off ∈ filter (fun t => is_load_more k t = true) (pending s))
        as Hf; [|by rewrite Hg in Hf; apply elem_of_nil in Hf].
      apply list_elem_of_filter. split; [|done]. simpl.
      by apply bool_decide_eq_true. }
    split; [done|]. apply Hnoop. by right.
Qed.

(** ** Initial load and load-more against the gateway *)

Lemma initial_load_answered g :
  let s1 := answered g 0 (step new_AccountRelatedRecords Connected) in
  pending s1 = [] /\
  forall k,
    _paginated (coll k s1)
    = _addRecordUrls NumberToString (fetchPage (table g k) PAGE_SIZE 0) /\
    _offset (coll k s1) = length (fetchPage (table g k) PAGE_SIZE 0) /\
    enableInfiniteLoading (coll k s1)
    = (PAGE_SIZE <=? length (fetchPage (table g k) PAGE_SIZE 0))%nat /\
    totalCount (coll k s1) = fetchCount (table g k) /\
    searchTerm (coll k s1) = "" /\ _loading (coll k s1) = false.
Proof. split; [done|]. by intros []. Qed.

Lemma load_more_answered g s k :
  pending s = [] -> searchTerm (coll k s) = "" -> _loading (coll k s) = false ->
  let page := fetchPage (table g k) PAGE_SIZE (_offset (coll k s)) in
  let s' := answered g 0 (step s (LoadMore k)) in
  pending s' = [] /\
  _paginated (coll k s') = _paginated (coll k s) ++ _addRecordUrls NumberToString page /\
  _offset (coll k s') = (_offset (coll k s) + length page)%nat /\
  enableInfiniteLoading (coll k s')
  = (if (length page <? PAGE_SIZE)%nat then false
     else enableInfiniteLoading (coll k s)) /\
  searchTerm (coll k s') = "" /\ _loading (coll k s') = false.
Proof.
  intros Hp Ht Hl page s'. subst s' page.
  unfold answered. simpl. unfold handleLoadMore, _isSearchActive.
  rewrite Ht, Hl. simpl.
  assert (pending (upd k (set_datatable_isLoading true) (upd k (set__loading true) s))
          = []) as -> by (by destruct k).
  simpl. unfold handleLoadMore_resume.
  destruct (_ <? _)%nat eqn:E; destruct k; simpl in *; rewrite ?E; done.
Qed.

(** C3. After a successful initial load the offset of each collection is
    the number of rows its page fetch returned, and, a page holding at
    most [PAGE_SIZE] = 50 rows, infinite loading is enabled exactly when
    that number is the page size.  With 120 rows on the server, the
    initial load gives 50 rows, flag set, offset 50; the next load-more
    100 rows, flag set, offset 100; the next 120 rows, flag cleared,
    offset 120. *)
Theorem initial_load_then_load_more :
  (forall s i refreshing contactsResult opportunitiesResult contactCount oppCount
          t1 t2 t3 t4,
      pending s !! i = Some (AwaitInitialData refreshing) ->
      (length contactsResult <= PAGE_SIZE)%nat ->
      (length opportunitiesResult <= PAGE_SIZE)%nat ->
      let s' := step s (Settles i (OfInitialData
                                     (t1, Fulfilled contactsResult)
                                     (t2, Fulfilled opportunitiesResult)
                                     (t3, Fulfilled contactCount)
                                     (t4, Fulfilled oppCount))) in
      forall k,
        let result := match k with
                      | Contact => contactsResult
                      | Opportunity => opportunitiesResult
                      end in
        _paginated (coll k s') = _addRecordUrls NumberToString result /\
        _offset (coll k s') = length result /\
        enableInfiniteLoading (coll k s') = bool_decide (length result = PAGE_SIZE)) /\
  (forall g k,
      length (table g k) = 120%nat ->
      let s1 := answered g 0 (step new_AccountRelatedRecords Connected) in
      let s2 := answered g 0 (step s1 (LoadMore k)) in
      let s3 := answered g 0 (step s2 (LoadMore k)) in
      (displayed k s1 = _addRecordUrls NumberToString (take 50 (table g k)) /\
       length (displayed k s1) = 50%nat /\
       enableInfiniteLoading (coll k s1) = true /\ _offset (coll k s1) = 50%nat) /\
      (displayed k s2 = _addRecordUrls NumberToString (take 100 (table g k)) /\
       length (displayed k s2) = 100%nat /\
       enableInfiniteLoading (coll k s2) = true /\ _offset (coll k s2) = 100%nat) /\
      (displayed k s3 = _addRecordUrls NumberToString (table g k) /\
       length (displayed k s3) = 120%nat /\
       enableInfiniteLoading (coll k s3) = false /\ _offset (coll k s3) = 120%nat)).
Proof.
  split.
  - intros s i rf cs os cc oc t1 t2 t3 t4 Hi Hc Ho s' k result. subst s' result.
    rewrite (step_Settles _ _ _ _ Hi).
    assert (forall n, (n <= PAGE_SIZE)%nat ->
              (PAGE_SIZE <=? n)%nat = bool_decide (n = PAGE_SIZE)) as Hb.
    { intros n Hn. destruct (Nat.leb_spec PAGE_SIZE n).
      - symmetry. apply bool_decide_eq_true. lia.
      - symmetry. apply bool_decide_eq_false. lia. }
    destruct rf, k; cbn -[Nat.leb PAGE_SIZE]; by rewrite Hb.
  - intros g k Hlen s1 s2 s3.
    destruct (initial_load_answered g) as (Hp1 & H1).
    destruct (H1 k) as (Hr1 & Ho1 & He1 & _ & Ht1 & Hl1). clear H1.
    fold s1 in Hp1, Hr1, Ho1, He1, Ht1, Hl1.
    destruct (load_more_answered g s1 k Hp1 Ht1 Hl1)
      as (Hp2 & Hr2 & Ho2 & He2 & Ht2 & Hl2).
    fold s2 in Hp2, Hr2, Ho2, He2, Ht2, Hl2.
    destruct (load_more_answered g s2 k Hp2 Ht2 Hl2)
      as (Hp3 & Hr3 & Ho3 & He3 & Ht3 & Hl3).
    fold s3 in Hp3, Hr3, Ho3, He3, Ht3, Hl3.
    unfold displayed, _isSearchActive. rewrite Ht1, Ht2, Ht3. simpl.
    unfold fetchPage, PAGE_SIZE in *. rewrite drop_0 in *.
    assert (_offset (coll k s1) = 50%nat) as E1
      by (rewrite Ho1, length_take; lia).
    rewrite E1 in *.
    assert (_offset (coll k s2) = 100%nat) as E2
      by (rewrite Ho2, length_take, length_drop; lia).
    rewrite E2 in *.
    assert (_offset (coll k s3) = 120%nat) as E3
      by (rewrite Ho3, length_take, length_drop; lia).
    assert (_paginated (coll k s2)
            = _addRecordUrls NumberToString (take 100 (table g k))) as R2.
    { rewrite Hr2, Hr1. unfold _addRecordUrls. rewrite <-fmap_app.
      by rewrite (take_take_drop (table g k) 50 50). }
    assert (_paginated (coll k s3)
            = _addRecordUrls NumberToString (table g k)) as R3.
    { rewrite Hr3, R2. unfold _addRecordUrls. rewrite <-fmap_app.
      rewrite (take_take_drop (table g k) 100 50).
      by rewrite take_ge by lia. }
    rewrite Hr1, R2, R3, !length_addRecordUrls, !length_take.
    rewrite He3, He2, He1, !length_take, !length_drop, Hlen. simpl.
    repeat split; lia.
Qed.

(** ** A failed load-more *)

(** The infinite-loading flag of a collection goes from cleared to set
    only at a step that re-derives it. *)
Lemma flag_set_only_when_rederived s e k :
  enableInfiniteLoading (coll k s) = false ->
  enableInfiniteLoading (coll k (step s e)) = true ->
  rederives_flag k s e = true.
Proof.
  intros Hf.
  destruct e as [| |k' v|k'|k'|k' a row|k' d|k'|k'|k' f dir| |tab|i r]; simpl;
    try done.
  - destruct k; simpl in *; congruence.
  - destruct k; simpl in *; congruence.
  - unfold handleSearch.
    destruct (String.eqb v "" || String.eqb (trim v) "");
      destruct k, k'; simpl in *; congruence.
  - unfold debounce_fires. destruct (_debounceTimer (coll k' s));
      destruct k, k'; simpl in *; congruence.
  - unfold handleLoadMore.
    destruct (_isSearchActive k' s || _loading (coll k' s));
      destruct k, k'; simpl in *; congruence.
  - unfold _handleRowAction.
    destruct (String.eqb a "view"); [|destruct (String.eqb a "delete")];
      destruct k; simpl in *; congruence.
  - destruct k, k'; simpl in *; congruence.
  - destruct k; simpl in *; congruence.
  - destruct k, k'; simpl in *; congruence.
  - unfold handleSort.
    destruct (_isSearchActive k' _); destruct (_sortData _ _ _ _);
      destruct k, k'; simpl in *; congruence.
  - destruct k; simpl in *; congruence.
  - destruct (pending s !! i) as [t|] eqn:Hi; [|congruence].
    destruct t as [rf|k' term by_|k' off|k' row|k' dv|k' dv|k' cc c], r; simpl;
      try congruence.
    + unfold _executeSearch_resume, _reloadData.
      destruct by_; destruct r; try destruct (String.eqb _ term);
        destruct k, k'; simpl in *; congruence.
    + unfold handleLoadMore_resume.
      destruct r; try destruct (_ <? _)%nat;
        destruct k, k'; simpl in *; congruence.
    + unfold _deleteRow_resume, resync.
      destruct r; try destruct (_isSearchActive _ _);
        destruct k, k'; simpl in *; congruence.
    + case_decide; [|simpl; congruence]. simpl. unfold handleSave_updated.
      destruct (Promise_all rs); destruct k; simpl in *; congruence.
    + unfold handleSave_notified, resync.
      destruct r; try destruct (_isSearchActive _ _);
        destruct k, k'; simpl in *; congruence.
    + unfold _reloadData_resume.
      destruct (Promise_all2 _ _) as [[??]|?];
        destruct k, k'; simpl in *; congruence.
Qed.

(** C6, as the code has it.  When a load-more fetch fails, the
    infinite-loading flag of the collection is cleared, the paginated
    rows and the offset stay as they are, the loading flag is released
    and the error is written to the console.  The flag then stays
    cleared until a step re-derives it: a refresh, or the reload that
    follows a successful save or delete (or an initial load). *)
Theorem load_more_failure_disables_until_rederived :
  forall s i k offsetVal error,
    pending s !! i = Some (AwaitLoadMore k offsetVal) ->
    let s' := step s (Settles i (OfRows (Rejected error))) in
    enableInfiniteLoading (coll k s') = false /\
    _paginated (coll k s') = _paginated (coll k s) /\
    _offset (coll k s') = _offset (coll k s) /\
    _loading (coll k s') = false /\
    outputs s'
    = outputs s ++ [ConsoleError ("Error loading more " +:+ plural k +:+ ":") error] /\
    forall es,
      enableInfiniteLoading (coll k (run s' es)) = true ->
      exists es1 e es2,
        es = es1 ++ e :: es2 /\ rederives_flag k (run s' es1) e = true.
Proof.
  intros s i k off err Hi s'.
  assert (enableInfiniteLoading (coll k s') = false) as Hf.
  { subst s'. rewrite (step_Settles _ _ _ _ Hi). by destruct k. }
  split; [done|]. subst s'. rewrite (step_Settles _ _ _ _ Hi) in *.
  repeat split; try (by destruct k).
  set (s' := default s _) in *. clearbody s'.
  intros es. induction es as [|e es IH] using rev_ind; simpl.
  - congruence.
  - rewrite run_snoc. intros Ht.
    destruct (enableInfiniteLoading (coll k (run s' es))) eqn:E.
    + destruct (IH eq_refl) as (es1 & e1 & es2 & -> & Hr).
      exists es1, e1, (es2 ++ [e]). split; [|done].
      by rewrite <-app_assoc.
    + exists es, e, []. split; [done|].
      by apply flag_set_only_when_rederived.
Qed.

(** ** Save *)




(** ** Search *)

(** The events of a search leave the paginated side alone. *)
Lemma search_event_keeps_pagination s e k :
  search_event s e = true ->
  pagination (coll k (step s e)) = pagination (coll k s).
Proof.
  destruct e as [| |k' v|k'|k'|k' a row|k' d|k'|k'|k' f dir| |tab|i r]; simpl;
    try done; intros H.
  - unfold handleSearch.
    destruct (String.eqb v "" || String.eqb (trim v) ""); by destruct k, k'.
  - unfold debounce_fires.
    destruct (_debounceTimer (coll k' s)); by destruct k, k'.
  - destruct r as [| r | | |]; try done.
    destruct (pending s !! i) as [[rf|k' term [|c]|k' off|k' row|k' dv|k' dv|k' cc c]|];
      try done.
    simpl. unfold _executeSearch_resume.
    destruct r; try destruct (String.eqb _ term); by destruct k, k'.
Qed.

Lemma search_events_keep_pagination s es k :
  search_events s es = true ->
  pagination (coll k (run s es)) = pagination (coll k s).
Proof.
  revert s. induction es as [|e es IH]; intros s H; simpl in *; [done|].
  apply andb_true_iff in H as [He Hes].
  fold (run (step s e) es). rewrite (IH _ Hes).
  by apply search_event_keeps_pagination.
Qed.

Lemma trim_empty_not_active k s :
  trim (searchTerm (coll k s)) = "" -> _isSearchActive k s = false.
Proof.
  unfold _isSearchActive. intros ->. simpl. by rewrite andb_false_r.
Qed.

(** C8. A keystroke that leaves the search box empty or blank cancels
    the armed debounce timer, empties the search rows, sends no request,
    and shows the paginated rows at once; and a whole round of search
    events (keystrokes, timer, responses to the searches the timer
    started) leaves the paginated rows, the total count, the offset and
    the infinite-loading flag of both collections as they were. *)
Theorem clearing_search_restores_pagination :
  (forall s k value,
      trim value = "" ->
      let s' := step s (SearchInput k value) in
      _debounceTimer (coll k s') = None /\
      _search (coll k s') = [] /\
      pending s' = pending s /\
      displayed k s' = _paginated (coll k s) /\
      forall k', pagination (coll k' s') = pagination (coll k' s)) /\
  (forall s es,
      search_events s es = true ->
      forall k, pagination (coll k (run s es)) = pagination (coll k s)).
Proof.
  split; [|intros s es H k; by apply search_events_keep_pagination].
  intros s k value Hv s'. subst s'. simpl. unfold handleSearch.
  rewrite Hv. simpl. rewrite orb_true_r.
  repeat split; try (by destruct k).
  - unfold displayed. rewrite trim_empty_not_active; by destruct k.
  - intros k'. by destruct k, k'.
Qed.

(** Whatever the term of the response: a search that succeeds replaces
    the search rows exactly when its term is still the trimmed current
    term, and a search that fails empties them. *)
Lemma search_response s i k term by_ r :
  pending s !! i = Some (AwaitSearch k term by_) ->
  _search (coll k (step s (Settles i (OfRows r))))
  = match r with
    | Fulfilled result =>
        if String.eqb (trim (searchTerm (coll k s))) term
        then _addRecordUrls NumberToString result
        else _search (coll k s)
    | Rejected _ => []
    end.
Proof.
  intros Hi. rewrite (step_Settles _ _ _ _ Hi). simpl.
  unfold _executeSearch_resume, _reloadData.
  destruct r; [replace (searchTerm (coll k (set_pending _ s)))
                 with (searchTerm (coll k s)) by (by destruct k);
               destruct (String.eqb _ term)|];
    destruct by_; by destruct k.
Qed.

(** A stale search that succeeds is dropped. *)
Lemma stale_search_result_dropped s i k term by_ result :
  pending s !! i = Some (AwaitSearch k term by_) ->
  trim (searchTerm (coll k s)) <> term ->
  _search (coll k (step s (Settles i (OfRows (Fulfilled result)))))
  = _search (coll k s).
Proof.
  intros Hi Hne. rewrite (search_response _ _ _ _ _ _ Hi).
  by apply String.eqb_neq in Hne as ->.
Qed.

(** ** Falsy values in the comparator *)

Lemma falsy_or_empty v :
  ToBoolean v = false -> js_or v (VString "") = VString "".
Proof. unfold js_or. by intros ->. Qed.

Lemma ltb_empty_r s : String.ltb s "" = false.
Proof. by destruct s. Qed.

Lemma ltb_empty_l s : String.ltb "" s = negb (String.eqb s "").
Proof. by destruct s. Qed.

Lemma toLowerCase_empty s : String.eqb (toLowerCase s) "" = String.eqb s "".
Proof. by destruct s. Qed.

(** The comparator throws as soon as its first row holds text (or
    nothing) and its second a non-zero number. *)
Lemma comparator_TypeError f dir a b :
  text_value (prop a f) = true -> number_value (prop b f) = true ->
  comparator StringToNumber f dir a b = None.
Proof.
  intros Ha Hb. unfold comparator, text_value in *.
  destruct (number_value_inv _ Hb) as (q & Eb & Eb'). rewrite Eb in *.
  rewrite Eb'. destruct (js_or (prop a f) (VString "")); try done.
  by rewrite Eb'.
Qed.

(** C10. In the comparator every falsy field value, the number 0 and
    [false] as much as the empty string, [null] and a missing field, is
    replaced by the empty string before anything is compared.  A row
    whose field is 0 therefore compares exactly as a row whose field is
    empty or missing does, against every row and on either side, and
    two such rows tie.  It compares as the empty string does and not as
    a number: it goes before every text that is not empty, in ascending
    order, where the number 0 would tie with it; in first place against
    a non-zero number it has [toLowerCase] called on that number, which
    throws, where two numbers would be compared by value; and in second
    place against a number it is the empty string that is converted and
    compared. *)
Theorem falsy_sorts_as_empty_string :
  (ToBoolean (VNumber 0%Qc) = false /\ ToBoolean (VBool false) = false /\
   ToBoolean (VString "") = false /\ ToBoolean VNull = false /\
   ToBoolean VUndefined = false) /\
  (forall v, ToBoolean v = false -> js_or v (VString "") = VString "") /\
  (forall f dir a a' b,
      ToBoolean (prop a f) = false -> ToBoolean (prop a' f) = false ->
      comparator StringToNumber f dir a b = comparator StringToNumber f dir a' b /\
      comparator StringToNumber f dir b a = comparator StringToNumber f dir b a') /\
  (forall f dir a b,
      ToBoolean (prop a f) = false -> ToBoolean (prop b f) = false ->
      comparator StringToNumber f dir a b = Some 0) /\
  (forall f dir a b sb,
      ToBoolean (prop a f) = false -> prop b f = VString sb ->
      let isReverse := if String.eqb dir "desc" then -1 else 1 in
      comparator StringToNumber f dir a b
      = Some (if String.eqb sb "" then 0 else - isReverse) /\
      comparator StringToNumber f dir b a
      = Some (if String.eqb sb "" then 0 else isReverse)) /\
  (forall f dir a b,
      ToBoolean (prop a f) = false -> number_value (prop b f) = true ->
      comparator StringToNumber f dir a b = None) /\
  (forall f dir a b q,
      ToBoolean (prop a f) = false ->
      prop b f = VNumber q -> number_value (prop b f) = true ->
      let isReverse := if String.eqb dir "desc" then -1 else 1 in
      comparator StringToNumber f dir b a
      = Some (if num_lt (StringToNumber "") (Num q) then isReverse
              else if num_lt (Num q) (StringToNumber "") then - isReverse
              else 0)).
Proof.
  split; [done|]. split; [apply falsy_or_empty|].
  split; [|split; [|split; [|split]]].
  - intros f dir a a' b Ha Ha'. unfold comparator.
    by rewrite (falsy_or_empty _ Ha), (falsy_or_empty _ Ha').
  - intros f dir a b Ha Hb. unfold comparator.
    by rewrite (falsy_or_empty _ Ha), (falsy_or_empty _ Hb).
  - intros f dir a b sb Ha Hb isReverse. subst isReverse.
    assert (js_or (prop b f) (VString "") = VString sb) as Hb'
      by (by rewrite Hb, js_or_string_empty).
    rewrite (comparator_text f dir a b "" sb (falsy_or_empty _ Ha) Hb').
    rewrite (comparator_text f dir b a sb "" Hb' (falsy_or_empty _ Ha)).
    cbn zeta. change (toLowerCase "") with "".
    rewrite !ltb_empty_r, !ltb_empty_l, toLowerCase_empty.
    by destruct (String.eqb sb "").
  - intros f dir a b Ha Hb. apply comparator_TypeError; [|done].
    unfold text_value. by rewrite (falsy_or_empty _ Ha).
  - intros f dir a b q Ha Eb Hb isReverse. subst isReverse.
    destruct (number_value_inv _ Hb) as (q' & Eb' & Eb'').
    unfold comparator. rewrite (falsy_or_empty _ Ha), Eb'', Eb. simpl.
    unfold js_gt, js_lt. simpl. by repeat case_match.
Qed.

(** ** Sort *)

(** C9, as the code has it.  On rows whose sorted field holds text (a
    string, or nothing) in every row, or a non-zero number in every row,
    sorting ascending and then descending, through the sort handler and
    on the rows shown, gives two arrangements of the same rows, the
    first in ascending and the second in descending order of the keys,
    each keeping rows with equal keys in the order they had.  The keys
    read in one are the keys read in the other backwards; the rows
    themselves are in mirrored order when no two rows have the same key.
    Strings compare without regard to letter case. *)
Theorem sort_asc_then_desc :
  forall s k fieldName,
    let f := if String.eqb fieldName "recordUrl" then "Name" else fieldName in
    let rows := displayed k s in
    sortable_column f rows = true ->
    let s1 := step s (Sort k fieldName "asc") in
    let s2 := step s1 (Sort k fieldName "desc") in
    let asc := displayed k s1 in
    let desc := displayed k s2 in
    _sortData StringToNumber rows f "asc" = Some asc /\
    _sortData StringToNumber asc f "desc" = Some desc /\
    asc ≡ₚ rows /\ desc ≡ₚ rows /\
    StronglySorted (by_key (sort_key f) key_le) asc /\
    StronglySorted (by_key (sort_key f) (flip key_le)) desc /\
    keeps_order f rows asc /\ keeps_order f rows desc /\
    sort_key f <$> desc = reverse (sort_key f <$> asc) /\
    (NoDup (sort_key f <$> rows) -> desc = reverse asc) /\
    (forall dir a b sa sb,
        prop a f = VString sa -> prop b f = VString sb ->
        toLowerCase sa = toLowerCase sb ->
        comparator StringToNumber f dir a b = Some 0).
Proof.
  intros s k fieldName f rows Hcol s1 s2 asc desc.
  destruct (sortData_asc_desc f rows Hcol)
    as (la & ld & Ea & Ed & Hpa & Hpd & Hsa & Hsd & Hka & Hkd & Hm & Hr).
  assert (asc = la) as Hasc.
  { subst asc s1. simpl. by apply handleSort_displayed. }
  assert (desc = ld) as Hdesc.
  { subst desc s2. simpl. apply handleSort_displayed. fold s1. fold asc.
    by rewrite Hasc. }
  rewrite Hasc, Hdesc. clearbody asc desc. clear Hasc Hdesc.
  repeat split; try done.
  intros dir a b sa sb. apply comparator_case_insensitive.
Qed.

(** * Further properties of the code *)

(** ** [trim] *)

Lemma trimStart_head c s :
  is_space c = false -> trimStart (String c s) = String c s.
Proof. simpl. by intros ->. Qed.

Lemma trimStart_not_space s c t : trimStart s = String c t -> is_space c = false.
Proof.
  induction s as [|a s IH]; simpl; [done|].
  destruct (is_space a) eqn:E; [done|]. by intros [= <- _].
Qed.

Lemma trimEnd_head c s :
  is_space c = false -> trimEnd (String c s) = String c (trimEnd s).
Proof. simpl. by intros ->. Qed.

Lemma trimEnd_idemp s : trimEnd (trimEnd s) = trimEnd s.
Proof.
  induction s as [|c s IH]; simpl; [done|].
  destruct (is_space c && String.eqb (trimEnd s) "") eqn:E; [done|].
  simpl. by rewrite IH, E.
Qed.

Lemma trim_idemp s : trim (trim s) = trim s.
Proof.
  unfold trim. destruct (trimStart s) as [|c t] eqn:E; [done|].
  pose proof (trimStart_not_space _ _ _ E) as Hc.
  rewrite (trimEnd_head _ _ Hc), (trimStart_head _ _ Hc).
  by rewrite <-(trimEnd_head _ _ Hc), trimEnd_idemp.
Qed.

Lemma blank_trim value : blank value = String.eqb (trim value) "".
Proof.
  unfold blank. destruct (String.eqb_spec value "") as [->|]; by simpl.
Qed.

Lemma isSearchActive_trim k s :
  _isSearchActive k s = negb (String.eqb (trim (searchTerm (coll k s))) "").
Proof.
  unfold _isSearchActive.
  destruct (String.eqb_spec (searchTerm (coll k s)) "") as [->|_]; [done|].
  simpl. by destruct (trim _).
Qed.

(** ** Debounce *)

Lemma handleSearch_effect k value s :
  pending (handleSearch k value s) = pending s /\
  _debounceTimer (coll k (handleSearch k value s))
  = (if blank value then None else Some value) /\
  searchTerm (coll k (handleSearch k value s)) = value.
Proof.
  unfold handleSearch, blank.
  destruct (String.eqb value "" || String.eqb (trim value) ""); by destruct k.
Qed.

Lemma keystrokes_pending k values s :
  pending (run s (keystrokes k values)) = pending s.
Proof.
  revert s. induction values as [|v values IH]; intros s; [done|].
  simpl. fold (run (handleSearch k v s) (keystrokes k values)).
  rewrite IH. apply handleSearch_effect.
Qed.

(** X4. However many keystrokes precede it, the firing of the debounce
    timer sends one search, for the last value typed, trimmed; it sends
    none when that value is blank, and the keystrokes themselves send
    none.  The timer fires once: a second firing with no keystroke in
    between does nothing. *)
Theorem debounce_sends_one_search_for_the_last_value :
  forall s k values value,
    let s1 := run s (keystrokes k (values ++ [value])) in
    let s2 := step s1 (DebounceFires k) in
    pending s1 = pending s /\
    pending s2
    = pending s ++ (if blank value then []
                    else [AwaitSearch k (trim value) ByDebounce]) /\
    searchTerm (coll k s2) = value /\
    step s2 (DebounceFires k) = s2.
Proof.
  intros s k values value s1 s2.
  assert (pending s1 = pending s) as Hp by apply keystrokes_pending.
  assert (_debounceTimer (coll k s1) = (if blank value then None else Some value)
          /\ searchTerm (coll k s1) = value) as [Ht Hv].
  { subst s1. unfold keystrokes. rewrite fmap_app. simpl.
    rewrite <-run_app. simpl. split; apply handleSearch_effect. }
  split; [done|]. subst s2. simpl. unfold debounce_fires. rewrite Ht.
  destruct (blank value).
  - rewrite Ht, Hp, app_nil_r. done.
  - unfold _executeSearch. repeat split.
    + destruct k; simpl in *; by rewrite Hp.
    + by destruct k.
    + by destruct k.
Qed.

(** ** The terms searched for *)

Lemma step_timer_not_blank s e :
  (forall k value, _debounceTimer (coll k s) = Some value -> trim value <> "") ->
  forall k value,
    _debounceTimer (coll k (step s e)) = Some value -> trim value <> "".
Proof.
  intros HT k value.
  pose proof (HT Contact value) as HC. pose proof (HT Opportunity value) as HO.
  destruct e as [| |k' v|k'|k'|k' a row|k' d|k'|k'|k' f dir| |tab|i r]; simpl.
  - by destruct k.
  - by destruct k.
  - unfold handleSearch.
    destruct (String.eqb v "" || String.eqb (trim v) "") eqn:E.
    + by destruct k, k'.
    + apply orb_false_iff in E as [_ E]. apply String.eqb_neq in E.
      destruct k, k'; simpl; try done; by intros [= <-].
  - unfold debounce_fires. destruct (_debounceTimer (coll k' s)); by destruct k, k'.
  - unfold handleLoadMore.
    destruct (_isSearchActive k' s || _loading (coll k' s)); by destruct k, k'.
  - unfold _handleRowAction.
    destruct (String.eqb a "view"); [|destruct (String.eqb a "delete")];
      by destruct k.
  - by destruct k, k'.
  - by destruct k.
  - by destruct k, k'.
  - unfold handleSort.
    destruct (_isSearchActive k' _); destruct (_sortData _ _ _ _);
      by destruct k, k'.
  - by destruct k.
  - by destruct k.
  - destruct (pending s !! i) as [t|] eqn:Hi; [|by destruct k].
    destruct t as [rf|k' term by_|k' off|k' row|k' dv|k' dv|k' cc c], r; simpl;
      try (by destruct k).
    + destruct (Promise_all4 _ _ _ _) as [[[[??]?]?]|?]; by destruct rf, k.
    + unfold _executeSearch_resume, _reloadData.
      destruct by_; destruct r; try destruct (String.eqb _ term);
        by destruct k, k'.
    + unfold handleLoadMore_resume.
      destruct r; try destruct (_ <? _)%nat; by destruct k, k'.
    + unfold _deleteRow_resume, resync.
      destruct r; try destruct (_isSearchActive _ _); by destruct k, k'.
    + case_decide; [|by destruct k]. simpl. unfold handleSave_updated.
      destruct (Promise_all rs); by destruct k.
    + unfold handleSave_notified, resync.
      destruct r; try destruct (_isSearchActive _ _); by destruct k, k'.
    + unfold _reloadData_resume.
      destruct (Promise_all2 _ _) as [[??]|?]; by destruct k, k'.
Qed.

Lemma step_searches_are_for_terms s e :
  searches_are_for_terms s -> searches_are_for_terms (step s e).
Proof.
  intros [HJ HT]. split; [|by apply step_timer_not_blank].
  intros k term by_.
  set (P := fun t : Task => match t with
                            | AwaitSearch _ term _ => term <> "" /\ trim term = term
                            | _ => True
                            end).
  assert (forall t, t ∈ pending s -> P t) as HP.
  { intros [] Hin; simpl; try done. by eapply HJ. }
  assert (forall t, t ∈ pending (step s e) -> P t) as HP';
    [|intros Hin; exact (HP' _ Hin)].
  clear k term by_. intros t.
  assert (forall (s' : State) t',
             pending s' = pending s -> P t' ->
             t ∈ pending (await t' s') -> P t) as Hawait.
  { intros s' t' Hp Ht'. simpl. rewrite Hp, elem_of_app, list_elem_of_singleton.
    intros [?| ->]; auto. }
  assert (forall (s' : State), pending s' = pending s -> t ∈ pending s' -> P t)
    as Hsame by (intros s' ->; auto).
  assert (forall k, _isSearchActive k s = true ->
             P (AwaitSearch k (trim (searchTerm (coll k s))) (ByMutation ByDelete)))
    as Hactive.
  { intros k Hk. simpl. rewrite isSearchActive_trim in Hk.
    apply negb_true_iff, String.eqb_neq in Hk. by rewrite trim_idemp. }
  destruct e as [| |k' v|k'|k'|k' a row|k' d|k'|k'|k' f dir| |tab|i r]; simpl.
  - by apply Hawait.
  - by apply Hsame; destruct s.
  - apply Hsame. unfold handleSearch.
    destruct (String.eqb v "" || String.eqb (trim v) ""); by destruct k'.
  - unfold debounce_fires, _executeSearch.
    destruct (_debounceTimer (coll k' s)) as [v|] eqn:Ev; [|auto].
    apply Hawait; [by destruct k'|]. simpl.
    split; [by eapply HT|apply trim_idemp].
  - unfold handleLoadMore.
    destruct (_isSearchActive k' s || _loading (coll k' s)); [auto|].
    apply Hawait; [by destruct k'|done].
  - unfold _handleRowAction, _deleteRow.
    destruct (String.eqb a "view"); [by apply Hsame|].
    destruct (String.eqb a "delete"); [|auto].
    by apply Hawait.
  - apply Hsame. by destruct k'.
  - by apply Hawait.
  - apply Hsame. by destruct k'.
  - apply Hsame. unfold handleSort.
    destruct (_isSearchActive k' _); destruct (_sortData _ _ _ _);
      by destruct k'.
  - by apply Hawait.
  - by apply Hsame.
  - destruct (pending s !! i) as [t0|] eqn:Hi; [|auto].
    set (s0 := set_pending (delete i (pending s)) s) in *.
    assert (forall (s' : State) t',
               pending s' = pending s0 -> P t' ->
               t ∈ pending (await t' s') -> P t) as Hawait0.
    { intros s' t' Hp Ht'. simpl. rewrite Hp, elem_of_app, list_elem_of_singleton.
      intros [Hd| ->]; [|done].
      apply HP, (list_elem_of_delete_inv _ i). exact Hd. }
    assert (forall (s' : State), pending s' = pending s0 -> t ∈ pending s' -> P t)
      as Hsame0.
    { intros s' ->. intros Hd. apply HP, (list_elem_of_delete_inv _ i). exact Hd. }
    assert (forall k c (s' : State),
               searchTerm (coll k s') = searchTerm (coll k s) ->
               _isSearchActive k s' = true ->
               P (AwaitSearch k (trim (searchTerm (coll k s'))) (ByMutation c)))
      as Hactive0.
    { intros k c s' Et Hk. simpl. rewrite isSearchActive_trim in Hk.
      apply negb_true_iff, String.eqb_neq in Hk. by rewrite trim_idemp. }
    destruct t0 as [rf|k' term by_|k' off|k' row|k' dv|k' dv|k' cc c], r;
      simpl; auto.
    + apply Hsame0.
      destruct (Promise_all4 _ _ _ _) as [[[[??]?]?]|?]; by destruct rf.
    + unfold _executeSearch_resume, _reloadData.
      destruct by_; [apply Hsame0|apply Hawait0; [|done]];
        destruct r; try destruct (String.eqb _ term); by destruct k'.
    + apply Hsame0. unfold handleLoadMore_resume.
      destruct r; try destruct (_ <? _)%nat; by destruct k'.
    + unfold _deleteRow_resume, resync, _executeSearch, _reloadData.
      destruct r as [[]|err]; [|apply Hsame0; by destruct k'].
      destruct (_isSearchActive _ _) eqn:Ea.
      * apply Hawait0; [by destruct k'|].
        apply Hactive0; [by destruct k'|done].
      * apply Hawait0; [by destruct k'|done].
    + case_decide; [|auto]. simpl. unfold handleSave_updated.
      destruct (Promise_all rs); [apply Hawait0; [|done]|apply Hsame0];
        by destruct k'.
    + unfold handleSave_notified, resync, _executeSearch, _reloadData.
      destruct r as [[]|err]; [|apply Hsame0; by destruct k'].
      destruct (_isSearchActive _ _) eqn:Ea.
      * apply Hawait0; [destruct k'; reflexivity|].
        apply Hactive0; [by destruct k'|done].
      * apply Hawait0; [destruct k'; reflexivity|done].
    + apply Hsame0. unfold _reloadData_resume.
      destruct (Promise_all2 _ _) as [[??]|?]; by destruct k'.
Qed.

Lemma step_blank_holds_no_rows s e :
  searches_are_for_terms s -> blank_holds_no_rows s ->
  blank_holds_no_rows (step s e).
Proof.
  intros [HJ _] HI k.
  pose proof (HI Contact) as HC. pose proof (HI Opportunity) as HO.
  destruct e as [| |k' v|k'|k'|k' a row|k' d|k'|k'|k' f dir| |tab|i r]; simpl.
  - by destruct k.
  - by destruct k.
  - unfold handleSearch.
    destruct (String.eqb v "" || String.eqb (trim v) "") eqn:E.
    + by destruct k, k'.
    + apply orb_false_iff in E as [_ E]. apply String.eqb_neq in E.
      by destruct k, k'.
  - unfold debounce_fires. destruct (_debounceTimer (coll k' s)); by destruct k, k'.
  - unfold handleLoadMore.
    destruct (_isSearchActive k' s || _loading (coll k' s)); by destruct k, k'.
  - unfold _handleRowAction.
    destruct (String.eqb a "view"); [|destruct (String.eqb a "delete")];
      by destruct k.
  - by destruct k, k'.
  - by destruct k.
  - by destruct k, k'.
  - unfold handleSort.
    rewrite !isSearchActive_upd by (by destruct k').
    destruct (_isSearchActive k' s) eqn:Ea.
    + rewrite isSearchActive_trim in Ea.
      apply negb_true_iff, String.eqb_neq in Ea.
      destruct (_sortData _ _ _ _); by destruct k, k'.
    + destruct (_sortData _ _ _ _); by destruct k, k'.
  - by destruct k.
  - by destruct k.
  - destruct (pending s !! i) as [t|] eqn:Hi; [|by destruct k].
    destruct t as [rf|k' term by_|k' off|k' row|k' dv|k' dv|k' cc c], r; simpl;
      try (by destruct k).
    + destruct (Promise_all4 _ _ _ _) as [[[[??]?]?]|?]; by destruct rf, k.
    + assert (term <> "") as Hterm.
      { eapply (HJ k' term by_), list_elem_of_lookup_2, Hi. }
      unfold _executeSearch_resume, _reloadData.
      destruct r as [result|err].
      * replace (searchTerm (coll k' (set_pending _ s)))
          with (searchTerm (coll k' s)) by (by destruct k').
        destruct (String.eqb_spec (trim (searchTerm (coll k' s))) term) as [Et|Et].
        -- destruct by_; destruct k, k'; simpl in *; try done; congruence.
        -- destruct by_; by destruct k, k'.
      * destruct by_; by destruct k, k'.
    + unfold handleLoadMore_resume.
      destruct r; try destruct (_ <? _)%nat; by destruct k, k'.
    + unfold _deleteRow_resume, resync.
      destruct r; try destruct (_isSearchActive _ _); by destruct k, k'.
    + case_decide; [|by destruct k]. simpl. unfold handleSave_updated.
      destruct (Promise_all rs); by destruct k.
    + unfold handleSave_notified, resync.
      destruct r; try destruct (_isSearchActive _ _); by destruct k, k'.
    + unfold _reloadData_resume.
      destruct (Promise_all2 _ _) as [[??]|?]; by destruct k, k'.
Qed.

(** X5. In every state the component reaches, each search in flight,
    whether the debounce timer or a save or delete started it, is for a
    term that is trimmed and not empty: no search is ever sent for a
    blank term. *)
Theorem searches_are_never_for_blank_terms :
  forall s, reachable s ->
    forall k term by_,
      AwaitSearch k term by_ ∈ pending s -> term <> "" /\ trim term = term.
Proof.
  intros s Hr.
  assert (searches_are_for_terms s) as [HJ _]; [|exact HJ].
  revert s Hr. apply reachable_ind; [|apply step_searches_are_for_terms].
  split; [by intros ??? ?%elem_of_nil|by intros []].
Qed.

(** X6. In every state the component reaches, a collection whose search
    box is blank holds no search rows: once the box is cleared, the
    responses of earlier searches, whenever they arrive and whatever
    they bring, put no rows back. *)
Theorem blank_search_holds_no_rows :
  forall s, reachable s ->
    forall k, trim (searchTerm (coll k s)) = "" ->
      _search (coll k s) = [] /\ displayed k s = _paginated (coll k s).
Proof.
  intros s Hr k Hk.
  assert (searches_are_for_terms s /\ blank_holds_no_rows s) as [_ HI].
  { clear k Hk. revert s Hr.
    apply (reachable_ind (fun s => searches_are_for_terms s /\ blank_holds_no_rows s)).
    - split; [split; [by intros ??? ?%elem_of_nil|by intros []]|by intros []].
    - intros s e [HJ HI]. split; [by apply step_searches_are_for_terms|].
      by apply step_blank_holds_no_rows. }
  split; [by apply HI|].
  unfold displayed. by rewrite isSearchActive_trim, Hk.
Qed.

(** ** Record links *)

Lemma addRecordUrls_linked records :
  Forall linked (_addRecordUrls NumberToString records).
Proof.
  unfold _addRecordUrls. apply Forall_fmap, Forall_true. intros a.
  unfold linked, prop; simpl.
  by rewrite lookup_insert_eq, lookup_insert_ne.
Qed.

Lemma sortData_linked data f dir sorted :
  _sortData StringToNumber data f dir = Some sorted ->
  Forall linked data -> Forall linked sorted.
Proof. intros E H. by rewrite (Array_sort_Permutation _ _ _ E). Qed.

Lemma step_rows_linked s e : rows_linked s -> rows_linked (step s e).
Proof.
  intros H k.
  pose proof (H Contact) as [HCp HCs]. pose proof (H Opportunity) as [HOp HOs].
  simpl in HCp, HCs, HOp, HOs.
  pose proof addRecordUrls_linked as Hadd.
  destruct e as [| |k' v|k'|k'|k' a row|k' d|k'|k'|k' f dir| |tab|i r]; simpl.
  - by destruct k.
  - by destruct k.
  - unfold handleSearch.
    destruct (String.eqb v "" || String.eqb (trim v) ""); by destruct k, k'.
  - unfold debounce_fires. destruct (_debounceTimer (coll k' s)); by destruct k, k'.
  - unfold handleLoadMore.
    destruct (_isSearchActive k' s || _loading (coll k' s)); by destruct k, k'.
  - unfold _handleRowAction.
    destruct (String.eqb a "view"); [|destruct (String.eqb a "delete")];
      by destruct k.
  - by destruct k, k'.
  - by destruct k.
  - by destruct k, k'.
  - unfold handleSort.
    destruct (_isSearchActive k' _);
      destruct (_sortData _ _ _ _) as [sorted|] eqn:E;
      try (by destruct k, k');
      apply sortData_linked in E; destruct k, k'; simpl in *; auto.
  - destruct k; simpl; auto.
  - by destruct k.
  - destruct (pending s !! i) as [t|] eqn:Hi; [|by destruct k].
    destruct t as [rf|k' term by_|k' off|k' row|k' dv|k' dv|k' cc c], r; simpl;
      try (by destruct k).
    + destruct (Promise_all4 _ _ _ _) as [[[[??]?]?]|?];
        destruct rf, k; simpl; auto.
    + unfold _executeSearch_resume, _reloadData.
      destruct by_; destruct r; try destruct (String.eqb _ term);
        destruct k, k'; simpl; auto.
    + unfold handleLoadMore_resume.
      destruct r; try destruct (_ <? _)%nat;
        destruct k, k'; simpl; auto using Forall_app_2.
    + unfold _deleteRow_resume, resync.
      destruct r; try destruct (_isSearchActive _ _); by destruct k, k'.
    + case_decide; [|by destruct k]. simpl. unfold handleSave_updated.
      destruct (Promise_all rs); by destruct k.
    + unfold handleSave_notified, resync.
      destruct r; try destruct (_isSearchActive _ _); by destruct k, k'.
    + unfold _reloadData_resume.
      destruct (Promise_all2 _ _) as [[??]|?];
        destruct k, k'; simpl; auto.
Qed.

(** X7. In every state the component reaches, every row it holds,
    paginated or searched, carries the link [recordUrl] that
    [_addRecordUrls] derives from the row's own Id, "/" followed by the
    Id; sorting and appending pages keep it so. *)
Theorem held_rows_carry_their_link :
  forall s, reachable s ->
    forall k a, a ∈ displayed k s ->
      a !! "recordUrl" = Some (VString ("/" +:+ ToString NumberToString (prop a "Id"))).
Proof.
  intros s Hr k a Ha.
  assert (rows_linked s) as H.
  { clear k a Ha. revert s Hr.
    apply reachable_ind; [|apply step_rows_linked].
    intros []; split; constructor. }
  destruct (H k) as [Hp Hs]. unfold displayed in Ha.
  rewrite Forall_forall in Hs. rewrite Forall_forall in Hp.
  destruct (_isSearchActive k s); [by apply Hs|by apply Hp].
Qed.

(** ** The saving flag *)

Lemma Exists_delete_other {A} (P : A -> Prop) (l : list A) i t :
  l !! i = Some t -> ~ P t -> Exists P l -> Exists P (delete i l).
Proof.
  intros Hi Ht. rewrite !Exists_exists. intros (x & Hx & HP).
  exists x. split; [|done].
  apply list_elem_of_lookup in Hx as [j Hj].
  destruct (decide (j = i)) as [->|Hne]; [congruence|].
  apply list_elem_of_lookup.
  destruct (decide (j < i)%nat).
  - exists j. by rewrite list_lookup_delete_lt.
  - exists (pred j). rewrite list_lookup_delete_ge by lia.
    by replace (S (pred j)) with j by lia.
Qed.

Lemma step_saving_has_task s e :
  (isSaving s = true -> Exists (fun t => is_mutation_task t = true) (pending s)) ->
  isSaving (step s e) = true ->
  Exists (fun t => is_mutation_task t = true) (pending (step s e)).
Proof.
  intros H.
  assert (forall (s' : State) t,
             is_mutation_task t = true ->
             Exists (fun t => is_mutation_task t = true) (pending (await t s')))
    as Hnew.
  { intros s' t Ht. simpl. apply Exists_app. right. by constructor. }
  assert (forall (s' : State),
             pending s' = pending s -> isSaving s' = isSaving s ->
             isSaving s' = true ->
             Exists (fun t => is_mutation_task t = true) (pending s')) as Hsame.
  { intros s' -> ->. exact H. }
  assert (forall (s' : State) t,
             pending s' = pending s -> isSaving s' = isSaving s ->
             isSaving (await t s') = true ->
             Exists (fun t => is_mutation_task t = true) (pending (await t s')))
    as Hawait.
  { intros s' t Hp Hs. simpl. rewrite Hp, Hs. intros Ht.
    apply Exists_app. left. auto. }
  destruct e as [| |k' v|k'|k'|k' a row|k' d|k'|k'|k' f dir| |tab|i r]; simpl.
  - by apply Hawait.
  - apply Hsame; by destruct s.
  - apply Hsame; unfold handleSearch;
      destruct (String.eqb v "" || String.eqb (trim v) ""); by destruct k'.
  - unfold debounce_fires, _executeSearch.
    destruct (_debounceTimer (coll k' s)); [|done].
    apply Hawait; by destruct k'.
  - unfold handleLoadMore.
    destruct (_isSearchActive k' s || _loading (coll k' s)); [done|].
    apply Hawait; by destruct k'.
  - unfold _handleRowAction, _deleteRow.
    destruct (String.eqb a "view"); [by apply Hsame|].
    destruct (String.eqb a "delete"); [|done].
    intros _. by apply Hnew.
  - apply Hsame; by destruct k'.
  - intros _. by apply Hnew.
  - apply Hsame; by destruct k'.
  - apply Hsame; unfold handleSort;
      destruct (_isSearchActive k' _); destruct (_sortData _ _ _ _);
      by destruct k'.
  - by apply Hawait.
  - by apply Hsame.
  - destruct (pending s !! i) as [t|] eqn:Hi; [|done].
    set (s0 := set_pending (delete i (pending s)) s) in *.
    assert (forall (s' : State),
               is_mutation_task t = false ->
               pending s' = pending s0 -> isSaving s' = isSaving s ->
               isSaving s' = true ->
               Exists (fun t => is_mutation_task t = true) (pending s')) as Hsame0.
    { intros s' Ht -> ->. intros Hs. simpl.
      apply (Exists_delete_other _ _ _ t Hi); [by rewrite Ht|auto]. }
    destruct t as [rf|k' term by_|k' off|k' row|k' dv|k' dv|k' cc c], r;
      simpl; try done.
    + apply Hsame0; [done|..];
        destruct (Promise_all4 _ _ _ _) as [[[[??]?]?]|?]; by destruct rf.
    + unfold _executeSearch_resume, _reloadData.
      destruct by_ as [|c].
      * apply Hsame0; [done|..];
          destruct r; try destruct (String.eqb _ term); by destruct k'.
      * intros _. by apply Hnew.
    + apply Hsame0; [done|..]; unfold handleLoadMore_resume;
        destruct r; try destruct (_ <? _)%nat; by destruct k'.
    + unfold _deleteRow_resume, resync, _executeSearch, _reloadData.
      destruct r; [|done].
      destruct (_isSearchActive _ _); intros _; by apply Hnew.
    + case_decide; [|done]. simpl. unfold handleSave_updated.
      destruct (Promise_all rs); [|done]. intros _. by apply Hnew.
    + unfold handleSave_notified, resync, _executeSearch, _reloadData.
      destruct r; [|done].
      destruct (_isSearchActive _ _); intros _; by apply Hnew.
    + unfold _reloadData_resume.
      by destruct (Promise_all2 _ _) as [[??]|?].
Qed.

(** X8. In every state the component reaches, [isSaving] is set only
    while a save or a delete is still in flight (one of its requests, or
    the search or reload that follows it, is awaited): the saving state
    is never left on with nothing pending. *)
Theorem saving_only_while_a_mutation_is_in_flight :
  forall s, reachable s ->
    isSaving s = true ->
    exists t, t ∈ pending s /\ is_mutation_task t = true.
Proof.
  intros s Hr Hs. apply Exists_exists. revert s Hr Hs.
  refine (reachable_ind
            (fun s => isSaving s = true ->
                      Exists (fun t => is_mutation_task t = true) (pending s))
            _ _); [done|].
  intros s e. apply step_saving_has_task.
Qed.

(** ** The two collections are independent *)

(** X9. An event of one collection (a keystroke, the timer, a load-more,
    a row action, an edit, a save, a cancel, a sort, or the settling of a
    request made for that collection) leaves every field of the other
    collection as it was.  Only the initial load and the refresh touch
    both. *)
Theorem events_of_one_collection_leave_the_other :
  forall s e k k',
    event_kind s e = Some k -> k' <> k ->
    coll k' (step s e) = coll k' s.
Proof.
  intros s e k k' He Hk.
  destruct e as [| |j v|j|j|j a row|j d|j|j|j f dir| |tab|i r];
    simpl in He; try discriminate; simpl.
  - injection He as ->. unfold handleSearch.
    destruct (String.eqb v "" || String.eqb (trim v) "");
      by destruct k, k', s.
  - injection He as ->. unfold debounce_fires, _executeSearch.
    destruct (_debounceTimer (coll k s)); [|done]. by destruct k, k', s.
  - injection He as ->. unfold handleLoadMore.
    destruct (_isSearchActive k s || _loading (coll k s)); [done|].
    by destruct k, k', s.
  - injection He as ->. unfold _handleRowAction, _deleteRow.
    destruct (String.eqb a "view"); [by destruct s|].
    destruct (String.eqb a "delete"); [|done]. by destruct s.
  - injection He as ->. by destruct k, k', s.
  - injection He as ->. by destruct s.
  - injection He as ->. by destruct k, k', s.
  - injection He as ->. unfold handleSort.
    destruct (_isSearchActive k _); destruct (_sortData _ _ _ _);
      by destruct k, k', s.
  - destruct (pending s !! i) as [t|] eqn:Hi; [|done]. simpl in He.
    destruct t as [rf|j term by_|j off|j row|j dv|j dv|j cc c];
      simpl in He; try discriminate; injection He as ->;
      destruct r; simpl; try done.
    + unfold _executeSearch_resume, _reloadData.
      destruct by_; destruct r; try destruct (String.eqb _ term);
        by destruct k, k', s.
    + unfold handleLoadMore_resume.
      destruct r; try destruct (_ <? _)%nat; by destruct k, k', s.
    + unfold _deleteRow_resume, resync, _executeSearch, _reloadData.
      destruct r; [|by destruct s].
      destruct (_isSearchActive _ _); by destruct k, k', s.
    + case_decide; [|done]. simpl. unfold handleSave_updated.
      destruct (Promise_all rs); by destruct s.
    + unfold handleSave_notified, resync, _executeSearch, _reloadData.
      destruct r; [|by destruct s].
      destruct (_isSearchActive _ _); by destruct k, k', s.
    + unfold _reloadData_resume.
      destruct (Promise_all2 _ _) as [[??]|?]; by destruct k, k', s.
Qed.

(** ** Where the error and the total count are written *)

(** X10. The error of a collection is written by the completion of an
    initial load and by nothing else: a failed search, load-more, save,
    delete or reload never sets it, and neither a refresh nor any later
    success clears it before the next initial load completes. *)
Theorem error_written_only_by_initial_load :
  forall s e k,
    completes_initial_load s e = false ->
    error (coll k (step s e)) = error (coll k s).
Proof.
  intros s e k He.
  destruct e as [| |j v|j|j|j a row|j d|j|j|j f dir| |tab|i r]; simpl.
  - by destruct k, s.
  - by destruct k, s.
  - unfold handleSearch.
    destruct (String.eqb v "" || String.eqb (trim v) "");
      by destruct k, j, s.
  - unfold debounce_fires, _executeSearch.
    destruct (_debounceTimer (coll j s)); [|done]. by destruct k, j, s.
  - unfold handleLoadMore.
    destruct (_isSearchActive j s || _loading (coll j s)); [done|].
    by destruct k, j, s.
  - unfold _handleRowAction, _deleteRow.
    destruct (String.eqb a "view"); [by destruct s|].
    destruct (String.eqb a "delete"); [|done]. by destruct s.
  - by destruct k, j, s.
  - by destruct s.
  - by destruct k, j, s.
  - unfold handleSort.
    destruct (_isSearchActive j _); destruct (_sortData _ _ _ _);
      by destruct k, j, s.
  - by destruct k, s.
  - by destruct s.
  - simpl in He.
    destruct (pending s !! i) as [t|] eqn:Hi; [|done].
    destruct t as [rf|j term by_|j off|j row|j dv|j dv|j cc c];
      destruct r; simpl; try done.
    + unfold _executeSearch_resume, _reloadData.
      destruct by_; destruct r; try destruct (String.eqb _ term);
        by destruct k, j, s.
    + unfold handleLoadMore_resume.
      destruct r; try destruct (_ <? _)%nat; by destruct k, j, s.
    + unfold _deleteRow_resume, resync, _executeSearch, _reloadData.
      destruct r; [|by destruct s].
      destruct (_isSearchActive _ _); by destruct k, j, s.
    + case_decide; [|done]. simpl. unfold handleSave_updated.
      destruct (Promise_all rs); by destruct s.
    + unfold handleSave_notified, resync, _executeSearch, _reloadData.
      destruct r; [|by destruct s].
      destruct (_isSearchActive _ _); by destruct k, j, s.
    + unfold _reloadData_resume.
      destruct (Promise_all2 _ _) as [[??]|?]; by destruct k, j, s.
Qed.

(** X11. The total count of a collection (the number on its tab badge)
    is written by the completion of an initial load and of a reload of
    that collection, and by nothing else: neither a search, a load-more
    nor a refresh before its load completes changes the badge. *)
Theorem total_count_written_only_by_loads :
  forall s e k,
    completes_initial_load s e = false ->
    completes_reload k s e = false ->
    totalCount (coll k (step s e)) = totalCount (coll k s) /\
    badge k (step s e) = badge k s.
Proof.
  intros s e k He He'.
  cut (totalCount (coll k (step s e)) = totalCount (coll k s)).
  { intros H. split; [done|]. unfold badge. by rewrite H. }
  destruct e as [| |j v|j|j|j a row|j d|j|j|j f dir| |tab|i r]; simpl.
  - by destruct k, s.
  - by destruct k, s.
  - unfold handleSearch.
    destruct (String.eqb v "" || String.eqb (trim v) "");
      by destruct k, j, s.
  - unfold debounce_fires, _executeSearch.
    destruct (_debounceTimer (coll j s)); [|done]. by destruct k, j, s.
  - unfold handleLoadMore.
    destruct (_isSearchActive j s || _loading (coll j s)); [done|].
    by destruct k, j, s.
  - unfold _handleRowAction, _deleteRow.
    destruct (String.eqb a "view"); [by destruct s|].
    destruct (String.eqb a "delete"); [|done]. by destruct s.
  - by destruct k, j, s.
  - by destruct s.
  - by destruct k, j, s.
  - unfold handleSort.
    destruct (_isSearchActive j _); destruct (_sortData _ _ _ _);
      by destruct k, j, s.
  - by destruct k, s.
  - by destruct s.
  - simpl in He, He'.
    destruct (pending s !! i) as [t|] eqn:Hi; [|done].
    destruct t as [rf|j term by_|j off|j row|j dv|j dv|j cc c];
      destruct r; simpl; try done.
    + unfold _executeSearch_resume, _reloadData.
      destruct by_; destruct r; try destruct (String.eqb _ term);
        by destruct k, j, s.
    + unfold handleLoadMore_resume.
      destruct r; try destruct (_ <? _)%nat; by destruct k, j, s.
    + unfold _deleteRow_resume, resync, _executeSearch, _reloadData.
      destruct r; [|by destruct s].
      destruct (_isSearchActive _ _); by destruct k, j, s.
    + case_decide; [|done]. simpl. unfold handleSave_updated.
      destruct (Promise_all rs); by destruct s.
    + unfold handleSave_notified, resync, _executeSearch, _reloadData.
      destruct r; [|by destruct s].
      destruct (_isSearchActive _ _); by destruct k, j, s.
    + unfold _reloadData_resume.
      destruct (Promise_all2 _ _) as [[??]|?];
        destruct k, j; try done; by destruct s.
Qed.

(** ** What a sort leaves alone *)

(** X12. A sort of a collection, in any direction and on any field,
    rearranges the rows shown and nothing else.  When the sort returns,
    the rows shown afterwards are its result, a permutation of the rows
    shown before, and nothing is reported.  When the sort throws, which
    it does only when the comparator throws on two of the rows shown,
    the handler is left before the assignment: the rows shown, and both
    arrays, are exactly what they were, and the error is uncaught.
    Either way the array that is not shown, the offset, the total count,
    the infinite-loading flag, the search term and the requests in
    flight are as they were, and no request is sent.  The sorted column
    and direction are recorded before the rows are sorted, so they are
    recorded also when the sort throws. *)
Theorem sort_rearranges_the_active_rows_only :
  forall s k fieldName dir,
    let s' := step s (Sort k fieldName dir) in
    let sortField := if String.eqb fieldName "recordUrl" then "Name" else fieldName in
    match _sortData StringToNumber (displayed k s) sortField dir with
    | Some sorted =>
        displayed k s' = sorted /\ sorted ≡ₚ displayed k s /\
        outputs s' = outputs s
    | None =>
        displayed k s' = displayed k s /\
        _paginated (coll k s') = _paginated (coll k s) /\
        _search (coll k s') = _search (coll k s) /\
        outputs s' = outputs s ++ [UncaughtTypeError] /\
        exists a b, a ∈ displayed k s /\ b ∈ displayed k s /\
                    comparator StringToNumber sortField dir a b = None
    end /\
    displayed k s' ≡ₚ displayed k s /\
    (if _isSearchActive k s then _paginated (coll k s') = _paginated (coll k s)
     else _search (coll k s') = _search (coll k s)) /\
    _isSearchActive k s' = _isSearchActive k s /\
    _offset (coll k s') = _offset (coll k s) /\
    totalCount (coll k s') = totalCount (coll k s) /\
    enableInfiniteLoading (coll k s') = enableInfiniteLoading (coll k s) /\
    searchTerm (coll k s') = searchTerm (coll k s) /\
    pending s' = pending s /\
    sortBy (coll k s') = Some fieldName /\
    sortDirection (coll k s') = Some dir.
Proof.
  intros s k f dir s' sortField. subst s' sortField. simpl.
  unfold handleSort, displayed.
  rewrite !isSearchActive_upd by (by destruct k).
  destruct (_isSearchActive k s) eqn:E;
    unfold _isSearchActive in *; destruct k; simpl in *; rewrite ?E.
  all: match goal with
       | |- context [_sortData ?f ?data ?field ?d] =>
           destruct (_sortData f data field d) as [sorted|] eqn:Es
       end.
  all: try (pose proof (Array_sort_Permutation _ _ _ Es) as Hp).
  all: try (apply Array_sort_throws in Es as (a & b & Ha & Hb & Hc)).
  all: simpl; rewrite ?E; repeat split; try done; by eauto.
Qed.

(** ** Delete *)

(** X13. When [deleteRecord] rejects, nothing the component holds
    changes: both collections are exactly as they were, no further
    request is sent, one error toast "Error Deleting Record" carries the
    server's message (or the fallback text), and the saving state ends. *)
Theorem delete_failure_changes_nothing_held :
  forall s i k row e,
    pending s !! i = Some (AwaitDelete k row) ->
    let s' := step s (Settles i (OfVoid (Rejected e))) in
    contact s' = contact s /\ opportunity s' = opportunity s /\
    pending s' = delete i (pending s) /\
    outputs s' = outputs s ++
      [ShowToast "Error Deleting Record"
         (message_or e "An unexpected error occurred") "error"] /\
    isSaving s' = false /\ isLoading s' = isLoading s.
Proof.
  intros s i k row e Hi s'. subst s'. simpl. rewrite Hi. simpl.
  by destruct s.
Qed.

(** X14. When [deleteRecord] succeeds, the component shows the toast
    "Deleted" naming the row (or "Record" when its Name is falsy) and
    asks the server again, and until the answer arrives the rows held,
    the deleted one among them, stay as they are: a search for the
    trimmed current term when a search is active, a reload of as many
    rows as the offset counts otherwise.  The saving state stays on. *)
Theorem delete_success_keeps_rows_until_reloaded :
  forall s i k row,
    pending s !! i = Some (AwaitDelete k row) ->
    let s' := step s (Settles i (OfVoid (Fulfilled tt))) in
    outputs s' = outputs s ++
      [ShowToast "Deleted"
         (ToString NumberToString (js_or (prop row "Name") (VString "Record"))
          +:+ " has been deleted") "success"] /\
    pending s' = delete i (pending s) ++
      [if _isSearchActive k s
       then AwaitSearch k (trim (searchTerm (coll k s))) (ByMutation ByDelete)
       else AwaitReload k (_offset (coll k s)) ByDelete] /\
    (forall k', _paginated (coll k' s') = _paginated (coll k' s) /\
                _search (coll k' s') = _search (coll k' s) /\
                totalCount (coll k' s') = totalCount (coll k' s) /\
                displayed k' s' = displayed k' s) /\
    isSaving s' = isSaving s.
Proof.
  intros s i k row Hi s'. subst s'. simpl. rewrite Hi. simpl.
  unfold _deleteRow_resume, resync, _executeSearch, _reloadData, displayed.
  assert (_isSearchActive k
            (emit (ShowToast "Deleted"
                     (ToString NumberToString
                        (js_or (prop row "Name") (VString "Record"))
                      +:+ " has been deleted") "success")
               (set_pending (delete i (pending s)) s))
          = _isSearchActive k s) as -> by (by destruct k, s).
  destruct (_isSearchActive k s) eqn:E.
  - split; [destruct k, s; reflexivity|]. split; [destruct k, s; reflexivity|].
    split; [|destruct k, s; reflexivity].
    intros k'. unfold _isSearchActive. destruct k, k', s; by repeat split.
  - split; [destruct k, s; reflexivity|]. split; [destruct k, s; reflexivity|].
    split; [|destruct k, s; reflexivity].
    intros k'. unfold _isSearchActive. destruct k, k', s; by repeat split.
Qed.

(** ** The search and the reload that follow a save or a delete *)

(** X15. The search that a save or a delete re-runs is always followed
    by the reload of the paginated rows, whether the search succeeds or
    fails: a failed search is logged on the console and empties the
    search rows, but shows no toast, does not end the saving state, and
    does not stop the reload. *)
Theorem search_after_mutation_always_continues_to_reload :
  forall s i k term c r,
    pending s !! i = Some (AwaitSearch k term (ByMutation c)) ->
    let s' := step s (Settles i (OfRows r)) in
    pending s' = delete i (pending s) ++ [AwaitReload k (_offset (coll k s)) c] /\
    outputs s' = outputs s ++
      match r with
      | Fulfilled _ => []
      | Rejected e => [ConsoleError ("Error searching " +:+ plural k +:+ ":") e]
      end /\
    isSaving s' = isSaving s /\
    _isSearching (coll k s') = false /\
    pagination (coll k s') = pagination (coll k s).
Proof.
  intros s i k term c r Hi s'. subst s'. simpl. rewrite Hi. simpl.
  unfold _executeSearch_resume, _reloadData, pagination.
  destruct r as [result|e].
  - destruct (String.eqb _ term);
      rewrite ?app_nil_r; by destruct k, s.
  - by destruct k, s.
Qed.

(** X16. When the reload that follows a save or a delete fails (either
    of its two requests rejects), the rows, counts, offsets and flags of
    both collections stay as they were, the saving state ends, and the
    failure is reported under the title of the mutation that asked for
    the reload, "Error Updating ..." or "Error Deleting Record", although
    the mutation itself went through. *)
Theorem reload_failure_is_reported_as_mutation_failure :
  forall s i k currentCount c result count,
    pending s !! i = Some (AwaitReload k currentCount c) ->
    is_Some (rejection result) \/ is_Some (rejection count) ->
    let s' := step s (Settles i (OfReload result count)) in
    exists e,
      (rejection result = Some e \/ rejection count = Some e) /\
      contact s' = contact s /\ opportunity s' = opportunity s /\
      pending s' = delete i (pending s) /\
      outputs s' = outputs s ++
        [ShowToast (error_title k c)
           (message_or e "An unexpected error occurred") "error"] /\
      isSaving s' = false.
Proof.
  intros s i k cc c result count Hi Hrej s'. subst s'. simpl. rewrite Hi. simpl.
  destruct (Promise_all2_rejected result count Hrej) as (e & -> & He).
  exists e. split; [done|]. simpl. by destruct s.
Qed.

(** ** Paging through a collection *)

Lemma take_next_page {A} (l : list A) (a b : nat) :
  take a l ++ take b (drop (Nat.min a (length l)) l) = take (a + b) l.
Proof.
  destruct (decide (a <= length l)%nat).
  - rewrite Nat.min_l by done. apply take_take_drop.
  - rewrite Nat.min_r by lia. rewrite drop_all, take_nil, app_nil_r.
    by rewrite !take_ge by lia.
Qed.

Lemma addRecordUrls_app l1 l2 :
  addUrls (l1 ++ l2) = addUrls l1 ++ addUrls l2.
Proof. unfold _addRecordUrls. by rewrite fmap_app. Qed.

Lemma load_more_answered_count g s k :
  pending s = [] -> searchTerm (coll k s) = "" -> _loading (coll k s) = false ->
  totalCount (coll k (answered g 0 (step s (LoadMore k)))) = totalCount (coll k s).
Proof.
  intros Hp Ht Hl.
  unfold answered. simpl. unfold handleLoadMore, _isSearchActive.
  rewrite Ht, Hl. simpl.
  assert (pending (upd k (set_datatable_isLoading true) (upd k (set__loading true) s))
          = []) as -> by (by destruct k).
  simpl. unfold handleLoadMore_resume.
  destruct (_ <? _)%nat eqn:E; destruct k; simpl in *; rewrite ?E; done.
Qed.

(** X17. Paging against the gateway, for any number of rows on the
    server and any number of pages asked for: after the initial load and
    [m] load-mores of a collection, each answered before the next, the
    component holds the first [PAGE_SIZE * (m + 1)] rows of the server's
    table (all of them when there are fewer), each with its link, in the
    server's order; the offset is their number, the badge shows the
    server's total, and infinite loading is still enabled exactly when
    the table has at least that many rows.  So a table whose length is a
    multiple of the page size takes one more, empty, page to turn
    infinite loading off. *)
Theorem paging_holds_a_prefix_of_the_table :
  forall g k m,
    let s := paged g k m in
    let n := (PAGE_SIZE * (m + 1))%nat in
    pending s = [] /\
    displayed k s = addUrls (take n (table g k)) /\
    _offset (coll k s) = Nat.min n (length (table g k)) /\
    totalCount (coll k s) = length (table g k) /\
    infiniteLoadingEnabled k s = bool_decide (n <= length (table g k))%nat.
Proof.
  intros g k m. cbv zeta.
  cut (pending (paged g k m) = [] /\
       _paginated (coll k (paged g k m))
       = addUrls (take (PAGE_SIZE * (m + 1))%nat (table g k)) /\
       _offset (coll k (paged g k m))
       = Nat.min (PAGE_SIZE * (m + 1)) (length (table g k)) /\
       totalCount (coll k (paged g k m)) = length (table g k) /\
       enableInfiniteLoading (coll k (paged g k m))
       = bool_decide (PAGE_SIZE * (m + 1) <= length (table g k))%nat /\
       searchTerm (coll k (paged g k m)) = "" /\
       _loading (coll k (paged g k m)) = false).
  { intros (Hp & Hr & Ho & Hc & Hf & Ht & _).
    unfold displayed, infiniteLoadingEnabled, _isSearchActive.
    rewrite Ht. simpl. by rewrite Hr, Ho, Hc, Hf. }
  induction m as [|m IH].
  - destruct (initial_load_answered g) as [Hp H].
    destruct (H k) as (Hr & Ho & Hf & Hc & Ht & Hl).
    change (paged g k 0) with (answered g 0 (step new_AccountRelatedRecords Connected)).
    rewrite Hp, Hr, Ho, Hf, Hc, Ht, Hl. unfold fetchPage, fetchCount.
    rewrite drop_0, length_take, Nat.mul_1_r.
    repeat split.
    case_bool_decide; [apply Nat.leb_le|apply Nat.leb_gt]; lia.
  - destruct IH as (Hp & Hr & Ho & Hc & Hf & Ht & Hl).
    destruct (load_more_answered g _ k Hp Ht Hl) as (Hp' & Hr' & Ho' & Hf' & Ht' & Hl').
    change (paged g k (S m)) with (answered g 0 (step (paged g k m) (LoadMore k))).
    rewrite Hp', Hr', Ho', Hf', Ht', Hl'.
    rewrite Hr, Ho, Hf. unfold fetchPage.
    rewrite <- addRecordUrls_app, take_next_page, length_take, length_drop.
    replace (PAGE_SIZE * (m + 1) + PAGE_SIZE)%nat with (PAGE_SIZE * (S m + 1))%nat
      by lia.
    split; [done|]. split; [done|]. split; [unfold PAGE_SIZE; lia|].
    split.
    { by rewrite (load_more_answered_count g _ k Hp Ht Hl). }
    split; [|done].
    match goal with
    | |- context [(?a <? ?b)%nat] => destruct (Nat.ltb_spec a b)
    end; repeat case_bool_decide; try done; unfold PAGE_SIZE in *; lia.
Qed.

(** X18. The reload that follows a save or a delete, answered by the
    gateway: the component asks for as many rows as it held when the
    reload was called, from the start of the table, and then holds that
    prefix of the server's table as it is now, each row with its link;
    the offset is the number of rows received, the badge shows the
    server's total, the search rows are not touched, the saving state
    ends without a toast, and infinite loading is enabled exactly when
    the server still has at least as many rows as were asked for (so it
    is enabled when none were held). *)
Theorem reload_holds_as_many_rows_as_before :
  forall g s i k currentCount c,
    pending s !! i = Some (AwaitReload k currentCount c) ->
    let s' := answered g i s in
    _paginated (coll k s') = addUrls (take currentCount (table g k)) /\
    _offset (coll k s') = Nat.min currentCount (length (table g k)) /\
    totalCount (coll k s') = length (table g k) /\
    enableInfiniteLoading (coll k s')
    = bool_decide (currentCount <= length (table g k))%nat /\
    _search (coll k s') = _search (coll k s) /\
    isSaving s' = false /\
    pending s' = delete i (pending s) /\
    outputs s' = outputs s.
Proof.
  intros g s i k cc c Hi s'. subst s'.
  unfold answered. rewrite Hi. simpl. rewrite Hi. simpl.
  unfold fetchPage, fetchCount. rewrite drop_0.
  assert ((cc <=? length (take cc (table g k)))%nat
          = bool_decide (cc <= length (table g k))%nat) as E.
  { rewrite length_take.
    case_bool_decide; [apply Nat.leb_le|apply Nat.leb_gt]; lia. }
  rewrite E. clear E.
  destruct k, s; simpl; rewrite ?length_take; by repeat split.
Qed.

(** ** The searching state *)

Ltac holds :=
  simpl in *;
  first [ assumption | done
        | intros ?; rewrite ?Exists_app;
          first [ by auto | left; by auto | right; by repeat constructor ] ].

Lemma step_searching_has_search s e :
  (forall k, _isSearching (coll k s) = true ->
             Exists (fun t => is_search k t = true) (pending s)) ->
  forall k, _isSearching (coll k (step s e)) = true ->
            Exists (fun t => is_search k t = true) (pending (step s e)).
Proof.
  intros H k. specialize (H k).
  destruct e as [| |j v|j|j|j a row|j d|j|j|j f dir| |tab|i r]; simpl.
  - destruct k, s; holds.
  - destruct k, s; holds.
  - unfold handleSearch.
    destruct (String.eqb v "" || String.eqb (trim v) "");
      destruct k, j, s; holds.
  - unfold debounce_fires, _executeSearch.
    destruct (_debounceTimer (coll j s)); [|done].
    destruct k, j, s; holds.
  - unfold handleLoadMore.
    destruct (_isSearchActive j s || _loading (coll j s)); [done|].
    destruct k, j, s; holds.
  - unfold _handleRowAction, _deleteRow.
    destruct (String.eqb a "view"); [destruct k, s; holds|].
    destruct (String.eqb a "delete"); [|done].
    destruct k, s; holds.
  - destruct k, j, s; holds.
  - destruct k, j, s; holds.
  - destruct k, j, s; holds.
  - unfold handleSort.
    destruct (_isSearchActive j _); destruct (_sortData _ _ _ _);
      destruct k, j, s; holds.
  - destruct k, s; holds.
  - destruct k, s; holds.
  - destruct (pending s !! i) as [t|] eqn:Hi; [|done].
    assert (is_search k t = false ->
            _isSearching (coll k s) = true ->
            Exists (fun t => is_search k t = true) (delete i (pending s))) as H0.
    { intros Ht Hs. apply (Exists_delete_other _ _ _ t Hi); [by rewrite Ht|auto]. }
    destruct t as [rf|j term by_|j off|j row|j dv|j dv|j cc c], r;
      simpl; try exact H.
    + destruct (Promise_all4 _ _ _ _) as [[[[??]?]?]|?]; destruct rf;
        destruct k, s; holds.
    + unfold _executeSearch_resume, _reloadData.
      destruct by_; destruct r; try destruct (String.eqb _ term);
        destruct k, j, s; holds.
    + unfold handleLoadMore_resume.
      destruct r; try destruct (_ <? _)%nat;
        destruct k, j, s; holds.
    + unfold _deleteRow_resume, resync, _executeSearch, _reloadData.
      destruct r; [|destruct k, s; holds].
      destruct (_isSearchActive _ _); destruct k, j, s; holds.
    + case_decide; [|destruct k, s; holds]. simpl. unfold handleSave_updated.
      destruct (Promise_all rs); destruct k, s; holds.
    + unfold handleSave_notified, resync, _executeSearch, _reloadData.
      destruct r; [|destruct k, s; holds].
      destruct (_isSearchActive _ _); destruct k, j, s; holds.
    + unfold _reloadData_resume.
      destruct (Promise_all2 _ _) as [[??]|?];
        destruct k, j, s; holds.
Qed.

(** X19. In every state the component reaches, the searching state of a
    collection is on only while a search of that collection is in
    flight; so the spinner that hides the empty state never stays on
    with no search left to end it. *)
Theorem searching_only_while_a_search_is_in_flight :
  forall s, reachable s ->
    forall k, _isSearching (coll k s) = true ->
      exists t, t ∈ pending s /\ is_search k t = true.
Proof.
  intros s Hr k Hs. apply Exists_exists. revert s Hr k Hs.
  refine (reachable_ind
            (fun s => forall k, _isSearching (coll k s) = true ->
                      Exists (fun t => is_search k t = true) (pending s))
            _ _); [by intros []|].
  intros s e. apply step_searching_has_search.
Qed.

(** ** What the page shows of a failed load *)

(** X20. A failed initial load, as the getters of the template show it:
    both tabs show the error banner with one and the same message (the
    message of a fetch that failed, or the collection's own fallback text
    when that message is missing or empty), the empty state is hidden on
    both, the rows shown and the badges are what they were, and the
    loading state ends. *)
Theorem failed_load_is_shown_as_error_on_both_tabs :
  forall s i refreshing contactsResult opportunitiesResult contactCount oppCount,
    pending s !! i = Some (AwaitInitialData refreshing) ->
    is_Some (rejection contactsResult) \/ is_Some (rejection opportunitiesResult) \/
    is_Some (rejection contactCount) \/ is_Some (rejection oppCount) ->
    let s' := step s (Settles i (OfInitialData contactsResult opportunitiesResult
                                   contactCount oppCount)) in
    isLoading s' = false /\
    exists e,
      (rejection contactsResult = Some e \/ rejection opportunitiesResult = Some e \/
       rejection contactCount = Some e \/ rejection oppCount = Some e) /\
      forall k,
        hasError k s' = true /\
        errorMessage k s' = message_or e (unknown_error k) /\
        showEmptyState k s' = false /\
        displayed k s' = displayed k s /\
        recordCount k s' = recordCount k s /\
        badge k s' = badge k s.
Proof.
  intros s i rf p1 p2 p3 p4 Hi Hrej s'. subst s'.
  rewrite (step_Settles _ _ _ _ Hi). simpl.
  destruct (Promise_all4_rejected p1 p2 p3 p4 Hrej) as (e & -> & He).
  split; [by destruct rf|].
  exists e. split; [done|].
  intros k. unfold hasError, errorMessage, showEmptyState, hasError, recordCount,
    hasRecords, badge, displayed, _isSearchActive.
  destruct rf, k, s; simpl; rewrite ?andb_false_r; by repeat split.
Qed.

(** ** Refresh *)

Lemma delete_last {A} (l : list A) (x : A) : delete (length l) (l ++ [x]) = l.
Proof. induction l as [|y l IH]; [done|]. simpl. by rewrite IH. Qed.

(** X21. A refresh always ends with the success toast "Refreshed": the
    load it awaits catches its own failures, so whatever the four
    fetches did, also when they failed, the handler goes on to the
    toast and never to its own "Refresh Failed" branch.  The loading
    state ends and no further request is sent. *)
Theorem refresh_reports_success_whatever_the_load_did :
  forall s i contactsResult opportunitiesResult contactCount oppCount,
    pending s !! i = Some (AwaitInitialData true) ->
    let s' := step s (Settles i (OfInitialData contactsResult opportunitiesResult
                                   contactCount oppCount)) in
    outputs s' = outputs s ++
      [ShowToast "Refreshed" "Data has been refreshed" "success"] /\
    isLoading s' = false /\
    pending s' = delete i (pending s).
Proof.
  intros s i p1 p2 p3 p4 Hi s'. subst s'.
  rewrite (step_Settles _ _ _ _ Hi). simpl.
  destruct (Promise_all4 p1 p2 p3 p4) as [[[[??]?]?]|?]; by destruct s.
Qed.

(** X22. A refresh whose load fails leaves the page empty: from any
    state, after the refresh and the failed load, both tabs show no
    rows, no search term and the error banner, the offsets are 0 and
    infinite loading is enabled, while the badges still show the totals
    from before the refresh and the toast reports success. *)
Theorem failed_refresh_leaves_the_page_empty :
  forall s contactsResult opportunitiesResult contactCount oppCount,
    is_Some (rejection contactsResult) \/ is_Some (rejection opportunitiesResult) \/
    is_Some (rejection contactCount) \/ is_Some (rejection oppCount) ->
    let s1 := step s Refresh in
    let s2 := step s1 (Settles (length (pending s))
                         (OfInitialData contactsResult opportunitiesResult
                            contactCount oppCount)) in
    (forall k,
        displayed k s1 = [] /\ displayed k s2 = [] /\
        searchTerm (coll k s2) = "" /\
        _offset (coll k s2) = 0%nat /\
        infiniteLoadingEnabled k s2 = true /\
        hasError k s2 = true /\
        badge k s2 = badge k s) /\
    isLoading s1 = true /\ isLoading s2 = false /\
    pending s2 = pending s /\
    outputs s2 = outputs s ++
      [ShowToast "Refreshed" "Data has been refreshed" "success"].
Proof.
  intros s p1 p2 p3 p4 Hrej s1 s2.
  assert (pending s1 !! length (pending s) = Some (AwaitInitialData true)) as Hi.
  { subst s1. simpl. by rewrite lookup_app_r, Nat.sub_diag by lia. }
  assert (pending_s1 : pending s1 = pending s ++ [AwaitInitialData true])
    by (by destruct s).
  subst s2. rewrite (step_Settles _ _ _ _ Hi). rewrite pending_s1, delete_last.
  cbn [resume].
  destruct (Promise_all4_rejected p1 p2 p3 p4 Hrej) as (e & -> & He).
  subst s1. clear Hi pending_s1.
  split; [|by destruct s].
  intros k. unfold displayed, infiniteLoadingEnabled, hasError, badge,
    _isSearchActive. by destruct k, s.
Qed.

(** ** Tabs *)

(** X23. The active tab is changed by a click on a tab and by nothing
    else, and a click changes nothing but the active tab: the
    collections, the requests in flight and what was shown stay as they
    were.  After a click, the tab named by the click is the active one,
    and the two tabs are never active together. *)
Theorem tab_changes_by_click_only :
  (forall s tab,
      let s' := step s (TabClick tab) in
      contact s' = contact s /\ opportunity s' = opportunity s /\
      pending s' = pending s /\ outputs s' = outputs s /\
      isLoading s' = isLoading s /\ isSaving s' = isSaving s /\
      forall k, isTab k s' = String.eqb tab (plural k) /\
                tabClass k s'
                = (if String.eqb tab (plural k)
                   then "tab-button active" else "tab-button ")) /\
  (forall s e, (forall tab, e <> TabClick tab) -> activeTab (step s e) = activeTab s) /\
  (forall s, isTab Contact s && isTab Opportunity s = false).
Proof.
  split; [|split].
  - intros s tab s'. subst s'. simpl. repeat split; try by destruct s.
    unfold tabClass, isTab. simpl. by destruct (String.eqb tab (plural k)).
  - intros s e He.
    destruct e as [| |j v|j|j|j a row|j d|j|j|j f dir| |tab|i r]; simpl.
    + by destruct s.
    + by destruct s.
    + unfold handleSearch.
      destruct (String.eqb v "" || String.eqb (trim v) ""); by destruct j, s.
    + unfold debounce_fires, _executeSearch.
      destruct (_debounceTimer (coll j s)); [|done]. by destruct j, s.
    + unfold handleLoadMore.
      destruct (_isSearchActive j s || _loading (coll j s)); [done|].
      by destruct j, s.
    + unfold _handleRowAction, _deleteRow.
      destruct (String.eqb a "view"); [by destruct s|].
      destruct (String.eqb a "delete"); [|done]. by destruct s.
    + by destruct j, s.
    + by destruct s.
    + by destruct j, s.
    + unfold handleSort.
      destruct (_isSearchActive j _); destruct (_sortData _ _ _ _);
        by destruct j, s.
    + by destruct s.
    + by destruct (He tab).
    + destruct (pending s !! i) as [t|] eqn:Hi; [|done].
      destruct t as [rf|j term by_|j off|j row|j dv|j dv|j cc c], r;
        simpl; try done.
      * destruct (Promise_all4 _ _ _ _) as [[[[??]?]?]|?]; by destruct rf, s.
      * unfold _executeSearch_resume, _reloadData.
        destruct by_; destruct r; try destruct (String.eqb _ term);
          by destruct j, s.
      * unfold handleLoadMore_resume.
        destruct r; try destruct (_ <? _)%nat; by destruct j, s.
      * unfold _deleteRow_resume, resync, _executeSearch, _reloadData.
        destruct r; [|by destruct s].
        destruct (_isSearchActive _ _); by destruct j, s.
      * case_decide; [|done]. simpl. unfold handleSave_updated.
        destruct (Promise_all rs); by destruct s.
      * unfold handleSave_notified, resync, _executeSearch, _reloadData.
        destruct r; [|by destruct s].
        destruct (_isSearchActive _ _); by destruct j, s.
      * unfold _reloadData_resume.
        destruct (Promise_all2 _ _) as [[??]|?]; by destruct j, s.
  - intros s. unfold isTab. simpl.
    destruct (String.eqb (activeTab s) "contacts") eqn:E; [|done].
    apply String.eqb_eq in E. by rewrite E.
Qed.

(** ** Leaving the page *)

(** X24. [disconnectedCallback] cancels both debounce timers: after it,
    a timer that runs out does nothing, so text typed just before the
    component is removed is never searched for.  It changes nothing
    else: what is shown and what is in flight stay as they were. *)
Theorem disconnect_cancels_the_pending_searches :
  forall s k,
    let s' := step s Disconnected in
    step s' (DebounceFires k) = s' /\
    pending s' = pending s /\ outputs s' = outputs s /\
    forall k', displayed k' s' = displayed k' s /\
               searchTerm (coll k' s') = searchTerm (coll k' s) /\
               pagination (coll k' s') = pagination (coll k' s).
Proof.
  intros s k s'. subst s'. simpl.
  unfold debounce_fires, disconnectedCallback.
  split; [by destruct k, s|].
  split; [by destruct s|]. split; [by destruct s|].
  intros k'. unfold displayed, _isSearchActive, pagination.
  by destruct k', s.
Qed.

(** ** Save *)

(** X25. When a save has gone through ([notifyRecordUpdateAvailable]
    resolved), the success toast counts the drafts that were sent with
    the save, the drafts of the collection are emptied (those entered
    since the save was pressed too), and the server is asked again as
    after a delete: a search for the trimmed current term when a search
    is active, a reload otherwise.  Until the answer arrives the rows
    held still show the values from before the save.  When the
    notification rejects instead, the drafts and rows stay and the save
    is reported as failed. *)
Theorem save_success_clears_drafts_and_asks_the_server_again :
  forall s i k drafts r,
    pending s !! i = Some (AwaitNotify k drafts) ->
    let s' := step s (Settles i (OfVoid r)) in
    (forall k', _paginated (coll k' s') = _paginated (coll k' s) /\
                _search (coll k' s') = _search (coll k' s) /\
                displayed k' s' = displayed k' s) /\
    match r with
    | Fulfilled _ =>
        outputs s' = outputs s ++
          [ShowToast "Success" (updated_message k (length drafts)) "success"] /\
        draftValues (coll k s') = [] /\
        pending s' = delete i (pending s) ++
          [if _isSearchActive k s
           then AwaitSearch k (trim (searchTerm (coll k s))) (ByMutation BySave)
           else AwaitReload k (_offset (coll k s)) BySave] /\
        isSaving s' = isSaving s
    | Rejected e =>
        outputs s' = outputs s ++
          [ShowToast (error_title k BySave)
             (message_or e "An unexpected error occurred") "error"] /\
        draftValues (coll k s') = draftValues (coll k s) /\
        pending s' = delete i (pending s) /\
        isSaving s' = false
    end.
Proof.
  intros s i k drafts r Hi s'. subst s'.
  rewrite (step_Settles _ _ _ _ Hi). simpl.
  unfold handleSave_notified, resync, _executeSearch, _reloadData, displayed.
  destruct r as [[]|e].
  - assert (_isSearchActive k
              (upd k (set_draftValues [])
                 (emit (ShowToast "Success"
                          (updated_message k (length drafts)) "success")
                    (set_pending (delete i (pending s)) s)))
            = _isSearchActive k s) as -> by (by destruct k, s).
    destruct (_isSearchActive k s) eqn:E.
    + split; [intros k'; unfold _isSearchActive; destruct k, k', s; by repeat split|].
      destruct k, s; by repeat split.
    + split; [intros k'; unfold _isSearchActive; destruct k, k', s; by repeat split|].
      destruct k, s; by repeat split.
  - split; [intros k'; unfold _isSearchActive; destruct k', s; by repeat split|].
    destruct k, s; by repeat split.
Qed.

End Component.

(** * The sort of V8 meets the interface *)

Lemma filter_none {A} (Q : A -> Prop) `{!forall x, Decision (Q x)} (l : list A) :
  Forall (fun x => ~ Q x) l -> filter Q l = [].
Proof.
  induction 1 as [|x l Hx _ IH]; [done|].
  by rewrite filter_cons, decide_False, IH.
Qed.

Section TimSortFacts.

Context {A : Type} (comparefn : A -> A -> option Z).

Lemma binary_insert_0 pivot l :
  binary_insert comparefn 0 pivot l = Some (l ++ [pivot]).
Proof. done. Qed.

Lemma binary_insert_S fuel pivot l :
  binary_insert comparefn (S fuel) pivot l
  = match drop (length l / 2) l with
    | mid :: above =>
        order ← comparefn pivot mid;
        if order <? 0
        then (fun below => below ++ mid :: above)
               <$> binary_insert comparefn fuel pivot (take (length l / 2) l)
        else (fun above' => take (length l / 2) l ++ mid :: above')
               <$> binary_insert comparefn fuel pivot above
    | [] => Some (l ++ [pivot])
    end.
Proof. done. Qed.

(** The search never runs out of turns: with [length l] of them or more
    the result is the same. *)
Lemma binary_insert_fuel fuel1 : forall fuel2 pivot l,
  (length l <= fuel1)%nat -> (length l <= fuel2)%nat ->
  binary_insert comparefn fuel1 pivot l = binary_insert comparefn fuel2 pivot l.
Proof.
  induction fuel1 as [|fuel1 IH]; intros fuel2 pivot l H1 H2.
  { destruct l; [|simpl in H1; lia]. by destruct fuel2. }
  destruct fuel2 as [|fuel2].
  { destruct l; [done|simpl in H2; lia]. }
  rewrite !binary_insert_S.
  destruct (drop (length l / 2) l) as [|mid above] eqn:E; [done|].
  assert (S (length above) = length l - length l / 2)%nat as Hmid.
  { rewrite <-length_drop, E. done. }
  assert (length (take (length l / 2) l) <= fuel1 /\
          length (take (length l / 2) l) <= fuel2)%nat as [Hb1 Hb2]
    by (rewrite length_take; lia).
  assert (length above <= fuel1 /\ length above <= fuel2)%nat as [Ha1 Ha2]
    by lia.
  destruct (comparefn pivot mid) as [order|]; simpl; [|done].
  destruct (order <? 0).
  - by rewrite (IH fuel2 _ _ Hb1 Hb2).
  - by rewrite (IH fuel2 _ _ Ha1 Ha2).
Qed.

Lemma binary_insert_Permutation fuel pivot l l' :
  binary_insert comparefn fuel pivot l = Some l' -> l' ≡ₚ pivot :: l.
Proof.
  revert l l'. induction fuel as [|fuel IH]; intros l l'.
  { rewrite binary_insert_0. intros [= <-]. by rewrite Permutation_app_comm. }
  rewrite binary_insert_S.
  destruct (drop (length l / 2) l) as [|mid above] eqn:E.
  { intros [= <-]; by rewrite Permutation_app_comm. }
  destruct (comparefn pivot mid) as [order|]; simpl; [|done].
  rewrite <-(take_drop (length l / 2)%nat l) at 3. rewrite E.
  destruct (order <? 0).
  - destruct (binary_insert _ fuel pivot (take _ l)) as [r|] eqn:Er; [|done].
    intros [= <-]. by rewrite (IH _ _ Er).
  - destruct (binary_insert _ fuel pivot above) as [r|] eqn:Er; [|done].
    intros [= <-]. rewrite (IH _ _ Er).
    rewrite <-!Permutation_middle. apply Permutation_swap.
Qed.

Lemma binary_insert_throws fuel pivot l :
  binary_insert comparefn fuel pivot l = None ->
  exists y, y ∈ l /\ comparefn pivot y = None.
Proof.
  revert l. induction fuel as [|fuel IH]; intros l; [done|].
  rewrite binary_insert_S.
  destruct (drop (length l / 2) l) as [|mid above] eqn:E; [done|].
  assert (mid ∈ l) as Hmid.
  { apply (subseteq_drop (length l / 2) l). rewrite E. left. }
  assert (above ⊆ l) as Habove.
  { intros y Hy. apply (subseteq_drop (length l / 2) l). rewrite E. by right. }
  destruct (comparefn pivot mid) as [order|] eqn:Ec; simpl; [|by eauto].
  destruct (order <? 0).
  - destruct (binary_insert _ fuel pivot (take _ l)) as [r|] eqn:Er; [done|].
    intros _. destruct (IH _ Er) as (y & Hy & Hc). exists y. split; [|done].
    by apply (subseteq_take (length l / 2) l).
  - destruct (binary_insert _ fuel pivot above) as [r|] eqn:Er; [done|].
    intros _. destruct (IH _ Er) as (y & Hy & Hc). exists y. split; [|done].
    by apply Habove.
Qed.

Lemma BinaryInsertionSort_Permutation rest : forall sorted l',
  BinaryInsertionSort comparefn sorted rest = Some l' -> l' ≡ₚ sorted ++ rest.
Proof.
  induction rest as [|pivot rest IH]; intros sorted l'; simpl.
  { intros [= <-]. by rewrite app_nil_r. }
  destruct (binary_insert _ _ pivot sorted) as [sorted'|] eqn:E; simpl; [|done].
  intros H. rewrite (IH _ _ H), (binary_insert_Permutation _ _ _ _ E).
  by rewrite <-Permutation_middle.
Qed.

Lemma BinaryInsertionSort_throws rest : forall sorted,
  BinaryInsertionSort comparefn sorted rest = None ->
  exists x y, x ∈ sorted ++ rest /\ y ∈ sorted ++ rest /\ comparefn x y = None.
Proof.
  induction rest as [|pivot rest IH]; intros sorted; simpl; [done|].
  destruct (binary_insert _ _ pivot sorted) as [sorted'|] eqn:E; simpl.
  - intros H. destruct (IH _ H) as (x & y & Hx & Hy & Hc).
    apply binary_insert_Permutation in E.
    assert (sorted' ++ rest ≡ₚ sorted ++ pivot :: rest) as Hp
      by (by rewrite E, <-Permutation_middle).
    exists x, y. by rewrite <-Hp.
  - intros _. destruct (binary_insert_throws _ _ _ E) as (y & Hy & Hc).
    exists pivot, y. split; [|split; [|done]]; apply elem_of_app.
    + right. left.
    + by left.
Qed.

Lemma run_length_throws isDescending previousElement rest :
  run_length comparefn isDescending previousElement rest = None ->
  exists x y, x ∈ previousElement :: rest /\ y ∈ previousElement :: rest /\
              comparefn x y = None.
Proof.
  revert previousElement. induction rest as [|x rest IH]; intros prev; simpl;
    [done|].
  destruct (comparefn x prev) as [order|] eqn:Ec; simpl.
  - destruct (if isDescending then _ else _); [done|].
    destruct (run_length _ isDescending x rest) as [m|] eqn:E; simpl; [done|].
    intros _. destruct (IH _ E) as (x' & y' & Hx & Hy & Hc).
    exists x', y'. split; [by right|]. split; [by right|done].
  - intros _. exists x, prev. split; [right; left|]. split; [left|done].
Qed.

Lemma ArrayTimSort_Permutation l l' :
  ArrayTimSort comparefn l = Some l' -> l' ≡ₚ l.
Proof.
  unfold ArrayTimSort. destruct l as [|elementHigh [|elementLow rest]];
    [by intros [= <-]..|].
  change (length (elementHigh :: elementLow :: rest) <? 2)%nat with false.
  cbn [CountAndMakeRun].
  destruct (comparefn elementLow elementHigh) as [order|]; simpl; [|done].
  destruct (run_length _ _ elementLow rest) as [n|]; simpl; [|done].
  intros H. apply BinaryInsertionSort_Permutation in H. rewrite H.
  destruct (order <? 0); rewrite ?reverse_Permutation; simpl;
    by rewrite take_drop.
Qed.

Lemma ArrayTimSort_throws l :
  ArrayTimSort comparefn l = None ->
  exists x y, x ∈ l /\ y ∈ l /\ comparefn x y = None.
Proof.
  unfold ArrayTimSort. destruct l as [|elementHigh [|elementLow rest]];
    [done..|].
  change (length (elementHigh :: elementLow :: rest) <? 2)%nat with false.
  cbn [CountAndMakeRun].
  destruct (comparefn elementLow elementHigh) as [order|] eqn:Ec; simpl;
    [|intros _; exists elementLow, elementHigh;
      split; [right; left|split; [left|done]]].
  destruct (run_length _ _ elementLow rest) as [n|] eqn:En; simpl.
  - intros H. apply BinaryInsertionSort_throws in H as (x & y & Hx & Hy & Hc).
    assert ((if order <? 0
             then reverse (elementHigh :: elementLow :: take n rest)
             else elementHigh :: elementLow :: take n rest) ++ drop n rest
            ≡ₚ elementHigh :: elementLow :: rest) as Hp.
    { destruct (order <? 0); rewrite ?reverse_Permutation; simpl;
        by rewrite take_drop. }
    exists x, y. by rewrite <-Hp.
  - intros _. destruct (run_length_throws _ _ _ En) as (x & y & Hx & Hy & Hc).
    exists x, y. split; [by right|]. split; [by right|done].
Qed.

(** The comparator orders the elements that satisfy [P] by a key. *)
Context {K : Type} `{!EqDecision K} (key : A -> K) (kle : relation K).
Context `{!PreOrder kle, !Total kle}.
Context (P : A -> Prop).

Hypothesis Hcmp : orders_by_key comparefn key kle P.

Local Abbreviation by_key := (by_key key kle).
Local Abbreviation above_key := (fun x y => ~ kle (key x) (key y)).

Lemma above_key_le x y : ~ kle (key x) (key y) -> kle (key y) (key x).
Proof. intros H. by destruct (total kle (key x) (key y)). Qed.

(** The pivot goes behind the elements that are not above it. *)
Lemma binary_insert_place fuel pivot l :
  (length l <= fuel)%nat -> P pivot -> Forall P l -> StronglySorted by_key l ->
  exists l1 l2,
    binary_insert comparefn fuel pivot l = Some (l1 ++ pivot :: l2) /\
    l = l1 ++ l2 /\
    Forall (fun y => kle (key y) (key pivot)) l1 /\
    Forall (fun y => ~ kle (key y) (key pivot)) l2.
Proof.
  revert l. induction fuel as [|fuel IH]; intros l Hlen Hp Hl Hs.
  { destruct l; [|simpl in Hlen; lia]. exists [], []. by repeat split. }
  rewrite binary_insert_S.
  destruct (drop (length l / 2) l) as [|mid above] eqn:E.
  { assert (length l = 0)%nat as Hnil.
    { apply (f_equal length) in E. rewrite length_drop in E. cbn [length] in E.
      destruct (decide (length l = 0)%nat) as [|Hne]; [done|].
      pose proof (Nat.div_lt (length l) 2). lia. }
    apply length_zero_iff_nil in Hnil as ->.
    exists [], []. by repeat split. }
  pose proof (take_drop (length l / 2) l) as Hl'. rewrite E in Hl'.
  assert (S (length above) = length l - length l / 2)%nat as Hmid.
  { rewrite <-length_drop, E. done. }
  assert (length (take (length l / 2) l) <= fuel)%nat as Hlen1.
  { rewrite length_take. lia. }
  assert (length above <= fuel)%nat as Hlen2 by lia.
  clear Hmid Hlen.
  set (below := take (length l / 2) l) in *. clearbody below. clear E. subst l.
  apply Forall_app in Hl as [Hb Hl]. apply Forall_cons in Hl as [Hm Ha].
  apply StronglySorted_app in Hs as (Hba & Hsb & Hs).
  apply StronglySorted_cons in Hs as [Hma Hsa].
  destruct (Hcmp pivot mid Hp Hm) as (order & -> & _ & Hc). simpl.
  destruct (Z.ltb_spec order 0) as [Hlt|Hge].
  - assert (~ kle (key mid) (key pivot)) as Hmp by (rewrite <-Hc; lia).
    destruct (IH below Hlen1 Hp Hb Hsb) as (l1 & l2 & -> & -> & H1 & H2). simpl.
    exists l1, (l2 ++ mid :: above). rewrite <-!app_assoc. simpl.
    split; [done|]. split; [done|]. split; [done|].
    apply Forall_app. split; [done|]. constructor; [done|].
    eapply Forall_impl; [exact Hma|]. intros y Hy Hyp. apply Hmp.
    unfold by_key in Hy. by etrans.
  - assert (kle (key mid) (key pivot)) as Hmp by (apply Hc; lia).
    destruct (IH above Hlen2 Hp Ha Hsa) as (l1 & l2 & -> & -> & H1 & H2). simpl.
    exists (below ++ mid :: l1), l2. rewrite <-!app_assoc. simpl.
    split; [done|]. split; [done|]. split; [|done].
    apply Forall_app. split; [|by constructor].
    apply Forall_forall. intros y Hy.
    trans (key mid); [|done]. apply (Hba y mid Hy). left.
Qed.

Lemma binary_insert_sorted pivot l :
  P pivot -> Forall P l -> StronglySorted by_key l ->
  exists l',
    binary_insert comparefn (length l) pivot l = Some l' /\
    StronglySorted by_key l' /\
    forall k, filter (fun y => key y = k) l'
              = filter (fun y => key y = k) (l ++ [pivot]).
Proof.
  intros Hp Hl Hs.
  destruct (binary_insert_place (length l) pivot l (le_n _) Hp Hl Hs)
    as (l1 & l2 & E & -> & H1 & H2).
  rewrite E. eexists; split; [done|].
  apply StronglySorted_app in Hs as (H12 & Hs1 & Hs2).
  rewrite Forall_forall in H1. rewrite Forall_forall in H2.
  split.
  - apply StronglySorted_app. split; [|split; [done|]].
    + intros x1 x2 Hx1 Hx2. apply elem_of_cons in Hx2 as [->|Hx2]; [by apply H1|].
      by apply H12.
    + apply StronglySorted_cons. split; [|done].
      apply Forall_forall. intros y Hy. by apply above_key_le, H2.
  - intros k. rewrite !filter_app, !filter_cons, !filter_nil.
    destruct (decide (key pivot = k)) as [<-|]; [|by rewrite app_nil_r].
    assert (filter (fun y => key y = key pivot) l2 = []) as ->.
    { apply filter_none, Forall_forall. intros y Hy E'.
      apply (H2 y Hy). by rewrite E'. }
    by rewrite app_nil_r.
Qed.

Lemma BinaryInsertionSort_sorted rest : forall sorted,
  Forall P sorted -> Forall P rest -> StronglySorted by_key sorted ->
  exists l',
    BinaryInsertionSort comparefn sorted rest = Some l' /\
    StronglySorted by_key l' /\
    forall k, filter (fun y => key y = k) l'
              = filter (fun y => key y = k) (sorted ++ rest).
Proof.
  induction rest as [|pivot rest IH]; intros sorted Hl Hr Hs; simpl.
  { exists sorted. by rewrite app_nil_r. }
  apply Forall_cons in Hr as [Hp Hr].
  destruct (binary_insert_sorted pivot sorted Hp Hl Hs) as (l1 & -> & Hs1 & Hst1).
  simpl.
  assert (Forall P l1) as Hl1.
  { apply Forall_forall. intros y Hy.
    assert (y ∈ filter (fun z => key z = key y) l1) as Hf
      by (by apply list_elem_of_filter).
    rewrite Hst1 in Hf. apply list_elem_of_filter in Hf as [_ Hf].
    apply elem_of_app in Hf as [Hf|Hf].
    - by eapply Forall_forall in Hl.
    - by apply list_elem_of_singleton in Hf as ->. }
  destruct (IH l1 Hl1 Hr Hs1) as (l' & -> & Hs' & Hst').
  exists l'. split; [done|]. split; [done|].
  intros k. rewrite Hst', !filter_app, Hst1, filter_app.
  by rewrite <-app_assoc, <-filter_app.
Qed.

(** An ascending run: each element is not below the one before it. *)
Lemma run_length_ascending previousElement rest :
  P previousElement -> Forall P rest ->
  exists n, run_length comparefn false previousElement rest = Some n /\
    Sorted by_key (previousElement :: take n rest).
Proof.
  revert previousElement. induction rest as [|x rest IH]; intros prev Hp Hr; simpl.
  { exists 0%nat. split; [done|]. repeat constructor. }
  apply Forall_cons in Hr as [Hx Hr].
  destruct (Hcmp x prev Hx Hp) as (order & -> & _ & Hc). simpl.
  destruct (Z.ltb_spec order 0) as [Hlt|Hge].
  { exists 0%nat. split; [done|]. repeat constructor. }
  destruct (IH x Hx Hr) as (n & -> & Hs). exists (S n). split; [done|].
  simpl. constructor; [done|]. constructor. apply Hc. lia.
Qed.

(** A descending run: each element is strictly below the one before it. *)
Lemma run_length_descending previousElement rest :
  P previousElement -> Forall P rest ->
  exists n, run_length comparefn true previousElement rest = Some n /\
    Sorted above_key (previousElement :: take n rest).
Proof.
  revert previousElement. induction rest as [|x rest IH]; intros prev Hp Hr; simpl.
  { exists 0%nat. split; [done|]. repeat constructor. }
  apply Forall_cons in Hr as [Hx Hr].
  destruct (Hcmp x prev Hx Hp) as (order & -> & _ & Hc). simpl.
  destruct (Z.leb_spec 0 order) as [Hge|Hlt].
  { exists 0%nat. split; [done|]. repeat constructor. }
  destruct (IH x Hx Hr) as (n & -> & Hs). exists (S n). split; [done|].
  simpl. constructor; [done|]. constructor. rewrite <-Hc. lia.
Qed.

#[local] Instance above_key_trans : Transitive above_key.
Proof.
  intros x y z Hxy Hyz Hxz. apply Hyz.
  trans (key x); [by apply above_key_le|done].
Qed.

(** Reversed, a descending run is an ascending one, with the elements of
    each key where they were: there is one at most. *)
Lemma reverse_descending run :
  Sorted above_key run ->
  StronglySorted by_key (reverse run) /\
  forall k, filter (fun y => key y = k) (reverse run)
            = filter (fun y => key y = k) run.
Proof.
  intros Hs. apply Sorted_StronglySorted in Hs; [|apply _].
  induction Hs as [|x run Hs [IH1 IH2] Hx]; [split; [constructor|done]|].
  rewrite reverse_cons. split.
  - apply StronglySorted_app. split; [|split; [done|repeat constructor]].
    intros y x' Hy Hx'. apply list_elem_of_singleton in Hx' as ->.
    rewrite elem_of_reverse in Hy. apply above_key_le.
    rewrite Forall_forall in Hx. exact (Hx y Hy).
  - intros k. rewrite filter_app, IH2, !filter_cons, filter_nil.
    destruct (decide (key x = k)) as [<-|]; [|by rewrite app_nil_r].
    rewrite filter_none; [done|].
    eapply Forall_impl; [exact Hx|]. intros y Hy E. apply Hy. by rewrite E.
Qed.

Lemma ArrayTimSort_sorted l :
  Forall P l ->
  exists l',
    ArrayTimSort comparefn l = Some l' /\
    StronglySorted by_key l' /\
    forall k, filter (fun y => key y = k) l' = filter (fun y => key y = k) l.
Proof.
  intros Hl. unfold ArrayTimSort.
  destruct l as [|elementHigh [|elementLow rest]].
  { exists []. split; [done|]. split; [constructor|done]. }
  { exists [elementHigh]. split; [done|]. split; [repeat constructor|done]. }
  change (length (elementHigh :: elementLow :: rest) <? 2)%nat with false.
  cbn [CountAndMakeRun].
  apply Forall_cons in Hl as [Hh Hl]. apply Forall_cons in Hl as [Hlo Hr].
  destruct (Hcmp elementLow elementHigh Hlo Hh) as (order & -> & _ & Hc). simpl.
  assert (Forall P (take 0 rest)) as _ by done.
  destruct (Z.ltb_spec order 0) as [Hlt|Hge].
  - destruct (run_length_descending elementLow rest Hlo Hr) as (n & -> & Hs).
    simpl.
    assert (Sorted above_key (elementHigh :: elementLow :: take n rest)) as Hrun.
    { constructor; [done|]. constructor. rewrite <-Hc. lia. }
    destruct (reverse_descending _ Hrun) as [Hs1 Hst1].
    destruct (BinaryInsertionSort_sorted (drop n rest)
                (reverse (elementHigh :: elementLow :: take n rest)))
      as (l' & -> & Hs' & Hst'); [| |done|].
    { apply Forall_reverse. repeat (constructor; [done|]).
      by apply Forall_take. }
    { by apply Forall_drop. }
    exists l'. split; [done|]. split; [done|].
    intros k. rewrite Hst', filter_app, Hst1, <-filter_app. simpl.
    by rewrite take_drop.
  - destruct (run_length_ascending elementLow rest Hlo Hr) as (n & -> & Hs).
    simpl.
    assert (StronglySorted by_key (elementHigh :: elementLow :: take n rest))
      as Hrun.
    { apply Sorted_StronglySorted.
      - intros x y z. unfold by_key. apply transitivity.
      - constructor; [done|]. constructor. apply Hc. lia. }
    destruct (BinaryInsertionSort_sorted (drop n rest)
                (elementHigh :: elementLow :: take n rest))
      as (l' & -> & Hs' & Hst'); [| |done|].
    { repeat (constructor; [done|]). by apply Forall_take. }
    { by apply Forall_drop. }
    exists l'. split; [done|]. split; [done|].
    intros k. rewrite Hst'. simpl. by rewrite take_drop.
Qed.

End TimSortFacts.

(** The sort of V8 is a sort as ECMAScript has it. *)
#[global] Instance V8 : SortEngine := {|
  Array_sort := @ArrayTimSort;
  Array_sort_permutes := @ArrayTimSort_Permutation;
  Array_sort_throws := @ArrayTimSort_throws;
  Array_sort_orders := fun A K EqK comparefn key kle P _ _ =>
                         ArrayTimSort_sorted comparefn key kle P
|}.

(** * Concrete runs

    The runs below use the runtime [StringToNumber_decimal],
    [NumberToString_decimal], and the sort of [V8]. *)

Abbreviation step_ := (step StringToNumber_decimal NumberToString_decimal).
Abbreviation run_ := (run StringToNumber_decimal NumberToString_decimal).
Abbreviation addUrls_ := (_addRecordUrls NumberToString_decimal).
Abbreviation sortData_ := (_sortData StringToNumber_decimal).
Abbreviation comparator_ := (comparator StringToNumber_decimal).

(** The string functions and the runtime on small inputs. *)
Example trim_examples :
  trim "  ab  " = "ab" /\ trim " a b " = "a b" /\ trim "   " = "" /\ trim "" = "".
Proof. repeat split. Qed.

Example toLowerCase_example : toLowerCase "AbC-Z" = "abc-z".
Proof. reflexivity. Qed.

Example addRecordUrls_example :
  addUrls_ [record "003B" "Abby"]
  = [<["recordUrl" := VString "/003B"]> (record "003B" "Abby")].
Proof. reflexivity. Qed.

(** One inline edit saved: the updates, then the notification, then the
    reload of the 50 rows held. *)
Example save_run :
  let s := run_ new_AccountRelatedRecords
             [Connected; Settles 0 first_pages;
              CellEdit Contact (record "3" "Renamed"); Save Contact;
              Settles 0 (OfUpdates [(0%nat, Fulfilled ())]);
              Settles 0 (OfVoid (Fulfilled ()))] in
  let s' := step_ s (Settles 0 (OfReload (0%nat, Fulfilled (records 0 50))
                                         (0%nat, Fulfilled 120%nat))) in
  pending s = [AwaitReload Contact 50 BySave] /\
  draftValues (coll Contact s) = [] /\
  outputs s = [ShowToast "Success" "1 contact(s) updated successfully" "success"] /\
  isSaving s = true /\
  pending s' = [] /\ isSaving s' = false /\
  enableInfiniteLoading (coll Contact s') = true /\
  totalCount (coll Contact s') = 120%nat.
Proof. vm_compute. repeat split. Qed.

(** Names sorted up and down: the missing name first, "Al" before "al"
    in both directions. *)
Example sort_by_name :
  let ids (l : list Row) : list JsVal := (fun a => prop a "Id") <$> l in
  ids <$> sortData_ mixed_names "Name" "asc"
  = Some [VString "4"; VString "2"; VString "3"; VString "1"; VString "5"] /\
  ids <$> sortData_ mixed_names "Name" "desc"
  = Some [VString "5"; VString "1"; VString "2"; VString "3"; VString "4"].
Proof. vm_compute. repeat split. Qed.

(** C1, on the code.  "a" then "ab" are searched for; the "ab" response
    arrives and is shown.  The "a" search, stale by then, fails: its
    [catch] empties the search rows without comparing terms, and the
    rows shown are no longer the "ab" result. *)
Theorem stale_search_failure_clears_rows :
  let s := run_ new_AccountRelatedRecords a_then_ab in
  let s' := step_ s (Settles 0 (OfRows (Rejected network_error))) in
  pending s = [AwaitSearch Contact "a" ByDebounce] /\
  trim (searchTerm (coll Contact s)) = "ab" /\
  displayed Contact s = addUrls_ [record "003B" "Abby"] /\
  trim (searchTerm (coll Contact s')) = "ab" /\
  displayed Contact s' = [] /\
  length (displayed Contact s') <> length (addUrls_ [record "003B" "Abby"]).
Proof. vm_compute. repeat split. discriminate. Qed.

(** The initial load of a connected component fails on its contact
    count: the paginated side of both collections stays as it was. *)
Lemma initial_load_failure_witness :
  let s := step_ new_AccountRelatedRecords Connected in
  let r := OfInitialData (0%nat, Fulfilled (records 0 50))
             (1%nat, Fulfilled (records 500 3))
             (2%nat, Rejected network_error) (3%nat, Fulfilled 3%nat) in
  pending s !! 0%nat = Some (AwaitInitialData false) /\
  (forall k, pagination (coll k (step_ s (Settles 0 r))) = pagination (coll k s)) /\
  (forall k, pagination
               (coll k (step_ (_loadInitialData true new_AccountRelatedRecords)
                          (Settles 0 r)))
             = pagination (coll k new_AccountRelatedRecords)).
Proof.
  split; [reflexivity|]. split.
  - apply (proj1 (initial_load_failure_is_atomic
                    StringToNumber_decimal NumberToString_decimal)
             (step_ new_AccountRelatedRecords Connected) 0%nat false
             (0%nat, Fulfilled (records 0 50)) (1%nat, Fulfilled (records 500 3))
             (2%nat, Rejected network_error) (3%nat, Fulfilled 3%nat)).
    + reflexivity.
    + right. right. left. eexists. reflexivity.
  - apply (proj2 (initial_load_failure_is_atomic
                    StringToNumber_decimal NumberToString_decimal)
             new_AccountRelatedRecords true
             (0%nat, Fulfilled (records 0 50)) (1%nat, Fulfilled (records 500 3))
             (2%nat, Rejected network_error) (3%nat, Fulfilled 3%nat)).
    right. right. left. eexists. reflexivity.
Defined.

(** The first page against a server of 120 contacts, and the two
    load-mores that follow. *)
Lemma initial_load_then_load_more_witness :
  let s := step_ new_AccountRelatedRecords Connected in
  let g := {| contacts := records 0 120; opportunities := records 500 3 |} in
  let s3 := answered StringToNumber_decimal NumberToString_decimal g 0
              (step_ (answered StringToNumber_decimal NumberToString_decimal g 0
                        (step_ (answered StringToNumber_decimal
                                  NumberToString_decimal g 0 s)
                           (LoadMore Contact)))
                 (LoadMore Contact)) in
  (pending s !! 0%nat = Some (AwaitInitialData false) /\
   (length (records 0 50) <= PAGE_SIZE)%nat /\
   (length (records 500 3) <= PAGE_SIZE)%nat /\
   enableInfiniteLoading (coll Opportunity (step_ s (Settles 0 first_pages)))
   = bool_decide (length (records 500 3) = PAGE_SIZE)) /\
  (length (table g Contact) = 120%nat /\
   enableInfiniteLoading (coll Contact s3) = false /\
   _offset (coll Contact s3) = 120%nat).
Proof.
  split.
  - split; [reflexivity|]. split; [vm_compute; lia|]. split; [vm_compute; lia|].
    apply (proj1 (initial_load_then_load_more
                    StringToNumber_decimal NumberToString_decimal)
             (step_ new_AccountRelatedRecords Connected) 0%nat false
             (records 0 50) (records 500 3) 120%nat 3%nat 0%nat 1%nat 2%nat 3%nat
             eq_refl ltac:(vm_compute; lia) ltac:(vm_compute; lia) Opportunity).
  - split; [reflexivity|].
    apply (proj2 (initial_load_then_load_more
                    StringToNumber_decimal NumberToString_decimal)
             {| contacts := records 0 120; opportunities := records 500 3 |}
             Contact eq_refl).
Defined.

(** The offset after the first events of a session. *)
Lemma offset_equals_rows_held_witness :
  offset_counts_rows new_AccountRelatedRecords /\
  offset_counts_rows (step_ new_AccountRelatedRecords Connected) /\
  reachable StringToNumber_decimal NumberToString_decimal
    (run_ new_AccountRelatedRecords [Connected; Settles 0 first_pages]) /\
  offset_counts_rows (run_ new_AccountRelatedRecords [Connected; Settles 0 first_pages]).
Proof.
  pose proof (offset_equals_rows_held StringToNumber_decimal NumberToString_decimal)
    as (H0 & Hstep & Hreach).
  assert (reachable StringToNumber_decimal NumberToString_decimal
            (run_ new_AccountRelatedRecords [Connected; Settles 0 first_pages]))
    as Hr by (eexists; reflexivity).
  split; [exact H0|]. split; [exact (Hstep _ Connected H0)|].
  split; [exact Hr|exact (Hreach _ Hr)].
Defined.

(** A second page arrives while the first is held; a second load-more
    asked for in the meantime does nothing.  A load-more asked for while
    the initial load is in flight is sent. *)
Lemma load_more_appends_witness :
  let s := run_ new_AccountRelatedRecords
             [Connected; Settles 0 first_pages; LoadMore Contact] in
  let s' := step_ s (Settles 0 (OfRows (Fulfilled (records 50 50)))) in
  let s0 := step_ new_AccountRelatedRecords Connected in
  (pending s !! 0%nat = Some (AwaitLoadMore Contact 50) /\
   _paginated (coll Contact s')
   = _paginated (coll Contact s) ++ addUrls_ (records 50 50) /\
   _offset (coll Contact s') = (_offset (coll Contact s) + length (records 50 50))%nat) /\
  (_loading (coll Contact s) = true /\ step_ s (LoadMore Contact) = s) /\
  (reachable StringToNumber_decimal NumberToString_decimal s /\
   AwaitLoadMore Contact 50 ∈ pending s /\
   step_ s (LoadMore Contact) = s) /\
  (_isSearchActive Contact s0 = false /\ _loading (coll Contact s0) = false /\
   pending (step_ s0 (LoadMore Contact))
   = pending s0 ++ [AwaitLoadMore Contact (_offset (coll Contact s0))]).
Proof.
  pose proof (load_more_appends StringToNumber_decimal NumberToString_decimal)
    as (Happ & Hnoop & Hflight & Hsent).
  split; [|split; [|split]]; cycle 3.
  { split; [reflexivity|]. split; [reflexivity|].
    exact (proj1 (Hsent (step_ new_AccountRelatedRecords Connected) Contact
                    eq_refl eq_refl)). }
  - split; [reflexivity|].
    destruct (Happ (run_ new_AccountRelatedRecords
                      [Connected; Settles 0 first_pages; LoadMore Contact])
                0%nat Contact 50%nat (records 50 50) eq_refl) as (H1 & H2 & _).
    split; [exact H1|exact H2].
  - split; [reflexivity|].
    apply (Hnoop _ Contact). right. reflexivity.
  - assert (reachable StringToNumber_decimal NumberToString_decimal
              (run_ new_AccountRelatedRecords
                 [Connected; Settles 0 first_pages; LoadMore Contact])) as Hr
      by (eexists; reflexivity).
    assert (AwaitLoadMore Contact 50
              ∈ pending (run_ new_AccountRelatedRecords
                           [Connected; Settles 0 first_pages; LoadMore Contact]))
      as Hin by (vm_compute; constructor).
    split; [exact Hr|]. split; [exact Hin|].
    exact (proj2 (Hflight _ Contact 50%nat Hr Hin)).
Defined.

(** C5 as stated fails: a load that is not a load-more does not hold a
    load-more back.  While the initial load is in flight a load-more is
    sent, for offset 0, and when both are answered the first page is
    held twice; and while the reload that follows a delete is in flight
    a load-more is sent as well. *)
Lemma load_more_is_sent_while_other_loads_are_in_flight :
  let g := {| contacts := records 0 3; opportunities := [] |} in
  let s := step_ new_AccountRelatedRecords Connected in
  let s1 := step_ s (LoadMore Contact) in
  let s2 := answered StringToNumber_decimal NumberToString_decimal g 0
              (answered StringToNumber_decimal NumberToString_decimal g 0 s1) in
  let r := run_ new_AccountRelatedRecords
             [Connected; Settles 0 first_pages;
              RowAction Contact "delete" (record "7" "Contact 7");
              Settles 0 (OfVoid (Fulfilled ()))] in
  (pending s = [AwaitInitialData false] /\
   infiniteLoadingEnabled Contact s = true /\
   pending s1 = [AwaitInitialData false; AwaitLoadMore Contact 0] /\
   pending s2 = [] /\
   _paginated (coll Contact s2) = addUrls_ (records 0 3) ++ addUrls_ (records 0 3) /\
   _offset (coll Contact s2) = 6%nat) /\
  (pending r = [AwaitReload Contact 50 ByDelete] /\
   infiniteLoadingEnabled Contact r = true /\
   pending (step_ r (LoadMore Contact))
   = [AwaitReload Contact 50 ByDelete; AwaitLoadMore Contact 50]).
Proof. cbv zeta. repeat split. Qed.

(** The load-more after the first page fails. *)
Lemma load_more_failure_witness :
  let s := run_ new_AccountRelatedRecords
             [Connected; Settles 0 first_pages; LoadMore Contact] in
  let s' := step_ s (Settles 0 (OfRows (Rejected network_error))) in
  pending s !! 0%nat = Some (AwaitLoadMore Contact 50) /\
  enableInfiniteLoading (coll Contact s') = false /\
  _paginated (coll Contact s') = _paginated (coll Contact s) /\
  _offset (coll Contact s') = _offset (coll Contact s).
Proof.
  split; [reflexivity|].
  destruct (load_more_failure_disables_until_rederived
              StringToNumber_decimal NumberToString_decimal
              (run_ new_AccountRelatedRecords
                 [Connected; Settles 0 first_pages; LoadMore Contact])
              0%nat Contact 50%nat network_error eq_refl) as (H1 & H2 & H3 & _).
  split; [exact H1|]. split; [exact H2|exact H3].
Defined.

(** C6 as stated fails: after the failed load-more the flag is cleared,
    and a delete whose reload brings a full window sets it again, with
    no refresh in between. *)
Lemma load_more_failure_not_permanent :
  let failed := run_ new_AccountRelatedRecords load_more_fails in
  let later := run_ failed delete_and_reload in
  enableInfiniteLoading (coll Contact failed) = false /\
  forallb (fun e => negb (is_refresh e)) delete_and_reload = true /\
  enableInfiniteLoading (coll Contact later) = true /\
  infiniteLoadingEnabled Contact later = true.
Proof. vm_compute. repeat split. Qed.


(** The search box is blanked; before that, "a" is typed, searched for
    and answered. *)
Lemma clearing_search_witness :
  let s := run_ new_AccountRelatedRecords [Connected; Settles 0 first_pages] in
  let es := [SearchInput Contact "a"; DebounceFires Contact;
             Settles 0 (OfRows (Fulfilled [record "003A" "Ada"]));
             SearchInput Contact "  "] in
  (trim "  " = "" /\
   displayed Contact (step_ s (SearchInput Contact "  ")) = _paginated (coll Contact s)) /\
  (search_events StringToNumber_decimal NumberToString_decimal s es = true /\
   forall k, pagination (coll k (run_ s es)) = pagination (coll k s)).
Proof.
  pose proof (clearing_search_restores_pagination
                StringToNumber_decimal NumberToString_decimal) as (Hclear & Hcycle).
  split.
  - split; [reflexivity|].
    destruct (Hclear (run_ new_AccountRelatedRecords [Connected; Settles 0 first_pages])
                Contact "  " eq_refl) as (_ & _ & _ & H & _).
    exact H.
  - split; [reflexivity|]. apply Hcycle. reflexivity.
Defined.

(** Contacts sorted by the Name column, up and then down. *)
Lemma sort_asc_then_desc_witness :
  let s := run_ new_AccountRelatedRecords
             [Connected;
              Settles 0 (OfInitialData (0%nat, Fulfilled mixed_names)
                           (0%nat, Fulfilled []) (0%nat, Fulfilled 5%nat)
                           (0%nat, Fulfilled 0%nat))] in
  let s1 := step_ s (Sort Contact "recordUrl" "asc") in
  let s2 := step_ s1 (Sort Contact "recordUrl" "desc") in
  sortable_column "Name" (displayed Contact s) = true /\
  sort_key "Name" <$> displayed Contact s2
  = reverse (sort_key "Name" <$> displayed Contact s1) /\
  keeps_order "Name" (displayed Contact s) (displayed Contact s2).
Proof.
  split; [reflexivity|].
  destruct (sort_asc_then_desc StringToNumber_decimal NumberToString_decimal
              (run_ new_AccountRelatedRecords
                 [Connected;
                  Settles 0 (OfInitialData (0%nat, Fulfilled mixed_names)
                               (0%nat, Fulfilled []) (0%nat, Fulfilled 5%nat)
                               (0%nat, Fulfilled 0%nat))])
              Contact "recordUrl" eq_refl)
    as (_ & _ & _ & _ & _ & _ & _ & Hk & Hm & _).
  split; [exact Hm|exact Hk].
Defined.

(** C9 as stated fails: two rows with the same key keep their order in
    both directions, so the descending arrangement is not the ascending
    one backwards. *)
Lemma equal_keys_are_not_mirrored :
  sortData_ two_anns "Name" "asc" = Some two_anns /\
  sortData_ two_anns "Name" "desc" = Some two_anns /\
  sort_key "Name" <$> two_anns = [KText "ann"; KText "ann"] /\
  two_anns <> reverse two_anns.
Proof.
  split; [reflexivity|]. split; [reflexivity|]. split; [reflexivity|].
  intros H. apply (f_equal (fun l => (l !! 0%nat) ≫= (.!! "Id"))) in H.
  vm_compute in H. discriminate.
Qed.

(** An amount of 0, a missing amount and an empty one, against each
    other, against a text and against an amount of 100. *)
Lemma falsy_sorts_as_empty_string_witness :
  let empty := <["Amount" := VString ""]> no_amount in
  let text := <["Amount" := VString "abc"]> no_amount in
  ToBoolean (prop (amount 0) "Amount") = false /\
  ToBoolean (prop no_amount "Amount") = false /\
  ToBoolean (prop empty "Amount") = false /\
  js_or (prop (amount 0) "Amount") (VString "") = VString "" /\
  comparator_ "Amount" "asc" (amount 0) no_amount = Some 0 /\
  comparator_ "Amount" "desc" (amount 0) (amount 100)
  = comparator_ "Amount" "desc" empty (amount 100) /\
  comparator_ "Amount" "asc" (amount 0) text = Some (-1) /\
  comparator_ "Amount" "asc" text (amount 0) = Some 1 /\
  number_value (prop (amount 100) "Amount") = true /\
  comparator_ "Amount" "asc" (amount 0) (amount 100) = None /\
  comparator_ "Amount" "asc" (amount 100) (amount 0) = Some 1.
Proof.
  pose proof (falsy_sorts_as_empty_string StringToNumber_decimal)
    as (_ & Hor & Hsame & Htie & Htext & Hthrows & Hnumber).
  split; [reflexivity|]. split; [reflexivity|]. split; [reflexivity|].
  split; [exact (Hor (prop (amount 0) "Amount") eq_refl)|].
  split; [exact (Htie "Amount" "asc" (amount 0) no_amount eq_refl eq_refl)|].
  split; [exact (proj1 (Hsame "Amount" "desc" (amount 0)
                          (<["Amount" := VString ""]> no_amount) (amount 100)
                          eq_refl eq_refl))|].
  assert (prop (<["Amount" := VString "abc"]> no_amount) "Amount" = VString "abc")
    as Htxt by reflexivity.
  assert (prop (amount 100) "Amount" = VNumber (Qc_of_Z 100)) as Hnum
    by reflexivity.
  assert (ToBoolean (prop (amount 0) "Amount") = false) as Hzero by reflexivity.
  assert (number_value (prop (amount 100) "Amount") = true) as Hhundred
    by reflexivity.
  destruct (Htext "Amount" "asc" (amount 0)
              (<["Amount" := VString "abc"]> no_amount) "abc" Hzero Htxt)
    as [Hbefore Hafter].
  split; [exact Hbefore|]. split; [exact Hafter|].
  split; [exact Hhundred|].
  split; [exact (Hthrows "Amount" "asc" (amount 0) (amount 100) Hzero Hhundred)|].
  exact (Hnumber "Amount" "asc" (amount 0) (amount 100) (Qc_of_Z 100)
           Hzero Hnum Hhundred).
Defined.

(** An amount of 0 or a missing amount compared with an amount of 100
    raises the TypeError, whichever sort direction; the other way round
    the comparison goes through.  V8 calls the comparator on the later
    element and the one before it: it sorts the missing amount before
    the 100, and throws on the 100 before the missing amount. *)
Example comparator_throws_on_amounts :
  comparator_ "Amount" "asc" (amount 0) (amount 100) = None /\
  comparator_ "Amount" "asc" no_amount (amount 100) = None /\
  comparator_ "Amount" "asc" (amount 100) no_amount = Some 1 /\
  sortData_ [no_amount; amount 100] "Amount" "asc" = Some [no_amount; amount 100] /\
  sortData_ [amount 100; no_amount] "Amount" "asc" = None.
Proof. vm_compute. repeat split. Qed.

(** * Further properties *)

(** X1. A search response that succeeds replaces the search rows of its
    collection exactly when its term is still the trimmed current term,
    and leaves them as they are otherwise; one that fails empties them,
    whatever the term. *)
Theorem search_result_applied_by_term :
  forall {engine : SortEngine} StringToNumber NumberToString s i k term by_ r,
    pending s !! i = Some (AwaitSearch k term by_) ->
    _search (coll k (step StringToNumber NumberToString s (Settles i (OfRows r))))
    = match r with
      | Fulfilled result =>
          if String.eqb (trim (searchTerm (coll k s))) term
          then _addRecordUrls NumberToString result
          else _search (coll k s)
      | Rejected _ => []
      end.
Proof.
  intros ? ? ? s i k term by_ r Hi. by apply (search_response _ _ _ _ _ _ by_).
Qed.

Lemma search_result_applied_by_term_witness :
  let s := run_ new_AccountRelatedRecords a_then_ab in
  pending s !! 0%nat = Some (AwaitSearch Contact "a" ByDebounce) /\
  _search (coll Contact
             (step_ s (Settles 0 (OfRows (Fulfilled [record "003A" "Ada"])))))
  = _search (coll Contact s).
Proof.
  split; [reflexivity|].
  exact (search_result_applied_by_term StringToNumber_decimal NumberToString_decimal
           (run_ new_AccountRelatedRecords a_then_ab) 0%nat Contact "a" ByDebounce
           (Fulfilled [record "003A" "Ada"]) eq_refl).
Defined.

(** X2. In every state the component reaches, the loading flag of a
    collection is set exactly while one load-more of the collection is
    in flight, and no two ever are. *)
Theorem one_load_more_in_flight :
  forall {engine : SortEngine} StringToNumber NumberToString s,
    reachable StringToNumber NumberToString s ->
    forall k, loads_in_flight k s = if _loading (coll k s) then 1%nat else 0%nat.
Proof.
  intros ? ? ? s Hr. by apply (flag_guards_load_more_reachable _ _ s Hr).
Qed.

Lemma one_load_more_in_flight_witness :
  let s := run_ new_AccountRelatedRecords
             [Connected; Settles 0 first_pages; LoadMore Contact; LoadMore Contact] in
  reachable StringToNumber_decimal NumberToString_decimal s /\
  loads_in_flight Contact s = 1%nat.
Proof.
  assert (reachable StringToNumber_decimal NumberToString_decimal
            (run_ new_AccountRelatedRecords
               [Connected; Settles 0 first_pages; LoadMore Contact; LoadMore Contact]))
    as Hr by (eexists; reflexivity).
  split; [exact Hr|].
  exact (one_load_more_in_flight _ _ _ Hr Contact).
Defined.

(** X3. The sort comparator raises a TypeError whenever its first row holds
    text, or nothing, or 0, in the sorted field and its second row a
    non-zero number: [toLowerCase] is called on the number. *)
Theorem comparator_throws_on_text_against_number :
  forall StringToNumber f dir a b,
    text_value (prop a f) = true -> number_value (prop b f) = true ->
    comparator StringToNumber f dir a b = None.
Proof. intros. by apply comparator_TypeError. Qed.

Lemma comparator_throws_on_text_against_number_witness :
  text_value (prop (amount 0) "Amount") = true /\
  number_value (prop (amount 100) "Amount") = true /\
  comparator_ "Amount" "asc" (amount 0) (amount 100) = None.
Proof.
  split; [reflexivity|]. split; [reflexivity|].
  exact (comparator_throws_on_text_against_number StringToNumber_decimal
           "Amount" "asc" (amount 0) (amount 100) eq_refl eq_refl).
Defined.

(** * Further properties of the code, on concrete runs *)

(** " ab " is typed and the timer fires: the search in flight is for
    "ab". *)
Lemma searches_are_never_for_blank_terms_witness :
  let s := run_ new_AccountRelatedRecords
             [SearchInput Contact " ab "; DebounceFires Contact] in
  reachable StringToNumber_decimal NumberToString_decimal s /\
  AwaitSearch Contact "ab" ByDebounce ∈ pending s /\
  "ab" <> "" /\ trim "ab" = "ab".
Proof.
  assert (reachable StringToNumber_decimal NumberToString_decimal
            (run_ new_AccountRelatedRecords
               [SearchInput Contact " ab "; DebounceFires Contact])) as Hr
    by (eexists; reflexivity).
  assert (AwaitSearch Contact "ab" ByDebounce
            ∈ pending (run_ new_AccountRelatedRecords
                         [SearchInput Contact " ab "; DebounceFires Contact]))
    as Hin by (vm_compute; constructor).
  split; [exact Hr|]. split; [exact Hin|].
  exact (searches_are_never_for_blank_terms
           StringToNumber_decimal NumberToString_decimal _ Hr
           Contact "ab" ByDebounce Hin).
Defined.

(** "a" is typed and then replaced by blanks. *)
Lemma blank_search_holds_no_rows_witness :
  let s := run_ new_AccountRelatedRecords
             [SearchInput Contact "a"; SearchInput Contact "  "] in
  reachable StringToNumber_decimal NumberToString_decimal s /\
  trim (searchTerm (coll Contact s)) = "" /\
  _search (coll Contact s) = [] /\
  displayed Contact s = _paginated (coll Contact s).
Proof.
  assert (reachable StringToNumber_decimal NumberToString_decimal
            (run_ new_AccountRelatedRecords
               [SearchInput Contact "a"; SearchInput Contact "  "])) as Hr
    by (eexists; reflexivity).
  split; [exact Hr|]. split; [reflexivity|].
  exact (blank_search_holds_no_rows
           StringToNumber_decimal NumberToString_decimal _ Hr Contact eq_refl).
Defined.

(** One contact is loaded. *)
Lemma held_rows_carry_their_link_witness :
  let s := run_ new_AccountRelatedRecords
             [Connected;
              Settles 0 (OfInitialData (0%nat, Fulfilled [record "003A" "Ada"])
                           (0%nat, Fulfilled []) (0%nat, Fulfilled 1%nat)
                           (0%nat, Fulfilled 0%nat))] in
  let a := <["recordUrl" := VString "/003A"]> (record "003A" "Ada") in
  reachable StringToNumber_decimal NumberToString_decimal s /\
  a ∈ displayed Contact s /\
  a !! "recordUrl"
  = Some (VString ("/" +:+ ToString NumberToString_decimal (prop a "Id"))).
Proof.
  assert (reachable StringToNumber_decimal NumberToString_decimal
            (run_ new_AccountRelatedRecords
               [Connected;
                Settles 0 (OfInitialData (0%nat, Fulfilled [record "003A" "Ada"])
                             (0%nat, Fulfilled []) (0%nat, Fulfilled 1%nat)
                             (0%nat, Fulfilled 0%nat))])) as Hr
    by (eexists; reflexivity).
  assert (<["recordUrl" := VString "/003A"]> (record "003A" "Ada")
            ∈ displayed Contact
                (run_ new_AccountRelatedRecords
                   [Connected;
                    Settles 0 (OfInitialData (0%nat, Fulfilled [record "003A" "Ada"])
                                 (0%nat, Fulfilled []) (0%nat, Fulfilled 1%nat)
                                 (0%nat, Fulfilled 0%nat))]))
    as Hin by (vm_compute; constructor).
  split; [exact Hr|]. split; [exact Hin|].
  exact (held_rows_carry_their_link
           StringToNumber_decimal NumberToString_decimal _ Hr Contact _ Hin).
Defined.

(** A delete is asked for after the first page. *)
Lemma saving_only_while_a_mutation_is_in_flight_witness :
  let s := run_ new_AccountRelatedRecords
             [Connected; Settles 0 first_pages;
              RowAction Contact "delete" (record "7" "Contact 7")] in
  reachable StringToNumber_decimal NumberToString_decimal s /\
  isSaving s = true /\
  exists t, t ∈ pending s /\ is_mutation_task t = true.
Proof.
  assert (reachable StringToNumber_decimal NumberToString_decimal
            (run_ new_AccountRelatedRecords
               [Connected; Settles 0 first_pages;
                RowAction Contact "delete" (record "7" "Contact 7")])) as Hr
    by (eexists; reflexivity).
  split; [exact Hr|]. split; [reflexivity|].
  exact (saving_only_while_a_mutation_is_in_flight
           StringToNumber_decimal NumberToString_decimal _ Hr eq_refl).
Defined.

(** A load-more of the contacts leaves the opportunities alone. *)
Lemma events_of_one_collection_leave_the_other_witness :
  let s := run_ new_AccountRelatedRecords [Connected; Settles 0 first_pages] in
  event_kind s (LoadMore Contact) = Some Contact /\
  Opportunity <> Contact /\
  coll Opportunity (step_ s (LoadMore Contact)) = coll Opportunity s.
Proof.
  assert (Opportunity <> Contact) as Hne by discriminate.
  split; [reflexivity|]. split; [exact Hne|].
  exact (events_of_one_collection_leave_the_other
           StringToNumber_decimal NumberToString_decimal
           (run_ new_AccountRelatedRecords [Connected; Settles 0 first_pages])
           (LoadMore Contact) Contact Opportunity eq_refl Hne).
Defined.

(** A failed load-more sets no error. *)
Lemma error_written_only_by_initial_load_witness :
  let s := run_ new_AccountRelatedRecords
             [Connected; Settles 0 first_pages; LoadMore Contact] in
  let e := Settles 0 (OfRows (Rejected network_error)) in
  completes_initial_load s e = false /\
  error (coll Contact (step_ s e)) = error (coll Contact s).
Proof.
  split; [reflexivity|].
  exact (error_written_only_by_initial_load
           StringToNumber_decimal NumberToString_decimal
           (run_ new_AccountRelatedRecords
              [Connected; Settles 0 first_pages; LoadMore Contact])
           (Settles 0 (OfRows (Rejected network_error))) Contact eq_refl).
Defined.

(** A second page leaves the badge as it was. *)
Lemma total_count_written_only_by_loads_witness :
  let s := run_ new_AccountRelatedRecords
             [Connected; Settles 0 first_pages; LoadMore Contact] in
  let e := Settles 0 (OfRows (Fulfilled (records 50 50))) in
  completes_initial_load s e = false /\
  completes_reload Contact s e = false /\
  totalCount (coll Contact (step_ s e)) = totalCount (coll Contact s) /\
  badge Contact (step_ s e) = badge Contact s.
Proof.
  split; [reflexivity|]. split; [reflexivity|].
  exact (total_count_written_only_by_loads
           StringToNumber_decimal NumberToString_decimal
           (run_ new_AccountRelatedRecords
              [Connected; Settles 0 first_pages; LoadMore Contact])
           (Settles 0 (OfRows (Fulfilled (records 50 50)))) Contact
           eq_refl eq_refl).
Defined.

(** The delete of a contact is rejected. *)
Lemma delete_failure_changes_nothing_held_witness :
  let s := run_ new_AccountRelatedRecords
             [Connected; Settles 0 first_pages;
              RowAction Contact "delete" (record "7" "Contact 7")] in
  let s' := step_ s (Settles 0 (OfVoid (Rejected network_error))) in
  pending s !! 0%nat = Some (AwaitDelete Contact (record "7" "Contact 7")) /\
  contact s' = contact s /\ opportunity s' = opportunity s /\
  isSaving s' = false.
Proof.
  split; [reflexivity|].
  destruct (delete_failure_changes_nothing_held
              StringToNumber_decimal NumberToString_decimal
              (run_ new_AccountRelatedRecords
                 [Connected; Settles 0 first_pages;
                  RowAction Contact "delete" (record "7" "Contact 7")])
              0%nat Contact (record "7" "Contact 7") network_error eq_refl)
    as (H1 & H2 & _ & _ & H5 & _).
  split; [exact H1|]. split; [exact H2|exact H5].
Defined.

(** The delete of a contact goes through. *)
Lemma delete_success_keeps_rows_until_reloaded_witness :
  let s := run_ new_AccountRelatedRecords
             [Connected; Settles 0 first_pages;
              RowAction Contact "delete" (record "7" "Contact 7")] in
  let s' := step_ s (Settles 0 (OfVoid (Fulfilled ()))) in
  pending s !! 0%nat = Some (AwaitDelete Contact (record "7" "Contact 7")) /\
  displayed Contact s' = displayed Contact s /\
  isSaving s' = isSaving s.
Proof.
  split; [reflexivity|].
  destruct (delete_success_keeps_rows_until_reloaded
              StringToNumber_decimal NumberToString_decimal
              (run_ new_AccountRelatedRecords
                 [Connected; Settles 0 first_pages;
                  RowAction Contact "delete" (record "7" "Contact 7")])
              0%nat Contact (record "7" "Contact 7") eq_refl)
    as (_ & _ & Hk & H4).
  split; [exact (proj2 (proj2 (proj2 (Hk Contact))))|exact H4].
Defined.

(** A contact is deleted while "a" is searched for, and the search that
    is run again fails. *)
Lemma search_after_mutation_always_continues_to_reload_witness :
  let s := run_ new_AccountRelatedRecords
             [Connected; Settles 0 first_pages; SearchInput Contact "a";
              RowAction Contact "delete" (record "7" "Contact 7");
              Settles 0 (OfVoid (Fulfilled ()))] in
  let s' := step_ s (Settles 0 (OfRows (Rejected network_error))) in
  pending s !! 0%nat = Some (AwaitSearch Contact "a" (ByMutation ByDelete)) /\
  pending s' = [AwaitReload Contact 50 ByDelete] /\
  isSaving s' = isSaving s.
Proof.
  split; [reflexivity|].
  destruct (search_after_mutation_always_continues_to_reload
              StringToNumber_decimal NumberToString_decimal
              (run_ new_AccountRelatedRecords
                 [Connected; Settles 0 first_pages; SearchInput Contact "a";
                  RowAction Contact "delete" (record "7" "Contact 7");
                  Settles 0 (OfVoid (Fulfilled ()))])
              0%nat Contact "a" ByDelete (Rejected network_error) eq_refl)
    as (H1 & _ & H3 & _).
  split; [exact (eq_trans H1 eq_refl)|exact H3].
Defined.

(** The reload after a delete fails. *)
Lemma reload_failure_is_reported_as_mutation_failure_witness :
  let s := run_ new_AccountRelatedRecords
             [Connected; Settles 0 first_pages;
              RowAction Contact "delete" (record "7" "Contact 7");
              Settles 0 (OfVoid (Fulfilled ()))] in
  let result : Timed (list Row) := (0%nat, Rejected network_error) in
  let count : Timed nat := (0%nat, Fulfilled 119%nat) in
  let s' := step_ s (Settles 0 (OfReload result count)) in
  pending s !! 0%nat = Some (AwaitReload Contact 50 ByDelete) /\
  is_Some (rejection result) /\
  contact s' = contact s /\ isSaving s' = false.
Proof.
  assert (is_Some (rejection ((0%nat, Rejected network_error) : Timed (list Row))))
    as Hrej by (eexists; reflexivity).
  split; [reflexivity|]. split; [exact Hrej|].
  destruct (reload_failure_is_reported_as_mutation_failure
              StringToNumber_decimal NumberToString_decimal
              (run_ new_AccountRelatedRecords
                 [Connected; Settles 0 first_pages;
                  RowAction Contact "delete" (record "7" "Contact 7");
                  Settles 0 (OfVoid (Fulfilled ()))])
              0%nat Contact 50%nat ByDelete
              (0%nat, Rejected network_error) (0%nat, Fulfilled 119%nat)
              eq_refl (or_introl Hrej))
    as (e & _ & H1 & _ & _ & _ & H5).
  split; [exact H1|exact H5].
Defined.

(** The reload after a delete, against a server that has 49 contacts
    left. *)
Lemma reload_holds_as_many_rows_as_before_witness :
  let s := run_ new_AccountRelatedRecords
             [Connected; Settles 0 first_pages;
              RowAction Contact "delete" (record "7" "Contact 7");
              Settles 0 (OfVoid (Fulfilled ()))] in
  let g := {| contacts := records 0 7 ++ records 8 42; opportunities := [] |} in
  let s' := answered StringToNumber_decimal NumberToString_decimal g 0 s in
  pending s !! 0%nat = Some (AwaitReload Contact 50 ByDelete) /\
  _offset (coll Contact s') = 49%nat /\
  enableInfiniteLoading (coll Contact s') = false /\
  isSaving s' = false.
Proof.
  split; [reflexivity|].
  destruct (reload_holds_as_many_rows_as_before
              StringToNumber_decimal NumberToString_decimal
              {| contacts := records 0 7 ++ records 8 42; opportunities := [] |}
              (run_ new_AccountRelatedRecords
                 [Connected; Settles 0 first_pages;
                  RowAction Contact "delete" (record "7" "Contact 7");
                  Settles 0 (OfVoid (Fulfilled ()))])
              0%nat Contact 50%nat ByDelete eq_refl)
    as (_ & H2 & _ & H4 & _ & H6 & _).
  split; [exact (eq_trans H2 eq_refl)|].
  split; [exact (eq_trans H4 eq_refl)|exact H6].
Defined.

(** "a" is typed and the timer fires. *)
Lemma searching_only_while_a_search_is_in_flight_witness :
  let s := run_ new_AccountRelatedRecords
             [SearchInput Contact "a"; DebounceFires Contact] in
  reachable StringToNumber_decimal NumberToString_decimal s /\
  _isSearching (coll Contact s) = true /\
  exists t, t ∈ pending s /\ is_search Contact t = true.
Proof.
  assert (reachable StringToNumber_decimal NumberToString_decimal
            (run_ new_AccountRelatedRecords
               [SearchInput Contact "a"; DebounceFires Contact])) as Hr
    by (eexists; reflexivity).
  split; [exact Hr|]. split; [reflexivity|].
  exact (searching_only_while_a_search_is_in_flight
           StringToNumber_decimal NumberToString_decimal _ Hr Contact eq_refl).
Defined.

(** The count of the contacts fails in the initial load. *)
Lemma failed_load_is_shown_as_error_on_both_tabs_witness :
  let s := step_ new_AccountRelatedRecords Connected in
  let count : Timed nat := (2%nat, Rejected network_error) in
  let r := OfInitialData (0%nat, Fulfilled (records 0 50))
             (1%nat, Fulfilled (records 500 3)) count (3%nat, Fulfilled 3%nat) in
  let s' := step_ s (Settles 0 r) in
  pending s !! 0%nat = Some (AwaitInitialData false) /\
  is_Some (rejection count) /\
  isLoading s' = false /\
  hasError Contact s' = true /\ hasError Opportunity s' = true /\
  showEmptyState Contact s' = false.
Proof.
  assert (is_Some (rejection ((2%nat, Rejected network_error) : Timed nat)))
    as Hrej by (eexists; reflexivity).
  split; [reflexivity|]. split; [exact Hrej|].
  destruct (failed_load_is_shown_as_error_on_both_tabs
              StringToNumber_decimal NumberToString_decimal
              (step_ new_AccountRelatedRecords Connected) 0%nat false
              (0%nat, Fulfilled (records 0 50)) (1%nat, Fulfilled (records 500 3))
              (2%nat, Rejected network_error) (3%nat, Fulfilled 3%nat)
              eq_refl (or_intror (or_intror (or_introl Hrej))))
    as (H1 & e & _ & Hk).
  split; [exact H1|].
  split; [exact (proj1 (Hk Contact))|].
  split; [exact (proj1 (Hk Opportunity))|].
  exact (proj1 (proj2 (proj2 (Hk Contact)))).
Defined.

(** A refresh whose load fails. *)
Lemma refresh_reports_success_whatever_the_load_did_witness :
  let s := run_ new_AccountRelatedRecords
             [Connected; Settles 0 first_pages; Refresh] in
  let r := OfInitialData (0%nat, Rejected network_error)
             (1%nat, Fulfilled (records 500 3))
             (2%nat, Fulfilled 120%nat) (3%nat, Fulfilled 3%nat) in
  let s' := step_ s (Settles 0 r) in
  pending s !! 0%nat = Some (AwaitInitialData true) /\
  outputs s' = [ShowToast "Refreshed" "Data has been refreshed" "success"] /\
  isLoading s' = false.
Proof.
  split; [reflexivity|].
  destruct (refresh_reports_success_whatever_the_load_did
              StringToNumber_decimal NumberToString_decimal
              (run_ new_AccountRelatedRecords
                 [Connected; Settles 0 first_pages; Refresh])
              0%nat (0%nat, Rejected network_error)
              (1%nat, Fulfilled (records 500 3))
              (2%nat, Fulfilled 120%nat) (3%nat, Fulfilled 3%nat) eq_refl)
    as (H1 & H2 & _).
  split; [exact (eq_trans H1 eq_refl)|exact H2].
Defined.

(** The first page is held, and the refresh fails. *)
Lemma failed_refresh_leaves_the_page_empty_witness :
  let s := run_ new_AccountRelatedRecords [Connected; Settles 0 first_pages] in
  let page : Timed (list Row) := (0%nat, Rejected network_error) in
  let s2 := run_ s [Refresh;
                    Settles 0 (OfInitialData page
                                 (1%nat, Fulfilled (records 500 3))
                                 (2%nat, Fulfilled 120%nat) (3%nat, Fulfilled 3%nat))] in
  is_Some (rejection page) /\
  length (displayed Contact s) = 50%nat /\
  displayed Contact s2 = [] /\
  hasError Contact s2 = true /\
  badge Contact s2 = badge Contact s.
Proof.
  assert (is_Some (rejection ((0%nat, Rejected network_error) : Timed (list Row))))
    as Hrej by (eexists; reflexivity).
  split; [exact Hrej|]. split; [reflexivity|].
  destruct (failed_refresh_leaves_the_page_empty
              StringToNumber_decimal NumberToString_decimal
              (run_ new_AccountRelatedRecords [Connected; Settles 0 first_pages])
              (0%nat, Rejected network_error)
              (1%nat, Fulfilled (records 500 3))
              (2%nat, Fulfilled 120%nat) (3%nat, Fulfilled 3%nat)
              (or_introl Hrej))
    as (Hk & _).
  destruct (Hk Contact) as (_ & H2 & _ & _ & _ & H6 & H7).
  split; [exact H2|]. split; [exact H6|exact H7].
Defined.

(** A refresh does not switch the tab. *)
Lemma tab_changes_by_click_only_witness :
  let s := step_ new_AccountRelatedRecords (TabClick "opportunities") in
  (forall tab, Refresh <> TabClick tab) /\
  activeTab (step_ s Refresh) = activeTab s /\
  isTab Opportunity s = true /\ isTab Contact s = false.
Proof.
  assert (forall tab, Refresh <> TabClick tab) as Hne by discriminate.
  pose proof (tab_changes_by_click_only StringToNumber_decimal NumberToString_decimal)
    as (Hclick & Hother & _).
  split; [exact Hne|].
  split; [exact (Hother (step_ new_AccountRelatedRecords (TabClick "opportunities"))
                   Refresh Hne)|].
  destruct (Hclick new_AccountRelatedRecords "opportunities")
    as (_ & _ & _ & _ & _ & _ & Hk).
  split; [exact (proj1 (Hk Opportunity))|exact (proj1 (Hk Contact))].
Defined.

(** One edited contact is saved. *)
Lemma save_success_clears_drafts_and_asks_the_server_again_witness :
  let d := record "3" "Renamed" in
  let s := run_ new_AccountRelatedRecords
             [Connected; Settles 0 first_pages; CellEdit Contact d; Save Contact;
              Settles 0 (OfUpdates [(0%nat, Fulfilled ())])] in
  let s' := step_ s (Settles 0 (OfVoid (Fulfilled ()))) in
  pending s !! 0%nat = Some (AwaitNotify Contact [d]) /\
  draftValues (coll Contact s') = [] /\
  pending s' = [AwaitReload Contact 50 BySave] /\
  displayed Contact s' = displayed Contact s.
Proof.
  split; [reflexivity|].
  destruct (save_success_clears_drafts_and_asks_the_server_again
              StringToNumber_decimal NumberToString_decimal
              (run_ new_AccountRelatedRecords
                 [Connected; Settles 0 first_pages;
                  CellEdit Contact (record "3" "Renamed"); Save Contact;
                  Settles 0 (OfUpdates [(0%nat, Fulfilled ())])])
              0%nat Contact [record "3" "Renamed"] (Fulfilled ()) eq_refl)
    as (Hk & _ & H2 & H3 & _).
  split; [exact H2|]. split; [exact (eq_trans H3 eq_refl)|].
  exact (proj2 (proj2 (Hk Contact))).
Defined.
